(** * Product analytics dashboard: the computation layer of [analytics.py]

    A shallow embedding of the analytic functions of [analytics.py]
    (KPIs, funnel, cohort retention, RFM segmentation, A/B test) and of the
    bottleneck selection of [dashboard.py], with the properties the
    specification states about them; then the filters and the KPI cards of
    [dashboard.py] and the generator of [data_generator.py], with further
    properties of all three modules.

    Modelling conventions.
    - A [DataFrame] of events is the list of its rows, in row order.
    - [event_date] and [signup_date] are calendar days, counted from
      1970-01-01 (the generator only produces midnight timestamps and every
      function below reads dates through [.dt.days] or [.dt.to_period("M")]).
    - A float64 is its exact rational value when finite, or one of
      [+inf], [-inf], [NaN]; binary rounding error is not modelled.  Zero is
      the positive zero (every zero divisor below is a count).
    - A Python exception is a [Raise]; numpy arithmetic never raises, Python
      [int / int] raises [ZeroDivisionError] on a zero divisor.
    - scikit-learn and scipy routines whose numerics are outside the
      repository ([StandardScaler], [KMeans], the chi-square survival
      function) are fields of the interfaces [Sklearn] and [Scipy]; the
      argument checks they perform before computing are written out.
    - The draws of [numpy.random] are fields of the interface
      [NumpyRandom], with the ranges numpy documents for them; an array of
      [n] draws is [n] successive draws. *)

From Stdlib Require Import ZArith QArith Qcanon Lia.
From stdpp Require Import base option list sorting strings numbers.

Local Open Scope Z_scope.

(* ================================================================= *)
(** ** Exceptions and results *)

(** The exceptions a call can end in.  The first four are Python built-ins
    raised by the interpreter or by the libraries; the last four are the
    names of the specification's error taxonomy, which no function of the
    repository constructs. *)
Inductive exn :=
  | ZeroDivisionError
  | ValueError
  | KeyError
  | IndexError
  | EmptyInputError
  | DivisionByZeroError
  | SchemaViolationError
  | DegenerateClusteringError.

Inductive result (A : Type) :=
  | Ok (a : A)
  | Raise (e : exn).
Arguments Ok {A} a.
Arguments Raise {A} e.

Definition rbind {A B} (r : result A) (k : A → result B) : result B :=
  match r with
  | Ok a => k a
  | Raise e => Raise e
  end.

Notation "x ←r e1 ; e2" := (rbind e1 (λ x, e2))
  (at level 100, e1 at next level, e2 at level 200, right associativity,
   format "x  ←r  e1 ;  '/' e2").


Global Instance exn_eq_dec : EqDecision exn.
Proof. solve_decision. Defined.

(* ================================================================= *)
(** ** float64 *)

Inductive float64 :=
  | Fin (q : Qc)
  | PosInf
  | NegInf
  | NaN.

Global Instance float64_eq_dec : EqDecision float64.
Proof. solve_decision. Defined.

Global Instance result_eq_dec {A} `{EqDecision A} : EqDecision (result A).
Proof. solve_decision. Defined.

Definition of_int (z : Z) : float64 := Fin (Qc_of_Z z).
Definition of_nat (n : nat) : float64 := of_int (Z.of_nat n).

Definition Qc_sgn (q : Qc) : Z := Z.sgn (Qnum (this q)).

Definition inf_of_sign (s : Z) : float64 :=
  if decide (0 ≤ s) then PosInf else NegInf.

Definition fneg (x : float64) : float64 :=
  match x with
  | Fin q => Fin (- q)%Qc
  | PosInf => NegInf
  | NegInf => PosInf
  | NaN => NaN
  end.

Definition fadd (x y : float64) : float64 :=
  match x, y with
  | NaN, _ | _, NaN => NaN
  | Fin a, Fin b => Fin (a + b)%Qc
  | PosInf, NegInf | NegInf, PosInf => NaN
  | PosInf, _ | _, PosInf => PosInf
  | NegInf, _ | _, NegInf => NegInf
  end.

Definition fsub (x y : float64) : float64 := fadd x (fneg y).

Definition fmul (x y : float64) : float64 :=
  match x, y with
  | NaN, _ | _, NaN => NaN
  | Fin a, Fin b => Fin (a * b)%Qc
  | Fin a, PosInf | PosInf, Fin a =>
      if decide (Qc_sgn a = 0) then NaN else inf_of_sign (Qc_sgn a)
  | Fin a, NegInf | NegInf, Fin a =>
      if decide (Qc_sgn a = 0) then NaN else inf_of_sign (- Qc_sgn a)
  | PosInf, PosInf | NegInf, NegInf => PosInf
  | PosInf, NegInf | NegInf, PosInf => NegInf
  end.

(** IEEE division: a non-zero value over zero is an infinity, [0/0] and
    [inf/inf] are [NaN]. *)
Definition fdiv (x y : float64) : float64 :=
  match x, y with
  | NaN, _ | _, NaN => NaN
  | Fin a, Fin b =>
      if decide (Qc_sgn b = 0)
      then (if decide (Qc_sgn a = 0) then NaN else inf_of_sign (Qc_sgn a))
      else Fin (a / b)%Qc
  | Fin _, PosInf | Fin _, NegInf => Fin 0%Qc
  | PosInf, Fin b => inf_of_sign (Qc_sgn b)
  | NegInf, Fin b => inf_of_sign (- (if decide (Qc_sgn b = 0) then 1 else Qc_sgn b))
  | _, _ => NaN
  end.

(** Comparisons; every comparison with [NaN] is false. *)
Definition fltb (x y : float64) : bool :=
  match x, y with
  | NaN, _ | _, NaN => false
  | Fin a, Fin b => bool_decide (a < b)%Qc
  | NegInf, NegInf | PosInf, _ | Fin _, NegInf => false
  | NegInf, _ | _, PosInf => true
  end.

Definition fleb (x y : float64) : bool :=
  match x, y with
  | NaN, _ | _, NaN => false
  | _, _ => negb (fltb y x)
  end.

Definition feqb (x y : float64) : bool :=
  match x, y with
  | NaN, _ | _, NaN => false
  | _, _ => bool_decide (x = y)
  end.

Definition isnan (x : float64) : bool :=
  match x with NaN => true | _ => false end.

(** [rint]: the nearest integer, halves to the even neighbour. *)
Definition rint (q : Qc) : Z :=
  let n := Qnum (this q) in
  let d := Z.pos (Qden (this q)) in
  let f := n `div` d in
  let r := n `mod` d in
  match (2 * r ?= d) with
  | Lt => f
  | Gt => f + 1
  | Eq => if Z.even f then f else f + 1
  end.

(** [numpy.round(x, 1)]: scale by ten, [rint], scale back. *)
Definition fround1 (x : float64) : float64 :=
  match x with
  | Fin q => Fin (Qc_of_Z (rint (q * Qc_of_Z 10)) / Qc_of_Z 10)%Qc
  | _ => x
  end.

Arguments fadd : simpl never.
Arguments fsub : simpl never.
Arguments fmul : simpl never.
Arguments fdiv : simpl never.
Arguments fround1 : simpl never.
Arguments of_int : simpl never.
Arguments of_nat : simpl never.

(** Python [int / int]. *)
Definition py_truediv (a b : Z) : result float64 :=
  if decide (b = 0) then Raise ZeroDivisionError
  else Ok (Fin (Qc_of_Z a / Qc_of_Z b)%Qc).

(** A numpy integer scalar over a Python or numpy integer. *)
Definition np_truediv (a b : Z) : float64 := fdiv (of_int a) (of_int b).

(* ================================================================= *)
(** ** Calendar *)

Definition date := Z.

(** Year and month (1..12) of a day number. *)
Definition civil_from_days (z0 : date) : Z * Z * Z :=
  let z := z0 + 719468 in
  let era := z `div` 146097 in
  let doe := z - era * 146097 in
  let yoe := (doe - doe `div` 1460 + doe `div` 36524 - doe `div` 146096) `div` 365 in
  let doy := doe - (365 * yoe + yoe `div` 4 - yoe `div` 100) in
  let mp := (5 * doy + 2) `div` 153 in
  let d := doy - (153 * mp + 2) `div` 5 + 1 in
  let m := if decide (mp < 10) then mp + 3 else mp - 9 in
  let y := yoe + era * 400 + (if decide (m ≤ 2) then 1 else 0) in
  (y, m, d).

Definition days_from_civil (y0 m d : Z) : date :=
  let y := if decide (m ≤ 2) then y0 - 1 else y0 in
  let era := y `div` 400 in
  let yoe := y - era * 400 in
  let mp := if decide (m ≤ 2) then m + 9 else m - 3 in
  let doy := (153 * mp + 2) `div` 5 + d - 1 in
  let doe := yoe * 365 + yoe `div` 4 - yoe `div` 100 + doy in
  era * 146097 + doe - 719468.

(** [.dt.to_period("M")]: the ordinal of the calendar month. *)
Definition to_period_M (d : date) : Z :=
  let '(y, m, _) := civil_from_days d in (y - 1970) * 12 + (m - 1).

(* ================================================================= *)
(** ** Events *)

Record event := {
  user_id : Z;
  event_date : date;
  event_type : string;
  revenue : Qc;
  device_type : string;
  acquisition_channel : string;
  experiment_group : string;
  signup_date : date;
}.

Definition DataFrame := list event.

(* ================================================================= *)
(** ** pandas primitives *)

Definition nunique {A} `{EqDecision A} (l : list A) : nat :=
  length (remove_dups l).

(** Group keys come out sorted and without repeats. *)
Definition sorted_unique (l : list Z) : list Z :=
  merge_sort Z.le (remove_dups l).

(** [Series.max] and [Series.min] of dates; [None] is [NaT]. *)
Definition series_max (l : list Z) : option Z :=
  match l with
  | [] => None
  | x :: xs => Some (foldr Z.max x xs)
  end.

Definition series_min (l : list Z) : option Z :=
  match l with
  | [] => None
  | x :: xs => Some (foldr Z.min x xs)
  end.

(** [(a - b).days] on timestamps; [NaT] propagates. *)
Definition days_between (a b : option Z) : option Z :=
  match a, b with
  | Some x, Some y => Some (x - y)
  | _, _ => None
  end.

(** [gap >= days] on a day count; a missing value compares false. *)
Definition ge_days (gap : option Z) (days : Z) : bool :=
  match gap with
  | Some g => bool_decide (days ≤ g)
  | None => false
  end.

(** [(mask).sum()]. *)
Definition count_true (l : list bool) : nat :=
  length (filter (λ b, b = true) l).

Definition rows_of_type (step : string) (df : DataFrame) : DataFrame :=
  filter (λ e, event_type e = step) df.

Definition rows_of_user (u : Z) (df : DataFrame) : DataFrame :=
  filter (λ e, user_id e = u) df.

(** [df.groupby("user_id")]: one group per user id, keys ascending. *)
Definition groupby_user (df : DataFrame) : list (Z * DataFrame) :=
  (λ u, (u, rows_of_user u df)) <$> sorted_unique (user_id <$> df).

(* ================================================================= *)
(** ** 1. KPI calculations *)

Definition compute_conversion_rate (df : DataFrame) : result float64 :=
  let total_users := nunique (user_id <$> df) in
  let converted := nunique (user_id <$> rows_of_type "purchase" df) in
  q ←r py_truediv (Z.of_nat converted) (Z.of_nat total_users);
  Ok (fmul q (of_int 100)).

Definition compute_retention_rate (df : DataFrame) (days : Z) : float64 :=
  let user_first := (λ g, series_min (event_date <$> g.2)) <$> groupby_user df in
  let user_last := (λ g, series_max (event_date <$> g.2)) <$> groupby_user df in
  let combined := zip user_first user_last in
  let gap := (λ r, days_between r.2 r.1) <$> combined in
  let retained := count_true ((λ g, ge_days g days) <$> gap) in
  fmul (np_truediv (Z.of_nat retained) (Z.of_nat (length combined))) (of_int 100).

Definition compute_churn_rate (df : DataFrame) (inactive_days : Z) : float64 :=
  let max_date := series_max (event_date <$> df) in
  let user_last := (λ g, series_max (event_date <$> g.2)) <$> groupby_user df in
  let churned :=
    count_true ((λ l, ge_days (days_between max_date l) inactive_days) <$> user_last) in
  fmul (np_truediv (Z.of_nat churned) (Z.of_nat (nunique (user_id <$> df))))
       (of_int 100).

(* ================================================================= *)
(** ** 2. Funnel analysis *)

Definition FUNNEL_STEPS : list string :=
  ["signup"; "login"; "view_product"; "add_to_cart"; "purchase"].

Record funnel_row := {
  step : string;
  users : nat;
  conversion_from_prev : float64;
  conversion_from_top : float64;
  dropoff_pct : float64;
}.

Global Instance funnel_row_eq_dec : EqDecision funnel_row.
Proof. solve_decision. Defined.

(** [Series.shift(1)]: a missing value enters at the front. *)
Definition shift1 (l : list float64) : list float64 :=
  match l with
  | [] => []
  | _ :: _ => NaN :: take (length l - 1) l
  end.

(** [x / y * 100], rounded to one decimal. *)
Definition pct (x y : float64) : float64 :=
  fround1 (fmul (fdiv x y) (of_int 100)).

(** The frame built from the step counts, lines 143-153 of analytics.py.
    Row 0 is overwritten last. *)
Definition funnel_frame (step_counts : list (string * nat)) : result (list funnel_row) :=
  match step_counts with
  | [] => Raise KeyError
  | (_, top) :: _ =>
      let col_users := (λ r, of_nat r.2) <$> step_counts in
      let conv_prev := zip_with pct col_users (shift1 col_users) in
      let conv_top := (λ u, pct u (of_nat top)) <$> col_users in
      let dropoff := (λ c, fround1 (fsub (of_int 100) c)) <$> conv_prev in
      let rows :=
        zip_with (λ sc r, {| step := sc.1; users := sc.2;
                             conversion_from_prev := r.1.1;
                             conversion_from_top := r.1.2;
                             dropoff_pct := r.2 |})
                 step_counts (zip (zip conv_prev conv_top) dropoff) in
      match rows with
      | [] => Ok []
      | r0 :: rest =>
          Ok ({| step := step r0; users := users r0;
                 conversion_from_prev := of_int 100;
                 conversion_from_top := conversion_from_top r0;
                 dropoff_pct := of_int 0 |} :: rest)
      end
  end.

Definition step_reach (df : DataFrame) (s : string) : nat :=
  nunique (user_id <$> rows_of_type s df).

Definition compute_funnel (df : DataFrame) : result (list funnel_row) :=
  funnel_frame ((λ s, (s, step_reach df s)) <$> FUNNEL_STEPS).

(** *** The bottleneck of dashboard.py, lines 505-509 *)

(** [numpy.argmax] after pandas has put [-inf] in place of every missing
    value: the position of the first greatest entry. *)
Definition fill_na (x : float64) : float64 :=
  if isnan x then NegInf else x.

Fixpoint argmax_from (best : nat) (bv : float64) (i : nat) (l : list float64) : nat :=
  match l with
  | [] => best
  | x :: xs =>
      if fltb bv x then argmax_from i x (S i) xs
      else argmax_from best bv (S i) xs
  end.

Definition argmax (l : list float64) : option nat :=
  match l with
  | [] => None
  | x :: xs => Some (argmax_from 0%nat x 1%nat xs)
  end.

(** [Series.idxmax()] with the default [skipna=True], on a series whose
    labels are [first, first+1, ...].  A series made of missing values only
    has no label to give: the lookup that follows fails. *)
Definition idxmax (first : nat) (s : list float64) : result nat :=
  if forallb isnan s then Raise ValueError
  else match argmax (fill_na <$> s) with
       | Some i => Ok (first + i)%nat
       | None => Raise ValueError
       end.

(** [None]: the frame has at most one row and nothing is shown. *)
Definition bottleneck (funnel_df : list funnel_row) : result (option (nat * string * float64)) :=
  if decide (1 < length funnel_df)%nat then
    b ←r idxmax 1 (dropoff_pct <$> drop 1 funnel_df);
    match funnel_df !! b with
    | Some r => Ok (Some (b, step r, dropoff_pct r))
    | None => Raise KeyError
    end
  else Ok None.

(* ================================================================= *)
(** ** 3. Cohort analysis *)

Definition signup_month (e : event) : Z := to_period_M (signup_date e).
Definition event_month (e : event) : Z := to_period_M (event_date e).

(** [cohort_sizes]: distinct users of the [signup] rows, by signup month. *)
Definition cohort_sizes (df : DataFrame) : list (Z * nat) :=
  let signups := rows_of_type "signup" df in
  (λ m, (m, nunique (user_id <$> filter (λ e, signup_month e = m) signups)))
    <$> sorted_unique (signup_month <$> signups).

Record activity := {
  a_user : Z;
  a_signup_month : Z;
  a_event_month : Z;
  a_events : nat;
}.

Definition activity_key (e : event) : Z * Z * Z :=
  (user_id e, signup_month e, event_month e).

(** One row per (user, signup month, event month), with its event count. *)
Definition user_activity (df : DataFrame) : list activity :=
  (λ k, {| a_user := k.1.1; a_signup_month := k.1.2; a_event_month := k.2;
           a_events := length (filter (λ e, activity_key e = k) df) |})
    <$> remove_dups (activity_key <$> df).

Definition period (a : activity) : Z := a_event_month a - a_signup_month a.

Definition cohort_key (a : activity) : Z * Z := (a_signup_month a, period a).

(** [cohort_data] before the merge: (signup month, period, active users). *)
Definition cohort_data (df : DataFrame) : list (Z * Z * nat) :=
  let kept := filter (λ a, 0 ≤ period a) (user_activity df) in
  (λ k, (k.1, k.2, nunique (a_user <$> filter (λ a, cohort_key a = k) kept)))
    <$> remove_dups (cohort_key <$> kept).

Record cohort_row := {
  c_signup_month : Z;
  c_period : Z;
  c_active_users : nat;
  c_cohort_size : nat;
  c_retention : float64;
}.

(** The inner join on [signup_month], then the retention column. *)
Definition cohort_merged (df : DataFrame) : list cohort_row :=
  d ← cohort_data df;
  s ← filter (λ s, s.1 = d.1.1) (cohort_sizes df);
  [ {| c_signup_month := d.1.1; c_period := d.1.2;
       c_active_users := d.2; c_cohort_size := s.2;
       c_retention := pct (of_nat d.2) (of_nat s.2) |} ].

Definition fsum (l : list float64) : float64 := foldr fadd (of_int 0) l.

(** The mean of the values of a pivot cell; a cell with no row is missing. *)
Definition fmean (l : list float64) : float64 :=
  match l with
  | [] => NaN
  | _ :: _ => fdiv (fsum l) (of_nat (length l))
  end.

Record cohort_matrix := {
  m_index : list Z;
  m_columns : list Z;
  m_values : list (list float64);
}.

(** [pivot_table(index="signup_month", columns="period", values="retention")].
    Row labels are the cohort months and column labels the periods (shown as
    ["M0"], ["M1"], ...), both ascending. *)
Definition compute_cohort_retention (df : DataFrame) : cohort_matrix :=
  let rows := cohort_merged df in
  let idx := sorted_unique (c_signup_month <$> rows) in
  let cols := sorted_unique (c_period <$> rows) in
  {| m_index := idx;
     m_columns := cols;
     m_values :=
       (λ m, (λ p, fmean (c_retention <$>
                filter (λ r, c_signup_month r = m ∧ c_period r = p) rows)) <$> cols)
         <$> idx |}.

Definition index_of (k : Z) (l : list Z) : option nat :=
  fst <$> list_find (λ x, x = k) l.

(** [matrix.loc[m, "M<p>"]]. *)
Definition cell (M : cohort_matrix) (m p : Z) : option float64 :=
  i ← index_of m (m_index M);
  j ← index_of p (m_columns M);
  row ← m_values M !! i;
  row !! j.

(* ================================================================= *)
(** ** 4. User segmentation (RFM + KMeans) *)

(** A row of the feature matrix: recency, frequency, monetary. *)
Definition point : Type := Qc * Qc * Qc.

(** What the embedding uses of scikit-learn and numpy: a random generator
    that can be built from a seed, the column-wise z-scores of
    [StandardScaler], and the seeded clustering of [KMeans], which returns
    one cluster id per sample and the generator it leaves behind. *)
Class Sklearn := {
  rng : Type;
  RandomState : Z → rng;
  zscore : list point → list point;
  lloyd : rng → nat → nat → list point → list nat * rng;
  zscore_length : ∀ X, length (zscore X) = length X;
  lloyd_length : ∀ g k n X, length (lloyd g k n X).1 = length X;
}.

(** [StandardScaler().fit_transform(X)]: at least one sample is required. *)
Definition StandardScaler_fit_transform `{Sklearn} (X : list point) : result (list point) :=
  match X with
  | [] => Raise ValueError
  | _ :: _ => Ok (zscore X)
  end.

(** [KMeans(n_clusters, random_state, n_init).fit_predict(X)].  An integer
    [random_state] seeds a generator of its own; [None] draws from numpy's
    process-wide generator [global] and advances it. *)
Definition KMeans_fit_predict `{Sklearn} (n_clusters : Z) (random_state : option Z)
    (n_init : nat) (X : list point) (global : rng) : result (list nat) * rng :=
  if decide (n_clusters < 1) then (Raise ValueError, global)
  else if decide (Z.of_nat (length X) < n_clusters) then (Raise ValueError, global)
  else match random_state with
       | Some seed =>
           (Ok (lloyd (RandomState seed) (Z.to_nat n_clusters) n_init X).1, global)
       | None =>
           let r := lloyd global (Z.to_nat n_clusters) n_init X in (Ok r.1, r.2)
       end.

Record rfm_row := {
  r_user : Z;
  recency : Z;
  frequency : nat;
  monetary : Qc;
  segment : nat;
  segment_label : option string;
}.

Definition Qc_sum (l : list Qc) : Qc := foldr Qcplus 0%Qc l.

Definition Qc_mean (l : list Qc) : Qc := (Qc_sum l / Qc_of_Z (Z.of_nat (length l)))%Qc.

(** The aggregation of lines 235-239; every group has a row, so both dates
    of the recency exist. *)
Definition rfm_features (df : DataFrame) : list (Z * (Z * nat * Qc)) :=
  let max_date := series_max (event_date <$> df) in
  (λ g, (g.1,
         (default 0 (days_between max_date (series_max (event_date <$> g.2))),
          length g.2,
          Qc_sum (revenue <$> g.2))))
    <$> groupby_user df.

Definition feature_point (f : Z * nat * Qc) : point :=
  (Qc_of_Z f.1.1, Qc_of_Z (Z.of_nat f.1.2), f.2).

(** [l[:n]] of Python. *)
Definition py_prefix {A} (n : Z) (l : list A) : list A :=
  if decide (0 ≤ n) then take (Z.to_nat n) l
  else take (length l - Z.to_nat (- n)) l.

Definition SEGMENT_NAMES : list string :=
  ["Champions"; "Loyal"; "At-Risk"; "Low-Value"].

(** Descending order on the means; equal means keep their order. *)
Fixpoint insert_desc (x : nat * Qc) (l : list (nat * Qc)) : list (nat * Qc) :=
  match l with
  | [] => [x]
  | y :: l' => if decide (x.2 < y.2)%Qc then y :: insert_desc x l' else x :: l
  end.

Definition sort_desc (l : list (nat * Qc)) : list (nat * Qc) :=
  foldr insert_desc [] l.

Definition sorted_unique_nat (l : list nat) : list nat :=
  merge_sort le (remove_dups l).

(** The cluster ids in the order of
    [groupby("segment")["monetary"].mean().sort_values(ascending=False)]. *)
Definition ranked_segments (rows : list (nat * Qc)) : list nat :=
  fst <$> sort_desc
    ((λ s, (s, Qc_mean (snd <$> filter (λ r, r.1 = s) rows)))
       <$> sorted_unique_nat (fst <$> rows)).

(** The dict [seg_labels] of lines 250-255. *)
Definition seg_labels (n_clusters : Z) (rows : list (nat * Qc)) : list (nat * string) :=
  zip (ranked_segments rows) (py_prefix n_clusters SEGMENT_NAMES).

(** [dict] lookup as [Series.map] does it: a missing key gives no label. *)
Definition dict_get (d : list (nat * string)) (k : nat) : option string :=
  (λ r, r.2.2) <$> list_find (λ kv, kv.1 = k) d.

Definition compute_rfm_segments `{Sklearn} (df : DataFrame) (n_clusters : Z)
    (global : rng) : result (list rfm_row) * rng :=
  let rfm := rfm_features df in
  match StandardScaler_fit_transform (feature_point ∘ snd <$> rfm) with
  | Raise e => (Raise e, global)
  | Ok rfm_scaled =>
      let km := KMeans_fit_predict n_clusters (Some 42) 10 rfm_scaled global in
      match km.1 with
      | Raise e => (Raise e, km.2)
      | Ok labels =>
          let d := seg_labels n_clusters (zip labels ((λ r, r.2.2) <$> rfm)) in
          (Ok (zip_with (λ r s, {| r_user := r.1;
                                   recency := r.2.1.1;
                                   frequency := r.2.1.2;
                                   monetary := r.2.2;
                                   segment := s;
                                   segment_label := dict_get d s |})
                        rfm labels),
           km.2)
      end
  end.

(* ================================================================= *)
(** ** 5. A/B testing *)

(** What the embedding uses of scipy: the survival function of the
    chi-square distribution. *)
Class Scipy := {
  chi2_sf : float64 → Z → float64;
}.

Definition fabs (x : float64) : float64 :=
  match x with
  | Fin q => if decide (Qc_sgn q < 0) then Fin (- q)%Qc else x
  | NegInf => PosInf
  | _ => x
  end.

Definition fsign (x : float64) : float64 :=
  match x with
  | Fin q => of_int (Qc_sgn q)
  | PosInf => of_int 1
  | NegInf => of_int (-1)
  | NaN => NaN
  end.

(** [numpy.minimum]: a [NaN] operand gives [NaN]. *)
Definition fminimum (x y : float64) : float64 :=
  match x, y with
  | NaN, _ | _, NaN => NaN
  | _, _ => if fltb y x then y else x
  end.

Definition half : float64 := Fin (Q2Qc (1 # 2)).

(** [scipy.stats.chi2_contingency] on a 2x2 table [[a, b], [c, d]], with the
    default continuity correction.  Returns the statistic, the p-value and
    the degrees of freedom. *)
Definition chi2_contingency `{Scipy} (a b c d : Z) : result (float64 * float64 * Z) :=
  if bool_decide (a < 0 ∨ b < 0 ∨ c < 0 ∨ d < 0) then Raise ValueError
  else
    let total := of_int (a + b + c + d) in
    let expected :=
      [ fdiv (of_int ((a + b) * (a + c))) total;
        fdiv (of_int ((a + b) * (b + d))) total;
        fdiv (of_int ((c + d) * (a + c))) total;
        fdiv (of_int ((c + d) * (b + d))) total ] in
    if existsb (λ e, feqb e (of_int 0)) expected then Raise ValueError
    else
      let observed := of_int <$> [a; b; c; d] in
      let corrected :=
        zip_with (λ o e, let diff := fsub e o in
                         fadd o (fmul (fminimum half (fabs diff)) (fsign diff)))
                 observed expected in
      let terms :=
        zip_with (λ o e, fdiv (fmul (fsub o e) (fsub o e)) e) corrected expected in
      let stat := fsum terms in
      Ok (stat, chi2_sf stat 1, 1).

Record ab_result := {
  group_a_users : nat;
  group_b_users : nat;
  group_a_conversions : Z;
  group_b_conversions : Z;
  rate_a : float64;
  rate_b : float64;
  lift_pct : float64;
  chi2 : float64;
  p_value : float64;
  significant : bool;
}.

(** One row per (user, experiment group): 1 when one of its events is a
    purchase. *)
Definition ab_frame (df : DataFrame) : list (Z * string * Z) :=
  (λ k, (k, if bool_decide ("purchase" ∈ event_type <$>
                   filter (λ e, (user_id e, experiment_group e) = k) df)
            then 1 else 0))
    <$> remove_dups ((λ e, (user_id e, experiment_group e)) <$> df).

Definition ab_group (g : string) (ab : list (Z * string * Z)) : list (Z * string * Z) :=
  filter (λ r, r.1.2 = g) ab.

Definition Z_sum (l : list Z) : Z := foldr Z.add 0 l.

(** Lines 272-306.  The counts are numpy integers, so the two rates and the
    lift are numpy divisions: they never raise.  (On a frame without any row
    the type pandas gives the aggregated column decides how [0 / 0] ends; no
    statement below is about that frame.) *)
Definition compute_ab_test `{Scipy} (df : DataFrame) : result ab_result :=
  let ab := ab_frame df in
  let group_a := ab_group "A" ab in
  let group_b := ab_group "B" ab in
  let conv_a := Z_sum (snd <$> group_a) in
  let conv_b := Z_sum (snd <$> group_b) in
  let n_a := length group_a in
  let n_b := length group_b in
  let ra := np_truediv conv_a (Z.of_nat n_a) in
  let rb := np_truediv conv_b (Z.of_nat n_b) in
  let lift := fmul (fdiv (fsub rb ra) ra) (of_int 100) in
  t ←r chi2_contingency conv_a (Z.of_nat n_a - conv_a) conv_b (Z.of_nat n_b - conv_b);
  Ok {| group_a_users := n_a;
        group_b_users := n_b;
        group_a_conversions := conv_a;
        group_b_conversions := conv_b;
        rate_a := fmul ra (of_int 100);
        rate_b := fmul rb (of_int 100);
        lift_pct := lift;
        chi2 := t.1.1;
        p_value := t.1.2;
        significant := fltb t.1.2 (Fin (Q2Qc (5 # 100))) |}.

(* ================================================================= *)
(** ** Reference instances of the library interfaces

    Executable stand-ins with the shape of the library routines, used to run
    the functions above on concrete frames.  Every general statement below
    is proved for all instances. *)

(** *** Clustering: z-scores and Lloyd's iteration *)

(** Square root to four decimals. *)
Definition Qc_sqrt (q : Qc) : Qc :=
  Q2Qc (Qmake (Z.sqrt ((Qnum (this q) * 10 ^ 8) `div` Z.pos (Qden (this q))))
              (10 ^ 4)%positive).

(** The nearest multiple of [1/10000]. *)
Definition Qc_round4 (q : Qc) : Qc :=
  (Qc_of_Z (rint (q * Qc_of_Z 10000)) / Qc_of_Z 10000)%Qc.

Definition scale_column (col : list Qc) : list Qc :=
  let mu := Qc_mean col in
  let var := Qc_mean ((λ x, (x - mu) * (x - mu))%Qc <$> col) in
  let sd := Qc_sqrt var in
  let sd' := if decide (sd = 0%Qc) then 1%Qc else sd in
  (λ x, Qc_round4 ((x - mu) / sd')) <$> col.

Definition ref_zscore (X : list point) : list point :=
  zip (zip (scale_column ((λ p, p.1.1) <$> X)) (scale_column ((λ p, p.1.2) <$> X)))
      (scale_column (snd <$> X)).

Definition sqdist (p q : point) : Qc :=
  ((p.1.1 - q.1.1) * (p.1.1 - q.1.1) + (p.1.2 - q.1.2) * (p.1.2 - q.1.2)
   + (p.2 - q.2) * (p.2 - q.2))%Qc.

Fixpoint nearest_from (best : nat) (bd : Qc) (i : nat) (cs : list point) (p : point) : nat :=
  match cs with
  | [] => best
  | c :: cs' =>
      if decide (sqdist p c < bd)%Qc then nearest_from i (sqdist p c) (S i) cs' p
      else nearest_from best bd (S i) cs' p
  end.

Definition nearest (cs : list point) (p : point) : nat :=
  match cs with
  | [] => 0%nat
  | c :: cs' => nearest_from 0 (sqdist p c) 1 cs' p
  end.

Definition centre_of (old : point) (ms : list point) : point :=
  match ms with
  | [] => old
  | _ :: _ => (Qc_mean ((λ p, p.1.1) <$> ms), Qc_mean ((λ p, p.1.2) <$> ms),
               Qc_mean (snd <$> ms))
  end.

Definition recentre (cs X : list point) : list point :=
  imap (λ j c, centre_of c (filter (λ p, nearest cs p = j) X)) cs.

Fixpoint lloyd_steps (fuel : nat) (cs X : list point) : list point :=
  match fuel with
  | O => cs
  | S fuel' =>
      let cs' := recentre cs X in
      if decide (cs' = cs) then cs else lloyd_steps fuel' cs' X
  end.

Definition inertia (cs X : list point) : Qc :=
  Qc_sum ((λ p, from_option (sqdist p) 0%Qc (cs !! nearest cs p)) <$> X).

(** A linear congruential generator. *)
Definition lcg_next (g : Z) : Z := (1103515245 * g + 12345) `mod` 2 ^ 31.

Fixpoint pick_centres (k : nat) (g : Z) (pool : list point) : list point * Z :=
  match k with
  | O => ([], g)
  | S k' =>
      match pool with
      | [] => ([], g)
      | _ :: _ =>
          let g' := lcg_next g in
          let i := Z.to_nat ((g' `div` 65536) `mod` Z.of_nat (length pool)) in
          match pool !! i with
          | None => ([], g')
          | Some c =>
              let r := pick_centres k' g' (delete i pool) in (c :: r.1, r.2)
          end
      end
  end.

Fixpoint best_of (n_init : nat) (k : nat) (g : Z) (X : list point)
    (best : list point) : list point * Z :=
  match n_init with
  | O => (best, g)
  | S n' =>
      let start := pick_centres k g X in
      let cs := lloyd_steps 300 start.1 X in
      let best' :=
        match best with
        | [] => cs
        | _ :: _ => if decide (inertia cs X < inertia best X)%Qc then cs else best
        end in
      best_of n' k start.2 X best'
  end.

Definition ref_lloyd (g : Z) (k n_init : nat) (X : list point) : list nat * Z :=
  let r := best_of n_init k g X [] in (nearest r.1 <$> X, r.2).

Global Program Instance ref_sklearn : Sklearn := {|
  rng := Z;
  RandomState := λ seed, seed;
  zscore := ref_zscore;
  lloyd := ref_lloyd;
|}.
Next Obligation.
  intros X. unfold ref_zscore, scale_column.
  rewrite !length_zip_with, !length_fmap. by rewrite !Nat.min_id.
Qed.
Next Obligation. intros. unfold ref_lloyd. simpl. by rewrite length_fmap. Qed.

(** *** Chi-square survival function for one degree of freedom

    [sf(x) = erfc(sqrt(x/2))], with the five-term rational approximation of
    [erfc] and fixed-point arithmetic at twelve decimals. *)
Definition fx : Z := 10 ^ 12.

Definition fx_mul (a b : Z) : Z := (a * b) `div` fx.

(** [exp(-f)] for [0 <= f < 1], by its series. *)
Fixpoint exp_neg_series (n : nat) (k : Z) (term f : Z) : Z :=
  match n with
  | O => 0
  | S n' => term + exp_neg_series n' (k + 1) ((- fx_mul term f) `div` k) f
  end.

Definition exp_neg (y : Z) : Z :=
  let n := y `div` fx in
  let f := y - n * fx in
  if decide (60 < n) then 0
  else Nat.iter (Z.to_nat n) (λ v, fx_mul v 367879441171) (exp_neg_series 30 1 fx f).

Definition erfc_fx (z : Z) : Z :=
  let t := (fx * fx) `div` (fx + fx_mul 327591100000 z) in
  let poly :=
    fx_mul t (254829592000 + fx_mul t (-284496736000 + fx_mul t (1421413741000
      + fx_mul t (-1453152027000 + fx_mul t 1061405429000)))) in
  fx_mul poly (exp_neg (fx_mul z z)).

Definition ref_chi2_sf (x : float64) (dof : Z) : float64 :=
  if decide (dof = 1) then
    match x with
    | Fin q =>
        if decide (Qc_sgn q < 0) then of_int 1
        else
          let half_x := (Qnum (this q) * fx * fx) `div` (2 * Z.pos (Qden (this q))) in
          Fin (Q2Qc (Qmake (erfc_fx (Z.sqrt half_x)) (10 ^ 12)%positive))
    | PosInf => of_int 0
    | NegInf => of_int 1
    | NaN => NaN
    end
  else NaN.

Global Instance ref_scipy : Scipy := {| chi2_sf := ref_chi2_sf |}.

(* ================================================================= *)
(** ** The caller in dashboard.py *)


(* ================================================================= *)
(** ** Vocabulary of the statements

    The quantities the specification names, written from its words over the
    distinct users of a frame; the properties below relate them to what the
    functions compute. *)

Definition users_of (df : DataFrame) : list Z := remove_dups (user_id <$> df).

(** The user has at least one event of the given type. *)
Definition has_event (df : DataFrame) (s : string) (u : Z) : Prop :=
  Exists (λ e, user_id e = u ∧ event_type e = s) df.

Global Instance has_event_dec df s u : Decision (has_event df s u).
Proof. unfold has_event. apply _. Defined.

(** Reach in the words of the specification: among the distinct users of
    the collection, how many have an event of the type anywhere. *)
Definition reach_any_occurrence (df : DataFrame) (s : string) : nat :=
  length (filter (has_event df s) (remove_dups (user_id <$> df))).


(** The event dates of a user, and the days from the first to the last. *)
Definition user_dates (df : DataFrame) (u : Z) : list date :=
  event_date <$> rows_of_user u df.

Definition user_gap (df : DataFrame) (u : Z) : option Z :=
  days_between (series_max (user_dates df u)) (series_min (user_dates df u)).

Definition retained (df : DataFrame) (days : Z) (u : Z) : Prop :=
  ge_days (user_gap df u) days = true.

Global Instance retained_dec df days u : Decision (retained df days u).
Proof. unfold retained. apply _. Defined.

Definition retained_users (df : DataFrame) (days : Z) : list Z :=
  filter (retained df days) (users_of df).

(** The reference date of the churn rate, and the users it leaves behind. *)
Definition reference_date (df : DataFrame) : option date :=
  series_max (event_date <$> df).

Definition user_last (df : DataFrame) (u : Z) : option date :=
  series_max (user_dates df u).

Definition churned (df : DataFrame) (inactive_days : Z) (u : Z) : Prop :=
  ge_days (days_between (reference_date df) (user_last df u)) inactive_days = true.

Global Instance churned_dec df n u : Decision (churned df n u).
Proof. unfold churned. apply _. Defined.

Definition churned_users (df : DataFrame) (inactive_days : Z) : list Z :=
  filter (churned df inactive_days) (users_of df).

(** The invariants of the data model: every user has a signup event, and
    the signup date of a row is the least event date of its user. *)
Definition every_user_signs_up (df : DataFrame) : Prop :=
  ∀ e, e ∈ df → ∃ s, s ∈ df ∧ user_id s = user_id e ∧ event_type s = "signup".

Definition signup_date_is_first (df : DataFrame) : Prop :=
  ∀ e, e ∈ df → series_min (user_dates df (user_id e)) = Some (signup_date e).

(** The users counted in the size of a cohort, and in one of its cells. *)
Definition cohort_signups (df : DataFrame) (m : Z) : list Z :=
  user_id <$> filter (λ e, signup_month e = m) (rows_of_type "signup" df).

Definition cohort_active (df : DataFrame) (m p : Z) : list Z :=
  a_user <$> filter (λ a, cohort_key a = (m, p))
                    (filter (λ a, 0 ≤ period a) (user_activity df)).

(** Size and conversions of an experiment group. *)
Definition ab_size (df : DataFrame) (g : string) : nat :=
  length (ab_group g (ab_frame df)).

Definition ab_conversions (df : DataFrame) (g : string) : Z :=
  Z_sum (snd <$> ab_group g (ab_frame df)).

(* ================================================================= *)
(** ** Concrete frames *)

Definition mk_event (u : Z) (d : date) (t : string) (rev : Z) (g : string)
    (first : date) : event :=
  {| user_id := u; event_date := d; event_type := t; revenue := Qc_of_Z rev;
     device_type := "desktop"; acquisition_channel := "organic";
     experiment_group := g; signup_date := first |}.

(** Scenario A of the specification: three users, each with a signup only,
    on the same day. *)
Definition three_users : DataFrame :=
  [ mk_event 1 10 "signup" 0 "A" 10;
    mk_event 2 10 "signup" 0 "B" 10;
    mk_event 3 10 "signup" 0 "A" 10 ].

(** Scenario B of the specification: two users, one of them purchasing. *)
Definition scenario_B : DataFrame :=
  [ mk_event 1 0 "signup" 0 "A" 0; mk_event 1 2 "purchase" 100 "A" 0;
    mk_event 2 0 "signup" 0 "B" 0 ].


(** Scenario D of the specification: 100 users with 20 conversions in group
    A, 100 users with 30 conversions in group B. *)
Definition scenario_D : DataFrame :=
  flat_map (λ i : nat,
      let u := Z.of_nat i in
      let g := if decide (i < 100)%nat then "A" else "B" in
      let converted :=
        if decide (i < 100)%nat then bool_decide (i < 20)%nat
        else bool_decide (i < 130)%nat in
      mk_event u 0 "signup" 0 g 0
        :: (if converted then [mk_event u 3 "purchase" 25 g 0] else []))
    (seq 0 200).

(** A control group without conversion: one user in group A with a signup
    only, one user in group B with a purchase. *)
Definition ab_zero_control : DataFrame :=
  [ mk_event 1 0 "signup" 0 "A" 0;
    mk_event 2 0 "signup" 0 "B" 0; mk_event 2 2 "purchase" 50 "B" 0 ].

(** Two users signed up in January 2023, one of them back in February; one
    user signed up in March 2023. *)
Definition cohort_example : DataFrame :=
  [ mk_event 1 (days_from_civil 2023 1 5) "signup" 0 "A" (days_from_civil 2023 1 5);
    mk_event 1 (days_from_civil 2023 2 2) "login" 0 "A" (days_from_civil 2023 1 5);
    mk_event 2 (days_from_civil 2023 1 20) "signup" 0 "B" (days_from_civil 2023 1 20);
    mk_event 2 (days_from_civil 2023 1 22) "purchase" 40 "B" (days_from_civil 2023 1 20);
    mk_event 3 (days_from_civil 2023 3 9) "signup" 0 "A" (days_from_civil 2023 3 9) ].

(** Six users with distinct spending, for a run with five clusters. *)
Definition six_users : DataFrame :=
  [ mk_event 1 10 "signup" 0 "A" 10; mk_event 1 11 "purchase" 500 "A" 10;
    mk_event 2 10 "signup" 0 "B" 10; mk_event 2 40 "purchase" 100 "B" 10;
    mk_event 3 50 "signup" 0 "B" 50;
    mk_event 4 90 "signup" 0 "A" 90; mk_event 4 91 "login" 0 "A" 90;
    mk_event 4 92 "purchase" 20 "A" 90;
    mk_event 5 100 "signup" 0 "A" 100; mk_event 5 100 "purchase" 1 "A" 100;
    mk_event 6 100 "signup" 0 "A" 100 ].

(** Two points far apart, for the clustering alone. *)
Definition two_points : list point :=
  [ (Qc_of_Z 0, Qc_of_Z 0, Qc_of_Z 0); (Qc_of_Z 10, Qc_of_Z 10, Qc_of_Z 10) ].


(* ================================================================= *)
(** ** The other KPI functions of analytics.py *)

(** [compute_dau], lines 22-31: distinct users per event date, dates
    ascending. *)
Definition compute_dau (df : DataFrame) : list (date * nat) :=
  (λ d, (d, nunique (user_id <$> filter (λ e, event_date e = d) df)))
    <$> sorted_unique (event_date <$> df).

(** [compute_mau], lines 34-45: distinct users per calendar month. *)
Definition compute_mau (df : DataFrame) : list (Z * nat) :=
  (λ m, (m, nunique (user_id <$> filter (λ e, event_month e = m) df)))
    <$> sorted_unique (event_month <$> df).


(** The sum of the [revenue] column of the purchase rows, a float64. *)
Definition total_revenue (df : DataFrame) : float64 :=
  Fin (Qc_sum (revenue <$> rows_of_type "purchase" df)).

(** [compute_arpu], lines 103-110: a numpy float over a Python int. *)
Definition compute_arpu (df : DataFrame) : float64 :=
  fdiv (total_revenue df) (of_nat (nunique (user_id <$> df))).

Record kpi_summary := {
  kpi_total_users : nat;
  kpi_total_revenue : float64;
  kpi_conversion_rate : float64;
  kpi_retention_rate : float64;
  kpi_churn_rate : float64;
  kpi_arpu : float64;
  kpi_total_events : nat;
}.

(** [get_kpi_summary], lines 113-123: the dict is built entry by entry, with
    the default horizons of 30 and 60 days. *)
Definition get_kpi_summary (df : DataFrame) : result kpi_summary :=
  let users := nunique (user_id <$> df) in
  let revenue := total_revenue df in
  conversion ←r compute_conversion_rate df;
  Ok {| kpi_total_users := users;
        kpi_total_revenue := revenue;
        kpi_conversion_rate := conversion;
        kpi_retention_rate := compute_retention_rate df 30;
        kpi_churn_rate := compute_churn_rate df 60;
        kpi_arpu := compute_arpu df;
        kpi_total_events := length df |}.

(* ================================================================= *)
(** ** The filters of dashboard.py *)

(** Python's [sorted] on strings. *)
Definition sorted_strings (l : list string) : list string :=
  merge_sort (λ a b, String.leb a b) l.

(** The selections the sidebar starts from, lines 295-315: the whole date
    range, every channel and every device of the frame. *)
Definition default_date_range (raw_df : DataFrame) : option (date * date) :=
  lo ← series_min (event_date <$> raw_df);
  hi ← series_max (event_date <$> raw_df);
  Some (lo, hi).

Definition channels_available (raw_df : DataFrame) : list string :=
  sorted_strings (remove_dups (acquisition_channel <$> raw_df)).

Definition devices_available (raw_df : DataFrame) : list string :=
  sorted_strings (remove_dups (device_type <$> raw_df)).

(** The mask of lines 345-350. *)
Definition apply_filters (raw_df : DataFrame) (start_date end_date : date)
    (channels_sel devices_sel : list string) : DataFrame :=
  filter (λ e, start_date ≤ event_date e ∧ event_date e ≤ end_date
               ∧ acquisition_channel e ∈ channels_sel
               ∧ device_type e ∈ devices_sel) raw_df.

(* ================================================================= *)
(** ** Vocabulary of the further statements *)

(** [a / b * 100] as an exact number. *)
Definition rate (a b : Z) : Qc := (Qc_of_Z a / Qc_of_Z b * Qc_of_Z 100)%Qc.

(** The distinct users that have at least one event satisfying [P]. *)
Definition users_where (P : event → Prop) `{∀ e, Decision (P e)}
    (df : DataFrame) : list Z :=
  filter (λ u, Exists (λ e, user_id e = u ∧ P e) df) (users_of df).


(** The mean monetary value of a cluster of the segmentation. *)
Definition segment_mean (rows : list rfm_row) (s : nat) : Qc :=
  Qc_mean (monetary <$> filter (λ r, segment r = s) rows).

(** Line 343: the two ends picked in the date widget, or the whole range
    while the widget holds anything else than two dates. *)
Definition selected_range (date_range : list date) (min_date max_date : date)
    : date * date :=
  match date_range with
  | [a; b] => (a, b)
  | _ => (min_date, max_date)
  end.

(** The frame every tab works on, and the KPI cards built from it at the top
    of the page, lines 343-373; no handler surrounds the call. *)
Definition filtered_frame (raw_df : DataFrame) (date_range : list date)
    (min_date max_date : date) (channels_sel devices_sel : list string) : DataFrame :=
  let r := selected_range date_range min_date max_date in
  apply_filters raw_df r.1 r.2 channels_sel devices_sel.

Definition kpi_cards (raw_df : DataFrame) (date_range : list date)
    (min_date max_date : date) (channels_sel devices_sel : list string)
    : result kpi_summary :=
  get_kpi_summary
    (filtered_frame raw_df date_range min_date max_date channels_sel devices_sel).

(* ================================================================= *)
(** ** The data generator, data_generator.py *)

(** What the generator uses of [numpy.random]: draws from the process-wide
    generator, each returning the state it leaves.  [randint low high] is
    only called with [low < high] below, except in [_random_date], where the
    check numpy makes is written out. *)
Class NumpyRandom := {
  rstate : Type;
  randint : Z → Z → rstate → Z * rstate;
  random : rstate → Qc * rstate;
  lognormal : Qc → Qc → rstate → Qc * rstate;
  choice : list string → option (list Qc) → rstate → string * rstate;
  randint_range : ∀ lo hi g, lo < hi → lo ≤ (randint lo hi g).1 < hi;
  random_range : ∀ g, (0 ≤ (random g).1)%Qc ∧ ((random g).1 < 1)%Qc;
  lognormal_pos : ∀ mean sigma g, (0 < (lognormal mean sigma g).1)%Qc;
  choice_elem : ∀ l p g, l ≠ [] → (choice l p g).1 ∈ l;
}.

(** A decimal constant. *)
Definition dec (n : Z) (d : positive) : Qc := Q2Qc (n # d).

Definition N_USERS : Z := 20000.
Definition START_DATE : date := days_from_civil 2023 1 1.
Definition END_DATE : date := days_from_civil 2024 6 30.
Definition DATE_RANGE : Z := END_DATE - START_DATE.

Definition CHANNELS : list string :=
  ["organic"; "paid_search"; "social"; "email"; "referral"].
Definition CHANNEL_W : list Qc :=
  [dec 30 100; dec 25 100; dec 20 100; dec 15 100; dec 10 100].

Definition DEVICES : list string := ["desktop"; "mobile"; "tablet"].
Definition DEVICE_W : list Qc := [dec 45 100; dec 42 100; dec 13 100].

Definition FUNNEL_PROBS : list (string * Qc) :=
  [ ("login", dec 82 100); ("view_product", dec 70 100);
    ("add_to_cart", dec 45 100); ("purchase", dec 38 100) ].

Definition CHANNEL_MULT : list (string * Qc) :=
  [ ("organic", dec 120 100); ("paid_search", dec 95 100);
    ("social", dec 85 100); ("email", dec 110 100); ("referral", dec 115 100) ].

Definition DEVICE_MULT : list (string * Qc) :=
  [ ("desktop", dec 115 100); ("mobile", dec 88 100); ("tablet", dec 97 100) ].

(** [d[k]] on a dict with string keys. *)
Definition dict_lookup (d : list (string * Qc)) (k : string) : result Qc :=
  match list_find (λ kv, kv.1 = k) d with
  | Some r => Ok r.2.2
  | None => Raise KeyError
  end.

(** Python's [min] of two numbers: the first of the smallest. *)
Definition py_min (a b : Qc) : Qc := if decide (b < a)%Qc then b else a.

(** [_random_date], lines 61-63. *)
Definition _random_date `{NumpyRandom} (start end_ : date) (g : rstate)
    : result (date * rstate) :=
  let delta := end_ - start in
  if decide (delta ≤ 0) then Raise ValueError
  else let r := randint 0 delta g in Ok (start + r.1, r.2).

(** A row of the users frame and a row of the events frame as
    [generate_events] builds it, before [load_data] adds the signup date. *)
Record user_row := {
  u_user_id : Z;
  u_signup_date : date;
  u_acquisition_channel : string;
  u_device_type : string;
  u_experiment_group : string;
}.

Record record := {
  rec_user_id : Z;
  rec_event_date : date;
  rec_event_type : string;
  rec_revenue : Qc;
  rec_device_type : string;
  rec_acquisition_channel : string;
  rec_experiment_group : string;
}.

Global Instance user_row_eq_dec : EqDecision user_row.
Proof. solve_decision. Defined.

Global Instance record_eq_dec : EqDecision record.
Proof. solve_decision. Defined.

(** [n] successive draws. *)
Fixpoint draws {S A} (draw : S → A * S) (n : nat) (g : S) : list A * S :=
  match n with
  | O => ([], g)
  | S n' =>
      let r := draw g in
      let rs := draws draw n' r.2 in
      (r.1 :: rs.1, rs.2)
  end.

(** The frame of [generate_users], lines 66-86, for [n] users: the ids
    [1..n], then one array of draws per column. *)
Definition users_frame `{NumpyRandom} (n : nat) (g : rstate) : list user_row * rstate :=
  let user_ids := Z.of_nat <$> seq 1 n in
  let ds := draws (randint 0 DATE_RANGE) n g in
  let signup_dates := (λ d, START_DATE + d) <$> ds.1 in
  let channels := draws (choice CHANNELS (Some CHANNEL_W)) n ds.2 in
  let devices := draws (choice DEVICES (Some DEVICE_W)) n channels.2 in
  let ab_groups := draws (choice ["A"; "B"] None) n devices.2 in
  (zip_with (λ r ab, {| u_user_id := r.1.1.1;
                        u_signup_date := r.1.1.2;
                        u_acquisition_channel := r.1.2;
                        u_device_type := r.2;
                        u_experiment_group := ab |})
            (zip (zip (zip user_ids signup_dates) channels.1) devices.1)
            ab_groups.1,
   ab_groups.2).

Definition generate_users `{NumpyRandom} (g : rstate) : list user_row * rstate :=
  users_frame (Z.to_nat N_USERS) g.

Definition mk_record (u : user_row) (d : date) (t : string) (rev : Qc) : record :=
  {| rec_user_id := u_user_id u;
     rec_event_date := d;
     rec_event_type := t;
     rec_revenue := rev;
     rec_device_type := u_device_type u;
     rec_acquisition_channel := u_acquisition_channel u;
     rec_experiment_group := u_experiment_group u |}.

(** The loop over the funnel steps of one user, lines 127-154; both [break]s
    end the loop. *)
Fixpoint funnel_loop `{NumpyRandom} (u : user_row) (base_mult ab_mult : Qc)
    (funnel : list string) (event_date : date) (g : rstate)
    : result (list record * rstate) :=
  match funnel with
  | [] => Ok ([], g)
  | step :: rest =>
      p ←r dict_lookup FUNNEL_PROBS step;
      let prob := (p * base_mult)%Qc in
      let prob := if decide (step = "purchase") then (prob * ab_mult)%Qc else prob in
      let prob := py_min prob (dec 98 100) in
      let x := random g in
      if decide (x.1 < prob)%Qc then
        let k := randint 0 4 x.2 in
        let event_date := event_date + k.1 in
        if decide (END_DATE < event_date) then Ok ([], k.2)
        else
          let rev :=
            if decide (step = "purchase")
            then lognormal (dec 39 10) (dec 8 10) k.2
            else (0%Qc, k.2) in
          r ←r funnel_loop u base_mult ab_mult rest event_date rev.2;
          Ok (mk_record u event_date step rev.1 :: r.1, r.2)
      else Ok ([], x.2)
  end.

(** The body of the loop over the users, lines 103-154. *)
Definition user_records `{NumpyRandom} (u : user_row) (g : rstate)
    : result (list record * rstate) :=
  let signup_record := mk_record u (u_signup_date u) "signup" 0%Qc in
  cm ←r dict_lookup CHANNEL_MULT (u_acquisition_channel u);
  dm ←r dict_lookup DEVICE_MULT (u_device_type u);
  let base_mult := (cm * dm)%Qc in
  let ab_mult := if decide (u_experiment_group u = "B") then dec 110 100 else 1%Qc in
  let d := randint 1 3 g in
  let event_date := u_signup_date u + d.1 in
  r ←r funnel_loop u base_mult ab_mult
         ["login"; "view_product"; "add_to_cart"; "purchase"] event_date d.2;
  Ok (signup_record :: r.1, r.2).

(** [generate_events], lines 89-156. *)
Fixpoint generate_events `{NumpyRandom} (users : list user_row) (g : rstate)
    : result (list record * rstate) :=
  match users with
  | [] => Ok ([], g)
  | u :: rest =>
      r ←r user_records u g;
      rs ←r generate_events rest r.2;
      Ok (r.1 ++ rs.1, rs.2)
  end.

(** Line 169: the least event date of the rows of the same user, on every
    row.  A frame built from no record has no column to group by. *)
Definition with_signup_date (events : list record) (r : record) : event :=
  {| user_id := rec_user_id r;
     event_date := rec_event_date r;
     event_type := rec_event_type r;
     revenue := rec_revenue r;
     device_type := rec_device_type r;
     acquisition_channel := rec_acquisition_channel r;
     experiment_group := rec_experiment_group r;
     signup_date :=
       default 0 (series_min (rec_event_date <$>
         filter (λ r', rec_user_id r' = rec_user_id r) events)) |}.

Definition add_signup_date (events : list record) : result DataFrame :=
  match events with
  | [] => Raise KeyError
  | _ :: _ => Ok (with_signup_date events <$> events)
  end.

(** [load_data], lines 159-171, for a users frame. *)
Definition load_events `{NumpyRandom} (users : list user_row) (g : rstate)
    : result (DataFrame * rstate) :=
  r ←r generate_events users g;
  df ←r add_signup_date r.1;
  Ok (df, r.2).

Definition load_data `{NumpyRandom} (g : rstate) : result (DataFrame * rstate) :=
  let users := generate_users g in
  load_events users.1 users.2.

(** *** A reference instance of the random draws *)

Definition ref_randint (lo hi : Z) (g : Z) : Z * Z :=
  let g' := lcg_next g in
  (lo + (g' `div` 65536) `mod` Z.max 1 (hi - lo), g').

Definition ref_random (g : Z) : Qc * Z :=
  let g' := lcg_next g in
  (Q2Qc (((g' `div` 65536) `mod` 1000) # 1000), g').

Definition ref_lognormal (mean sigma : Qc) (g : Z) : Qc * Z :=
  let g' := lcg_next g in
  (Qc_of_Z (1 + (g' `div` 65536) `mod` 200), g').

Definition ref_choice (l : list string) (p : option (list Qc)) (g : Z) : string * Z :=
  let g' := lcg_next g in
  (default (default "" (head l))
     (l !! Z.to_nat ((g' `div` 65536) `mod` Z.max 1 (Z.of_nat (length l)))),
   g').

Global Program Instance ref_numpy : NumpyRandom := {|
  rstate := Z;
  randint := ref_randint;
  random := ref_random;
  lognormal := ref_lognormal;
  choice := ref_choice;
|}.
Next Obligation.
  intros lo hi g Hlt. unfold ref_randint. cbn [fst].
  pose proof (Z.mod_pos_bound (lcg_next g `div` 65536) (Z.max 1 (hi - lo))). lia.
Qed.
Next Obligation.
  intros g. unfold ref_random. cbn [fst].
  pose proof (Z.mod_pos_bound (lcg_next g `div` 65536) 1000 ltac:(lia)) as Hm.
  unfold Qcle, Qclt. cbn [this Q2Qc]. rewrite !Qred_correct.
  unfold Qle, Qlt. simpl. lia.
Qed.
Next Obligation.
  intros mean sigma g. unfold ref_lognormal. cbn [fst].
  pose proof (Z.mod_pos_bound (lcg_next g `div` 65536) 200 ltac:(lia)) as Hm.
  rewrite <- Z2Qc_inj_0, <- Z2Qc_inj_lt. lia.
Qed.
Next Obligation.
  intros l p g Hne. unfold ref_choice. cbn [fst].
  destruct l as [|x l]; [done |].
  pose proof (Z.mod_pos_bound (lcg_next g `div` 65536)
                (Z.max 1 (Z.of_nat (length (x :: l)))) ltac:(lia)) as Hm.
  destruct ((x :: l) !! _) as [y|] eqn:Hy.
  - simpl. by eapply list_elem_of_lookup_2.
  - apply lookup_ge_None in Hy. cbn [length] in *. lia.
Qed.

(** What every record generated for a user carries: the attributes of the
    user, and a revenue that is positive on a purchase and zero elsewhere. *)
Definition record_of_user (u : user_row) (r : record) : Prop :=
  rec_user_id r = u_user_id u
  ∧ rec_device_type r = u_device_type u
  ∧ rec_acquisition_channel r = u_acquisition_channel u
  ∧ rec_experiment_group r = u_experiment_group u
  ∧ (rec_event_type r = "purchase" → (0 < rec_revenue r)%Qc)
  ∧ (rec_event_type r ≠ "purchase" → rec_revenue r = 0%Qc).

(** The attributes of a user row are among the configured ones. *)
Definition known_attributes (u : user_row) : Prop :=
  u_acquisition_channel u ∈ CHANNELS ∧ u_device_type u ∈ DEVICES.

Global Instance known_attributes_dec u : Decision (known_attributes u).
Proof. unfold known_attributes. apply _. Defined.

Global Instance event_eq_dec : EqDecision event.
Proof. solve_decision. Defined.

(** Three users drawn with the reference instance, the records generated
    for them and the frame built from the records. *)
Definition sample_users : list user_row * Z := @users_frame ref_numpy 3 7.

Definition sample_user : user_row :=
  {| u_user_id := 1; u_signup_date := 19812; u_acquisition_channel := "referral";
     u_device_type := "desktop"; u_experiment_group := "B" |}.

Definition sample_records : list record * Z :=
  match @generate_events ref_numpy sample_users.1 sample_users.2 with
  | Ok r => r
  | Raise _ => ([], 0)
  end.

Definition sample_frame : DataFrame * Z :=
  match @load_events ref_numpy sample_users.1 sample_users.2 with
  | Ok r => r
  | Raise _ => ([], 0)
  end.

(** Closed equalities between computed values are decided by evaluation. *)
Ltac by_evaluation := apply (bool_decide_unpack _); vm_compute; exact I.

(* ================================================================= *)
(** * Properties *)

(** ** Distinct counts *)

Lemma nunique_ext {A} `{EqDecision A} (l k : list A) :
  (∀ x, x ∈ l ↔ x ∈ k) → nunique l = nunique k.
Proof.
  intros Hlk. unfold nunique. apply Permutation_length.
  apply NoDup_Permutation; try apply NoDup_remove_dups.
  intros x. rewrite !elem_of_remove_dups. apply Hlk.
Qed.

Lemma nunique_NoDup_ext {A} `{EqDecision A} (l k : list A) :
  NoDup k → (∀ x, x ∈ l ↔ x ∈ k) → nunique l = length k.
Proof.
  intros Hk Hlk. unfold nunique. apply Permutation_length.
  apply NoDup_Permutation; [apply NoDup_remove_dups | done |].
  intros x. rewrite elem_of_remove_dups. apply Hlk.
Qed.

Lemma nunique_zero {A} `{EqDecision A} (l : list A) :
  nunique l = 0%nat ↔ l = [].
Proof.
  unfold nunique. split; [| by intros ->].
  intros Hlen. apply nil_length_inv in Hlen.
  destruct l as [|x l]; [done |].
  assert (x ∈ remove_dups (x :: l)) as Hx
    by (apply elem_of_remove_dups; left).
  rewrite Hlen in Hx. by apply elem_of_nil in Hx.
Qed.

Lemma nunique_pos {A} `{EqDecision A} (l : list A) :
  l ≠ [] → (0 < nunique l)%nat.
Proof.
  intros Hl. destruct (nunique l) eqn:E; [| lia].
  by apply nunique_zero in E.
Qed.

Lemma sorted_unique_perm (l : list Z) : sorted_unique l ≡ₚ remove_dups l.
Proof. apply merge_sort_Permutation. Qed.

Lemma elem_of_sorted_unique (l : list Z) x : x ∈ sorted_unique l ↔ x ∈ l.
Proof. by rewrite sorted_unique_perm, elem_of_remove_dups. Qed.

Lemma NoDup_sorted_unique (l : list Z) : NoDup (sorted_unique l).
Proof. rewrite sorted_unique_perm. apply NoDup_remove_dups. Qed.

Lemma length_sorted_unique (l : list Z) : length (sorted_unique l) = nunique l.
Proof. unfold nunique. by rewrite sorted_unique_perm. Qed.

Lemma count_true_fmap {A} (f : A → bool) (l : list A) :
  count_true (f <$> l) = length (filter (λ x, f x = true) l).
Proof.
  unfold count_true. induction l as [|x l IH]; [done |].
  rewrite fmap_cons, !filter_cons.
  destruct (f x); repeat case_decide; try done; simpl; by rewrite IH.
Qed.

Lemma filter_length_perm {A} (P : A → Prop) `{∀ x, Decision (P x)} (l k : list A) :
  l ≡ₚ k → length (filter P l) = length (filter P k).
Proof. intros Hlk. by rewrite Hlk. Qed.

(** ** float64 arithmetic *)

Lemma Qc_sgn_of_Z (z : Z) : Qc_sgn (Qc_of_Z z) = Z.sgn z.
Proof. reflexivity. Qed.

Lemma Qc_of_Z_ne_0 (z : Z) : z ≠ 0 → Qc_of_Z z ≠ 0%Qc.
Proof. intros Hz Heq. apply Hz. apply Z2Qc_inj. by rewrite Z2Qc_inj_0. Qed.

Lemma fdiv_of_int (a b : Z) :
  b ≠ 0 → fdiv (of_int a) (of_int b) = Fin (Qc_of_Z a / Qc_of_Z b)%Qc.
Proof.
  intros Hb. unfold fdiv, of_int. rewrite Qc_sgn_of_Z.
  rewrite decide_False; [done |]. destruct b; simpl; lia.
Qed.

Lemma rint_of_Z (z : Z) : rint (Qc_of_Z z) = z.
Proof.
  unfold rint. simpl. rewrite Z.div_1_r, Z.mod_1_r. done.
Qed.

Lemma fround1_grid (z : Z) :
  fround1 (Fin (Qc_of_Z z / Qc_of_Z 10)%Qc) = Fin (Qc_of_Z z / Qc_of_Z 10)%Qc.
Proof.
  unfold fround1. f_equal.
  replace (Qc_of_Z z / Qc_of_Z 10 * Qc_of_Z 10)%Qc with (Qc_of_Z z).
  - by rewrite rint_of_Z.
  - field. by apply Qc_of_Z_ne_0.
Qed.

(** Rounding lands on the grid of tenths, which [100 - x] preserves: the
    second rounding of the drop-off column changes nothing. *)
Lemma fround1_100_minus (x : float64) :
  fround1 (fsub (of_int 100) (fround1 x)) = fsub (of_int 100) (fround1 x).
Proof.
  destruct x as [q| | |]; try done.
  unfold fround1 at 2 3. unfold fsub, fneg, fadd, of_int.
  set (z := rint (q * Qc_of_Z 10)).
  replace (Qc_of_Z 100 + - (Qc_of_Z z / Qc_of_Z 10))%Qc
    with (Qc_of_Z (1000 - z) / Qc_of_Z 10)%Qc.
  - apply fround1_grid.
  - rewrite Z2Qc_inj_sub.
    replace (Qc_of_Z 1000) with (Qc_of_Z 100 * Qc_of_Z 10)%Qc
      by (by rewrite <- Z2Qc_inj_mul).
    field. by apply Qc_of_Z_ne_0.
Qed.

(** ** C1: the funnel table *)

Lemma step_reach_any_occurrence (df : DataFrame) (s : string) :
  step_reach df s = reach_any_occurrence df s.
Proof.
  unfold step_reach, reach_any_occurrence, rows_of_type.
  apply nunique_NoDup_ext.
  - apply list.NoDup_filter, NoDup_remove_dups.
  - intros u. rewrite list_elem_of_filter, elem_of_remove_dups.
    rewrite !list_elem_of_fmap. unfold has_event. rewrite list.Exists_exists.
    split.
    + intros (e & -> & He). apply list_elem_of_filter in He as [Ht He].
      split; [exists e | exists e]; done.
    + intros [(e & He & Hu & Ht) _]. exists e. split; [done |].
      apply list_elem_of_filter. done.
Qed.


(** ** C2: conversion rate without users *)

(** On the empty frame the call ends in [ZeroDivisionError]. *)
Lemma compute_conversion_rate_no_users_empty :
  compute_conversion_rate [] = Raise ZeroDivisionError
  ∧ compute_conversion_rate [] ≠ Raise EmptyInputError.
Proof. split; [reflexivity | discriminate]. Qed.

(** C2, as the code has it. With zero distinct users [compute_conversion_rate]
    returns no value: the division [converted / total_users] raises Python's
    [ZeroDivisionError]. *)
Theorem compute_conversion_rate_no_users (df : DataFrame) :
  nunique (user_id <$> df) = 0%nat →
  compute_conversion_rate df = Raise ZeroDivisionError.
Proof.
  intros Hn. unfold compute_conversion_rate. rewrite Hn. reflexivity.
Qed.

Lemma compute_conversion_rate_no_users_witness :
  compute_conversion_rate [] = Raise ZeroDivisionError.
Proof. apply (compute_conversion_rate_no_users []). reflexivity. Defined.

(** ** Per-user dates *)

Lemma series_max_spec (l : list Z) (m : Z) :
  series_max l = Some m → m ∈ l ∧ ∀ x, x ∈ l → x ≤ m.
Proof.
  destruct l as [|a l]; [done |]. simpl. intros [= <-].
  induction l as [|b l [IHin IHle]]; simpl.
  - split; [left |]. intros x ->%list_elem_of_singleton. lia.
  - split.
    + destruct (Z.max_spec b (foldr Z.max a l)) as [[_ ->] | [_ ->]].
      * apply elem_of_cons in IHin as [-> | Hin]; [left | right; by right].
      * right; left.
    + intros x [-> | [-> | Hx]%elem_of_cons]%elem_of_cons.
      * specialize (IHle a ltac:(left)). lia.
      * lia.
      * specialize (IHle x ltac:(by right)). lia.
Qed.

Lemma series_min_spec (l : list Z) (m : Z) :
  series_min l = Some m → m ∈ l ∧ ∀ x, x ∈ l → m ≤ x.
Proof.
  destruct l as [|a l]; [done |]. simpl. intros [= <-].
  induction l as [|b l [IHin IHle]]; simpl.
  - split; [left |]. intros x ->%list_elem_of_singleton. lia.
  - split.
    + destruct (Z.min_spec b (foldr Z.min a l)) as [[_ ->] | [_ ->]].
      * right; left.
      * apply elem_of_cons in IHin as [-> | Hin]; [left | right; by right].
    + intros x [-> | [-> | Hx]%elem_of_cons]%elem_of_cons.
      * specialize (IHle a ltac:(left)). lia.
      * lia.
      * specialize (IHle x ltac:(by right)). lia.
Qed.

Lemma series_max_is_Some (l : list Z) : l ≠ [] → is_Some (series_max l).
Proof. destruct l; [done | by eexists]. Qed.

Lemma series_min_is_Some (l : list Z) : l ≠ [] → is_Some (series_min l).
Proof. destruct l; [done | by eexists]. Qed.

Lemma elem_of_users_of (df : DataFrame) (u : Z) :
  u ∈ users_of df ↔ ∃ e, e ∈ df ∧ user_id e = u.
Proof.
  unfold users_of. rewrite elem_of_remove_dups, list_elem_of_fmap.
  split; intros (e & ? & ?); exists e; done.
Qed.

Lemma user_dates_nonempty (df : DataFrame) (u : Z) :
  u ∈ users_of df → user_dates df u ≠ [].
Proof.
  intros (e & He & Hu)%elem_of_users_of. unfold user_dates, rows_of_user.
  assert (event_date e ∈ event_date <$> filter (λ e, user_id e = u) df) as Hin.
  { apply list_elem_of_fmap_2, list_elem_of_filter. done. }
  intros Heq. rewrite Heq in Hin. by apply elem_of_nil in Hin.
Qed.

Lemma elem_of_user_dates (df : DataFrame) (u : Z) (d : date) :
  d ∈ user_dates df u ↔ ∃ e, e ∈ df ∧ user_id e = u ∧ event_date e = d.
Proof.
  unfold user_dates, rows_of_user. rewrite list_elem_of_fmap. split.
  - intros (e & -> & [Hu He]%list_elem_of_filter). by exists e.
  - intros (e & He & Hu & <-). exists e. split; [done |].
    by apply list_elem_of_filter.
Qed.

Lemma series_max_unique (l : list Z) (m : Z) :
  m ∈ l → (∀ x, x ∈ l → x ≤ m) → series_max l = Some m.
Proof.
  intros Hin Hmax.
  destruct (series_max_is_Some l) as [m' Hm'].
  { intros ->. by apply elem_of_nil in Hin. }
  rewrite Hm'. f_equal.
  apply series_max_spec in Hm' as [Hin' Hmax'].
  specialize (Hmax m' Hin'). specialize (Hmax' m Hin). lia.
Qed.

Lemma zip_fmap_diag {A B C} (f : A → B) (g : A → C) (l : list A) :
  zip (f <$> l) (g <$> l) = (λ x, (f x, g x)) <$> l.
Proof. induction l as [|x l IH]; [done |]. rewrite !fmap_cons. simpl. by f_equal. Qed.

Lemma groupby_user_length (df : DataFrame) :
  length (groupby_user df) = nunique (user_id <$> df).
Proof. unfold groupby_user. by rewrite length_fmap, length_sorted_unique. Qed.

(** A count over the groups is a count over the distinct users. *)
Lemma count_groups (df : DataFrame) (h : Z * DataFrame → bool) :
  count_true (h <$> groupby_user df)
  = length (filter (λ u, h (u, rows_of_user u df) = true) (users_of df)).
Proof.
  unfold groupby_user. rewrite <- list_fmap_compose, count_true_fmap.
  apply filter_length_perm, sorted_unique_perm.
Qed.

Lemma rate_of_counts (a b : nat) :
  (0 < b)%nat →
  fmul (np_truediv (Z.of_nat a) (Z.of_nat b)) (of_int 100)
  = Fin (Qc_of_Z (Z.of_nat a) / Qc_of_Z (Z.of_nat b) * Qc_of_Z 100)%Qc.
Proof.
  intros Hb. unfold np_truediv. rewrite fdiv_of_int by lia. done.
Qed.

(** ** C5: retention rate *)

Lemma user_gap_spec (df : DataFrame) (u : Z) :
  u ∈ users_of df →
  ∃ lo hi, lo ∈ user_dates df u ∧ hi ∈ user_dates df u
    ∧ (∀ d, d ∈ user_dates df u → lo ≤ d ≤ hi)
    ∧ user_gap df u = Some (hi - lo).
Proof.
  intros Hu%user_dates_nonempty.
  destruct (series_max_is_Some _ Hu) as [hi Hhi].
  destruct (series_min_is_Some _ Hu) as [lo Hlo].
  exists lo, hi. unfold user_gap. rewrite Hhi, Hlo.
  apply series_max_spec in Hhi as [? Hmax].
  apply series_min_spec in Hlo as [? Hmin].
  repeat split; try done; [by apply Hmin | by apply Hmax].
Qed.



(** ** C6: churn rate *)

Lemma compute_churn_rate_counts (df : DataFrame) (inactive_days : Z) :
  df ≠ [] →
  compute_churn_rate df inactive_days
  = Fin (Qc_of_Z (Z.of_nat (length (churned_users df inactive_days)))
         / Qc_of_Z (Z.of_nat (nunique (user_id <$> df))) * Qc_of_Z 100)%Qc.
Proof.
  intros Hdf. unfold compute_churn_rate.
  rewrite <- !list_fmap_compose, count_groups.
  rewrite rate_of_counts; [done |].
  apply nunique_pos. by destruct df.
Qed.


(** ** C9: the bottleneck step *)

(** [fltb] on values that are not [NaN] is a strict total order. *)
Lemma fltb_irrefl (x : float64) : fltb x x = false.
Proof.
  destruct x; simpl; try done.
  apply bool_decide_eq_false, (irreflexivity Qclt).
Qed.

Lemma fltb_lt_of_le_lt (w b x : float64) :
  w ≠ NaN → fltb b w = false → fltb b x = true → fltb w x = true.
Proof.
  destruct w as [qw| | |], b as [qb| | |], x as [qx| | |]; simpl; try done.
  rewrite bool_decide_eq_false, !bool_decide_eq_true.
  intros _ Hle%Qcnot_lt_le Hlt. by eapply Qcle_lt_trans.
Qed.

Lemma fltb_not_lt_of_le_lt (w b x : float64) :
  fltb b w = false → fltb b x = true → fltb x w = false.
Proof.
  destruct w as [qw| | |], b as [qb| | |], x as [qx| | |]; simpl; try done.
  rewrite !bool_decide_eq_false, bool_decide_eq_true.
  intros Hle%Qcnot_lt_le Hlt Hlt'.
  apply (irreflexivity Qclt qb). eapply Qclt_le_trans; [| exact Hle].
  by eapply Qclt_trans.
Qed.

Lemma fltb_fleb (x y : float64) :
  x ≠ NaN → y ≠ NaN → fltb y x = false → fleb x y = true.
Proof. destruct x, y; simpl; try done; by intros _ _ ->. Qed.

(** The scan of [argmax_from]: with [b] the first greatest position of the
    part already read, the result is the first greatest position of the
    whole list. *)
Lemma argmax_from_spec (L pre l : list float64) (b i : nat) (bv : float64) :
  L = pre ++ l → length pre = i →
  (∀ x, x ∈ L → x ≠ NaN) →
  L !! b = Some bv →
  (∀ j w, (j < i)%nat → L !! j = Some w → fltb bv w = false) →
  (∀ j w, (j < b)%nat → L !! j = Some w → fltb w bv = true) →
  ∃ v, L !! argmax_from b bv i l = Some v
    ∧ (∀ j w, L !! j = Some w → fltb v w = false)
    ∧ (∀ j w, (j < argmax_from b bv i l)%nat → L !! j = Some w → fltb w v = true).
Proof.
  revert pre b i bv.
  induction l as [|x l IH]; intros pre b i bv HL Hlen Hnan Hb Hmax Hfirst; simpl.
  - exists bv. split; [done |]. split; [| done].
    intros j w Hj. apply (Hmax j w); [| done].
    apply lookup_lt_Some in Hj. rewrite HL, app_nil_r in Hj. lia.
  - assert (L !! i = Some x) as Hi.
    { rewrite HL, lookup_app_r by lia.
      replace (i - length pre)%nat with 0%nat by lia. done. }
    destruct (fltb bv x) eqn:Hlt.
    + apply (IH (pre ++ [x])).
      * by rewrite <- app_assoc.
      * rewrite length_app. simpl. lia.
      * done.
      * done.
      * intros j w Hj Hw. destruct (decide (j = i)) as [-> | Hne].
        -- rewrite Hi in Hw. injection Hw as <-. apply fltb_irrefl.
        -- eapply fltb_not_lt_of_le_lt; [| exact Hlt].
           apply (Hmax j w); [lia | done].
      * intros j w Hj Hw. eapply fltb_lt_of_le_lt; [| | exact Hlt].
        -- apply Hnan. by eapply list_elem_of_lookup_2.
        -- by apply (Hmax j w).
    + apply (IH (pre ++ [x])).
      * by rewrite <- app_assoc.
      * rewrite length_app. simpl. lia.
      * done.
      * done.
      * intros j w Hj Hw. destruct (decide (j = i)) as [-> | Hne].
        -- rewrite Hi in Hw. by injection Hw as <-.
        -- apply (Hmax j w); [lia | done].
      * done.
Qed.

Lemma argmax_spec (L : list float64) :
  L ≠ [] → (∀ x, x ∈ L → x ≠ NaN) →
  ∃ k v, argmax L = Some k ∧ L !! k = Some v
    ∧ (∀ j w, L !! j = Some w → fltb v w = false)
    ∧ (∀ j w, (j < k)%nat → L !! j = Some w → fltb w v = true).
Proof.
  destruct L as [|x l]; [done |]. intros _ Hnan. simpl.
  destruct (argmax_from_spec (x :: l) [x] l 0 1 x) as (v & Hv & Hmax & Hfirst);
    try done.
  - intros j w Hj Hw. destruct j; [| lia]. injection Hw as <-. apply fltb_irrefl.
  - intros j w Hj. lia.
  - exists (argmax_from 0 x 1 l), v. done.
Qed.

Lemma fill_na_not_nan (x : float64) : fill_na x ≠ NaN.
Proof. by destruct x. Qed.

Lemma fill_na_id (x : float64) : x ≠ NaN → fill_na x = x.
Proof. by destruct x. Qed.

(** [idxmax] returns the label of the first greatest value, missing values
    set aside, as soon as one value is greater than [-inf]. *)
Lemma idxmax_spec (first : nat) (s : list float64) :
  (∃ j x, s !! j = Some x ∧ fltb NegInf x = true) →
  ∃ k v, idxmax first s = Ok (first + k)%nat ∧ s !! k = Some v ∧ v ≠ NaN
    ∧ (∀ j w, s !! j = Some w → w ≠ NaN → fleb w v = true)
    ∧ (∀ j w, (j < k)%nat → s !! j = Some w → w ≠ NaN → fltb w v = true).
Proof.
  intros (j0 & x0 & Hj0 & Hx0). unfold idxmax.
  assert (forallb isnan s = false) as ->.
  { apply not_true_is_false. intros Hall.
    rewrite forallb_forall in Hall.
    assert (isnan x0 = true) as Hn.
    { apply Hall, list_elem_of_In. by eapply list_elem_of_lookup_2. }
    by destruct x0. }
  destruct (argmax_spec (fill_na <$> s)) as (k & v & -> & Hk & Hmax & Hfirst).
  - intros Heq. apply fmap_nil_inv in Heq. by rewrite Heq in Hj0.
  - intros x (y & -> & _)%list_elem_of_fmap. apply fill_na_not_nan.
  - rewrite list_lookup_fmap in Hk.
    destruct (s !! k) as [vk|] eqn:Hvk; [| done]. injection Hk as <-.
    assert (vk ≠ NaN) as Hvk_num.
    { intros ->. specialize (Hmax j0 (fill_na x0)).
      rewrite list_lookup_fmap, Hj0 in Hmax. specialize (Hmax eq_refl).
      rewrite (fill_na_id x0) in Hmax by (by destruct x0).
      change (fill_na NaN) with NegInf in Hmax. congruence. }
    rewrite fill_na_id in Hmax, Hfirst by done.
    exists k, vk. repeat split; try done.
    + intros j w Hw Hnum. apply fltb_fleb; try done.
      specialize (Hmax j (fill_na w)). rewrite list_lookup_fmap, Hw in Hmax.
      specialize (Hmax eq_refl). by rewrite (fill_na_id w) in Hmax.
    + intros j w Hj Hw Hnum.
      specialize (Hfirst j (fill_na w) Hj). rewrite list_lookup_fmap, Hw in Hfirst.
      specialize (Hfirst eq_refl). by rewrite (fill_na_id w) in Hfirst.
Qed.

(** The table of a frame with a signup event has more than one row and a
    finite drop-off in row 1, so its bottleneck is defined. *)
Lemma compute_funnel_dropoff_finite (df : DataFrame) :
  (0 < step_reach df "signup")%nat →
  ∃ t, compute_funnel df = Ok t ∧ (1 < length t)%nat
    ∧ ∃ r, t !! 1%nat = Some r ∧ fltb NegInf (dropoff_pct r) = true.
Proof.
  intros Hpos. unfold compute_funnel, funnel_frame, FUNNEL_STEPS. simpl.
  eexists. split; [reflexivity |]. split; [simpl; lia |].
  eexists. split; [reflexivity |]. simpl.
  unfold pct, of_nat. rewrite fdiv_of_int by lia. reflexivity.
Qed.



(** ** C4: the first column of the cohort matrix *)

(** Under the invariants every user has an event dated on the signup date,
    carrying the same signup date. *)
Lemma first_event_exists (df : DataFrame) (e : event) :
  signup_date_is_first df → e ∈ df →
  ∃ e', e' ∈ df ∧ user_id e' = user_id e
    ∧ event_date e' = signup_date e ∧ signup_date e' = signup_date e.
Proof.
  intros Hfirst He.
  pose proof (Hfirst e He) as Hmin.
  apply series_min_spec in Hmin as [(e' & He' & Hu & Hd)%elem_of_user_dates _].
  exists e'. repeat split; try done.
  pose proof (Hfirst e' He') as Hmin'. rewrite Hu in Hmin'.
  rewrite (Hfirst e He) in Hmin'. by injection Hmin'.
Qed.

Lemma same_user_same_signup_date (df : DataFrame) (e1 e2 : event) :
  signup_date_is_first df → e1 ∈ df → e2 ∈ df → user_id e1 = user_id e2 →
  signup_date e1 = signup_date e2.
Proof.
  intros Hfirst H1 H2 Hu.
  pose proof (Hfirst e1 H1) as Hm1. pose proof (Hfirst e2 H2) as Hm2.
  rewrite Hu, Hm2 in Hm1. by injection Hm1.
Qed.

Lemma elem_of_user_activity (df : DataFrame) (a : activity) :
  a ∈ user_activity df →
  ∃ e, e ∈ df ∧ a_user a = user_id e ∧ a_signup_month a = signup_month e
    ∧ a_event_month a = event_month e.
Proof.
  unfold user_activity. intros (k & -> & Hk)%list_elem_of_fmap.
  apply elem_of_remove_dups, list_elem_of_fmap in Hk as (e & -> & He).
  by exists e.
Qed.

Lemma user_activity_of_event (df : DataFrame) (e : event) :
  e ∈ df →
  ∃ a, a ∈ user_activity df ∧ a_user a = user_id e
    ∧ a_signup_month a = signup_month e ∧ a_event_month a = event_month e.
Proof.
  intros He. eexists. split.
  - unfold user_activity. apply list_elem_of_fmap_2.
    apply elem_of_remove_dups. by apply (list_elem_of_fmap_2 activity_key).
  - done.
Qed.

Lemma elem_of_cohort_signups (df : DataFrame) (m u : Z) :
  u ∈ cohort_signups df m ↔
  ∃ e, e ∈ df ∧ user_id e = u ∧ event_type e = "signup" ∧ signup_month e = m.
Proof.
  unfold cohort_signups, rows_of_type. rewrite list_elem_of_fmap. split.
  - intros (e & -> & [Hm [Ht He]%list_elem_of_filter]%list_elem_of_filter).
    by exists e.
  - intros (e & He & Hu & Ht & Hm). exists e. split; [done |].
    apply list_elem_of_filter. split; [done |]. by apply list_elem_of_filter.
Qed.

Lemma elem_of_cohort_active_0 (df : DataFrame) (m u : Z) :
  u ∈ cohort_active df m 0 ↔
  ∃ e, e ∈ df ∧ user_id e = u ∧ signup_month e = m ∧ event_month e = m.
Proof.
  unfold cohort_active. rewrite list_elem_of_fmap. split.
  - intros (a & -> & [Hk [Hp Ha]%list_elem_of_filter]%list_elem_of_filter).
    apply elem_of_user_activity in Ha as (e & He & Hu & Hs & Hev).
    unfold cohort_key, period in Hk. injection Hk as Hm Hper.
    exists e. repeat split; try done; lia.
  - intros (e & He & Hu & Hs & Hev).
    destruct (user_activity_of_event df e He) as (a & Ha & Hau & Has & Hae).
    exists a. split; [congruence |].
    assert (period a = 0) as Hp by (unfold period; lia).
    apply list_elem_of_filter. split.
    + unfold cohort_key. rewrite Hp. congruence.
    + apply list_elem_of_filter. split; [lia | done].
Qed.

(** In the signup month, the active users of a cohort are its members. *)
Lemma cohort_active_0_signups (df : DataFrame) (m : Z) :
  every_user_signs_up df → signup_date_is_first df →
  nunique (cohort_active df m 0) = nunique (cohort_signups df m).
Proof.
  intros Hsign Hfirst. apply nunique_ext. intros u.
  rewrite elem_of_cohort_active_0, elem_of_cohort_signups. split.
  - intros (e & He & Hu & Hs & _).
    destruct (Hsign e He) as (s & Hs_in & Hsu & Hst).
    exists s. repeat split; try done; [congruence |].
    unfold signup_month in *.
    by rewrite (same_user_same_signup_date df s e).
  - intros (s & Hs_in & Hu & _ & Hm).
    destruct (first_event_exists df s Hfirst Hs_in) as (e & He & Heu & Hed & Hes).
    exists e. unfold signup_month, event_month in *.
    repeat split; try done; congruence.
Qed.

Lemma pct_full (n : nat) : (0 < n)%nat → pct (of_nat n) (of_nat n) = of_int 100.
Proof.
  intros Hn. unfold pct, of_nat. rewrite fdiv_of_int by lia.
  unfold fmul, of_int.
  replace (Qc_of_Z (Z.of_nat n) / Qc_of_Z (Z.of_nat n) * Qc_of_Z 100)%Qc
    with (Qc_of_Z 1000 / Qc_of_Z 10)%Qc.
  - rewrite fround1_grid. f_equal. by apply Qc_is_canon.
  - transitivity (Qc_of_Z 100); [by apply Qc_is_canon |].
    field. apply Qc_of_Z_ne_0. lia.
Qed.

Lemma fsum_constant (l : list float64) (z : Z) :
  (∀ x, x ∈ l → x = of_int z) → fsum l = of_int (z * Z.of_nat (length l)).
Proof.
  induction l as [|x l IH]; intros Hall.
  - simpl. unfold fsum. simpl. f_equal. lia.
  - unfold fsum in *. simpl.
    rewrite IH by (intros y Hy; apply Hall; by right).
    rewrite (Hall x) by left. unfold fadd, of_int. f_equal.
    rewrite <- Z2Qc_inj_add. f_equal. lia.
Qed.

Lemma fmean_constant (l : list float64) (z : Z) :
  l ≠ [] → (∀ x, x ∈ l → x = of_int z) → fmean l = of_int z.
Proof.
  intros Hne Hall. destruct l as [|x l]; [done |].
  unfold fmean. rewrite (fsum_constant _ z) by done.
  unfold of_nat. rewrite fdiv_of_int by (simpl; lia).
  unfold of_int. f_equal. rewrite Z2Qc_inj_mul. field.
  apply Qc_of_Z_ne_0. simpl. lia.
Qed.

Lemma index_of_elem (k : Z) (l : list Z) :
  k ∈ l → ∃ i, index_of k l = Some i ∧ l !! i = Some k.
Proof.
  intros Hk. unfold index_of.
  destruct (list_find_elem_of (λ x, x = k) l k Hk eq_refl) as [[i x] Hfind].
  rewrite Hfind. exists i. split; [done |].
  apply list_find_Some in Hfind as (Hi & -> & _). done.
Qed.

Lemma elem_of_cohort_sizes (df : DataFrame) (m : Z) (n : nat) :
  (m, n) ∈ cohort_sizes df ↔
  m ∈ signup_month <$> rows_of_type "signup" df
  ∧ n = nunique (cohort_signups df m).
Proof.
  unfold cohort_sizes. rewrite list_elem_of_fmap. split.
  - intros (m' & [= -> ->] & Hm). rewrite elem_of_sorted_unique in Hm.
    split; [done | reflexivity].
  - intros [Hm ->]. exists m. split; [done |]. by apply elem_of_sorted_unique.
Qed.

Lemma elem_of_cohort_data (df : DataFrame) (m p : Z) (n : nat) :
  (m, p, n) ∈ cohort_data df ↔
  (m, p) ∈ cohort_key <$> filter (λ a, 0 ≤ period a) (user_activity df)
  ∧ n = nunique (cohort_active df m p).
Proof.
  unfold cohort_data. rewrite list_elem_of_fmap. split.
  - intros ([m' p'] & [= -> -> ->] & Hk). rewrite elem_of_remove_dups in Hk.
    split; [done | reflexivity].
  - intros [Hk ->]. exists (m, p). split; [done |]. by apply elem_of_remove_dups.
Qed.

Lemma elem_of_cohort_merged (df : DataFrame) (r : cohort_row) :
  r ∈ cohort_merged df ↔
  (c_signup_month r, c_period r, c_active_users r) ∈ cohort_data df
  ∧ (c_signup_month r, c_cohort_size r) ∈ cohort_sizes df
  ∧ c_retention r = pct (of_nat (c_active_users r)) (of_nat (c_cohort_size r)).
Proof.
  unfold cohort_merged. rewrite list_elem_of_bind. split.
  - intros ([[m p] a] & Hr & Hd). simpl in Hr.
    apply list_elem_of_bind in Hr as ([m' n] & Hr & Hs).
    apply list_elem_of_filter in Hs as [Hm Hs]. simpl in Hm. subst m'.
    apply list_elem_of_singleton in Hr as ->. simpl. done.
  - intros (Hd & Hs & Hret). eexists. split; [| exact Hd]. simpl.
    apply list_elem_of_bind. exists (c_signup_month r, c_cohort_size r). split.
    + apply list_elem_of_singleton. destruct r; simpl in *. by rewrite Hret.
    + apply list_elem_of_filter. split; [| exact Hs]. done.
Qed.

(** C4. When every user has a signup event and the signup date of each row
    is the least event date of its user, every cohort month of positive size
    is a row of the retention matrix and its cell in column [M0] is 100.0. *)
Theorem cohort_retention_M0 (df : DataFrame) (m : Z) (n : nat) :
  every_user_signs_up df → signup_date_is_first df →
  (m, n) ∈ cohort_sizes df → (0 < n)%nat →
  m ∈ m_index (compute_cohort_retention df)
  ∧ cell (compute_cohort_retention df) m 0 = Some (of_int 100).
Proof.
  intros Hsign Hfirst Hsize Hn.
  apply elem_of_cohort_sizes in Hsize as [Hm Hn_eq].
  apply list_elem_of_fmap in Hm as (s & Hms & Hs).
  apply list_elem_of_filter in Hs as [Hst Hs].
  destruct (first_event_exists df s Hfirst Hs) as (e & He & _ & Hed & Hes).
  destruct (user_activity_of_event df e He) as (a & Ha & _ & Has & Hae).
  assert (a_signup_month a = m ∧ period a = 0) as [Ham Hp].
  { unfold period, signup_month, event_month in *. split; [congruence |].
    rewrite Has, Hae, Hed, Hes. lia. }
  set (active := nunique (cohort_active df m 0)).
  assert ((m, 0, active) ∈ cohort_data df) as Hdata.
  { apply elem_of_cohort_data. split; [| done].
    apply list_elem_of_fmap. exists a. split.
    - unfold cohort_key. by rewrite Ham, Hp.
    - apply list_elem_of_filter. split; [lia | done]. }
  set (r0 := {| c_signup_month := m; c_period := 0; c_active_users := active;
                c_cohort_size := n;
                c_retention := pct (of_nat active) (of_nat n) |}).
  assert (r0 ∈ cohort_merged df) as Hr0.
  { apply elem_of_cohort_merged. simpl. split; [done |]. split; [| done].
    apply elem_of_cohort_sizes. split; [| done].
    rewrite Hms. apply list_elem_of_fmap_2.
    unfold rows_of_type. by apply list_elem_of_filter. }
  assert (m ∈ sorted_unique (c_signup_month <$> cohort_merged df)) as Hidx.
  { apply elem_of_sorted_unique.
    by apply (list_elem_of_fmap_2 c_signup_month _ r0). }
  assert (0 ∈ sorted_unique (c_period <$> cohort_merged df)) as Hcol.
  { apply elem_of_sorted_unique.
    by apply (list_elem_of_fmap_2 c_period _ r0). }
  split; [exact Hidx |].
  destruct (index_of_elem _ _ Hidx) as (i & Hi & Hli).
  destruct (index_of_elem _ _ Hcol) as (j & Hj & Hlj).
  unfold cell, compute_cohort_retention. cbn [m_index m_columns m_values].
  rewrite Hi, Hj. cbn [mbind option_bind].
  rewrite list_lookup_fmap, Hli. cbn [fmap option_fmap option_map mbind option_bind].
  rewrite list_lookup_fmap, Hlj. cbn [fmap option_fmap option_map].
  f_equal. apply fmean_constant.
  - intros Hnil.
    assert (c_retention r0 ∈ c_retention <$>
              filter (λ r, c_signup_month r = m ∧ c_period r = 0) (cohort_merged df))
      as Hin by (apply list_elem_of_fmap_2, list_elem_of_filter; done).
    rewrite Hnil in Hin. by apply elem_of_nil in Hin.
  - intros x (r & -> & [[Hrm Hrp] Hr]%list_elem_of_filter)%list_elem_of_fmap.
    apply elem_of_cohort_merged in Hr as (Hd & Hsz & ->).
    rewrite Hrm, Hrp in Hd. rewrite Hrm in Hsz.
    apply elem_of_cohort_data in Hd as [_ ->].
    apply elem_of_cohort_sizes in Hsz as [_ ->].
    rewrite cohort_active_0_signups by done.
    apply pct_full. by rewrite <- Hn_eq.
Qed.

(** ** C3: lift of the A/B test *)

Lemma Z_sum_flags (l : list Z) :
  (∀ x, x ∈ l → x = 0 ∨ x = 1) → 0 ≤ Z_sum l ≤ Z.of_nat (length l).
Proof.
  induction l as [|x l IH]; intros Hall; simpl; [lia |].
  destruct (Hall x ltac:(left)) as [-> | ->];
    specialize (IH (λ y Hy, Hall y ltac:(by right))); lia.
Qed.

Lemma ab_conversions_bounds (df : DataFrame) (g : string) :
  0 ≤ ab_conversions df g ≤ Z.of_nat (ab_size df g).
Proof.
  unfold ab_conversions, ab_size.
  rewrite <- (length_fmap snd). apply Z_sum_flags.
  intros x (r & -> & [_ Hr]%list_elem_of_filter)%list_elem_of_fmap.
  unfold ab_frame in Hr. apply list_elem_of_fmap in Hr as (k & -> & _).
  simpl. case_bool_decide; auto.
Qed.



Lemma Qc_div_ne_0 (x n : Z) :
  x ≠ 0 → n ≠ 0 → (Qc_of_Z x / Qc_of_Z n)%Qc ≠ 0%Qc.
Proof.
  intros Hx Hn Heq. apply Hx, Z2Qc_inj. rewrite Z2Qc_inj_0.
  replace (Qc_of_Z x) with (Qc_of_Z x / Qc_of_Z n * Qc_of_Z n)%Qc
    by (field; by apply Qc_of_Z_ne_0).
  rewrite Heq. ring.
Qed.

Lemma Fin_inj (a b : Qc) : Fin a = Fin b → a = b.
Proof. intros Heq. by injection Heq. Qed.

Lemma expected_nonzero (x n : Z) :
  x ≠ 0 → n ≠ 0 → feqb (fdiv (of_int x) (of_int n)) (of_int 0) = false.
Proof.
  intros Hx Hn. rewrite fdiv_of_int by done. unfold feqb, of_int.
  apply bool_decide_eq_false. intros Heq%Fin_inj.
  apply (Qc_div_ne_0 x n Hx Hn). by rewrite Heq, Z2Qc_inj_0.
Qed.

Lemma expected_zero (n : Z) :
  n ≠ 0 → feqb (fdiv (of_int 0) (of_int n)) (of_int 0) = true.
Proof.
  intros Hn. rewrite fdiv_of_int by done. unfold feqb, of_int.
  apply bool_decide_eq_true. f_equal. rewrite Z2Qc_inj_0. unfold Qcdiv. ring.
Qed.

(** The chi-square routine returns when no margin of the table is zero. *)
Lemma chi2_contingency_ok `{Scipy} (a b c d : Z) :
  0 ≤ a → 0 ≤ b → 0 ≤ c → 0 ≤ d →
  0 < a + b → 0 < c + d → 0 < a + c → 0 < b + d →
  ∃ t, chi2_contingency a b c d = Ok t.
Proof.
  intros. unfold chi2_contingency.
  rewrite bool_decide_eq_false_2 by lia.
  cbn [existsb]. rewrite !expected_nonzero by nia.
  simpl. by eexists.
Qed.








(** ** C7, C8, C10: RFM segmentation *)

(** C7. Two invocations of the segmentation on the same input, the second
    starting from the state the first leaves (or from any other state of the
    process-wide random generator), return the same outcome: the same rows,
    with the same recency, frequency, monetary value, cluster id and label.
    The process-wide generator is not advanced. *)
Theorem compute_rfm_segments_two_runs `{Sklearn} (df : DataFrame) (n_clusters : Z)
    (g g' : rng) :
  let first_run := compute_rfm_segments df n_clusters g in
  let second_run := compute_rfm_segments df n_clusters first_run.2 in
  first_run.1 = second_run.1
  ∧ first_run.2 = g
  ∧ (compute_rfm_segments df n_clusters g').1 = first_run.1.
Proof.
  unfold compute_rfm_segments, KMeans_fit_predict.
  destruct (StandardScaler_fit_transform _) as [X|e]; [| done].
  repeat case_decide; done.
Qed.

Lemma rfm_features_length (df : DataFrame) :
  length (rfm_features df) = nunique (user_id <$> df).
Proof. unfold rfm_features. by rewrite length_fmap, groupby_user_length. Qed.




Lemma insert_desc_perm (x : nat * Qc) (l : list (nat * Qc)) :
  insert_desc x l ≡ₚ x :: l.
Proof.
  induction l as [|y l IH]; [done |]. simpl. case_decide; [| done].
  rewrite IH. apply Permutation_swap.
Qed.

Lemma sort_desc_perm (l : list (nat * Qc)) : sort_desc l ≡ₚ l.
Proof.
  induction l as [|x l IH]; [done |]. unfold sort_desc in *. simpl.
  by rewrite insert_desc_perm, IH.
Qed.

Lemma ranked_segments_perm (rows : list (nat * Qc)) :
  ranked_segments rows ≡ₚ remove_dups (fst <$> rows).
Proof.
  unfold ranked_segments, sorted_unique_nat.
  rewrite sort_desc_perm, <- list_fmap_compose.
  rewrite (list_fmap_ext _ id) by done. rewrite list_fmap_id.
  apply merge_sort_Permutation.
Qed.

Lemma NoDup_ranked_segments (rows : list (nat * Qc)) :
  NoDup (ranked_segments rows).
Proof. rewrite ranked_segments_perm. apply NoDup_remove_dups. Qed.

Lemma elem_of_ranked_segments (rows : list (nat * Qc)) (s : nat) :
  s ∈ ranked_segments rows ↔ s ∈ fst <$> rows.
Proof. by rewrite ranked_segments_perm, elem_of_remove_dups. Qed.

(** A dict zipped from distinct keys gives, for the key at position [i], the
    value at position [i], and nothing when the values stop before [i]. *)
Lemma dict_get_zip (ks : list nat) (vs : list string) (s : nat) (i : nat) :
  NoDup ks → ks !! i = Some s → dict_get (zip ks vs) s = vs !! i.
Proof.
  revert vs i. induction ks as [|k ks IH]; intros vs i Hnd Hi; [done |].
  apply list.NoDup_cons in Hnd as [Hk Hnd].
  destruct vs as [|v vs]; [by destruct i |].
  unfold dict_get in *. cbn [zip_with list_find]. simpl.
  destruct i as [|i]; simpl in Hi.
  - injection Hi as ->. by rewrite decide_True.
  - rewrite decide_False.
    + rewrite <- option_fmap_compose. simpl. by apply IH.
    + intros ->. apply Hk. by eapply list_elem_of_lookup_2.
Qed.

Lemma py_prefix_all (n : Z) : 4 ≤ n → py_prefix n SEGMENT_NAMES = SEGMENT_NAMES.
Proof.
  intros Hn. unfold py_prefix. rewrite decide_True by lia.
  apply take_ge. simpl. lia.
Qed.

Lemma rfm_rows_segments {A} (mk : A → nat → rfm_row) (proj : A → Qc)
    (rfm : list A) (labels : list nat) :
  (∀ a s, segment (mk a s) = s ∧ monetary (mk a s) = proj a) →
  length labels = length rfm →
  (λ r, (segment r, monetary r)) <$> zip_with mk rfm labels
  = zip labels (proj <$> rfm).
Proof.
  intros Hmk. revert labels.
  induction rfm as [|a rfm IH]; intros [|s labels] Hlen; try done.
  simpl. destruct (Hmk a s) as [-> ->]. f_equal. apply IH.
  simpl in Hlen. lia.
Qed.

(** C10. When the segmentation succeeds with more than four clusters, the
    clusters ranked by mean monetary value, highest first, are paired with
    the four names only: each user's cluster has a rank, a user whose
    cluster is ranked first to fourth carries the name of that rank, and a
    user whose cluster is ranked fifth or later carries no label. *)
Theorem compute_rfm_segments_unlabelled `{Sklearn} (df : DataFrame)
    (n_clusters : Z) (g : rng) (rows : list rfm_row) :
  4 < n_clusters →
  (compute_rfm_segments df n_clusters g).1 = Ok rows →
  let ranked := ranked_segments ((λ r, (segment r, monetary r)) <$> rows) in
  NoDup ranked
  ∧ ∀ r, r ∈ rows →
      ∃ i, ranked !! i = Some (segment r)
        ∧ segment_label r = SEGMENT_NAMES !! i
        ∧ ((4 ≤ i)%nat → segment_label r = None).
Proof.
  intros Hk Hrun ranked. split; [apply NoDup_ranked_segments |].
  unfold compute_rfm_segments in Hrun.
  destruct (StandardScaler_fit_transform _) as [X|e] eqn:HX; [| done].
  unfold KMeans_fit_predict in Hrun.
  repeat case_decide; try done. simpl in Hrun. injection Hrun as Hrows.
  set (labels := (lloyd (RandomState 42) (Z.to_nat n_clusters) 10 X).1) in *.
  assert (length labels = length (rfm_features df)) as Hlen.
  { unfold labels. rewrite lloyd_length.
    unfold StandardScaler_fit_transform in HX.
    destruct (feature_point ∘ snd <$> rfm_features df) eqn:HF; [done |].
    injection HX as <-. by rewrite zscore_length, <- HF, length_fmap. }
  assert ((λ r, (segment r, monetary r)) <$> rows
          = zip labels ((λ r, r.2.2) <$> rfm_features df)) as Hzip.
  { rewrite <- Hrows. by apply rfm_rows_segments. }
  unfold ranked. rewrite Hzip. clear ranked.
  set (ranked := ranked_segments (zip labels ((λ r, r.2.2) <$> rfm_features df))) in *.
  intros r Hr.
  assert (segment r ∈ ranked) as Hin.
  { apply elem_of_ranked_segments. rewrite <- Hzip, <- list_fmap_compose.
    by apply (list_elem_of_fmap_2 (fst ∘ (λ r, (segment r, monetary r)))). }
  apply list_elem_of_lookup in Hin as [i Hi]. exists i. split; [done |].
  assert (segment_label r = SEGMENT_NAMES !! i) as Hlabel.
  { rewrite <- Hrows in Hr.
    apply list_elem_of_lookup in Hr as [j Hj].
    apply lookup_zip_with_Some in Hj as (a & s & -> & _ & _).
    cbn [segment_label segment] in *.
    unfold seg_labels. rewrite py_prefix_all by lia.
    apply dict_get_zip; [apply NoDup_ranked_segments | done]. }
  split; [done |]. intros Hi4. rewrite Hlabel.
  apply lookup_ge_None. simpl. lia.
Qed.

(** ** The properties on concrete frames *)

Lemma every_user_signs_up_Forall (df : DataFrame) :
  Forall (λ e, Exists (λ s, user_id s = user_id e ∧ event_type s = "signup") df) df →
  every_user_signs_up df.
Proof.
  intros Hall e He. rewrite list.Forall_forall in Hall.
  specialize (Hall e He). apply list.Exists_exists in Hall as (s & Hs & Hu & Ht).
  by exists s.
Qed.

Lemma signup_date_is_first_Forall (df : DataFrame) :
  Forall (λ e, series_min (user_dates df (user_id e)) = Some (signup_date e)) df →
  signup_date_is_first df.
Proof. intros Hall e He. rewrite list.Forall_forall in Hall. by apply Hall. Qed.

Lemma cohort_retention_M0_witness :
  cell (compute_cohort_retention cohort_example) 636 0 = Some (of_int 100).
Proof.
  apply (cohort_retention_M0 cohort_example 636 2).
  - apply every_user_signs_up_Forall. by_evaluation.
  - apply signup_date_is_first_Forall. by_evaluation.
  - by_evaluation.
  - lia.
Defined.



Lemma compute_rfm_segments_unlabelled_witness :
  ∃ rows, (@compute_rfm_segments ref_sklearn six_users 5 0).1 = Ok rows
    ∧ ∃ r, r ∈ rows ∧ r_user r = 3 ∧ segment_label r = None.
Proof.
  eexists. split; [vm_compute; reflexivity |].
  eexists. split; [right; right; left |]. split; [reflexivity |].
  match goal with
  | |- segment_label ?r = None =>
      destruct (@compute_rfm_segments_unlabelled ref_sklearn six_users 5 0 _
                  ltac:(lia) ltac:(vm_compute; reflexivity)) as [_ Hall];
      destruct (Hall r ltac:(right; right; left)) as (i & Hi & _ & Hnone)
  end.
  apply Hnone.
  destruct i as [|[|[|[|i]]]]; [vm_compute in Hi; discriminate Hi .. | lia].
Defined.

(** Scenario A of the specification: three users with a signup only. *)
Example scenario_A_rates :
  compute_conversion_rate three_users = Ok (of_int 0)
  ∧ compute_retention_rate three_users 30 = of_int 0
  ∧ compute_churn_rate three_users 60 = of_int 0.
Proof. repeat split; by_evaluation. Qed.

(** The cohort matrix of [cohort_example]: January 2023 keeps one user of
    two in the next month, and March 2023 has no later column. *)
Example cohort_example_matrix :
  m_index (compute_cohort_retention cohort_example) = [636; 638]
  ∧ m_columns (compute_cohort_retention cohort_example) = [0; 1]
  ∧ m_values (compute_cohort_retention cohort_example)
    = [[of_int 100; of_int 50]; [of_int 100; NaN]].
Proof. repeat split; by_evaluation. Qed.

Example scenario_B_conversion :
  compute_conversion_rate scenario_B = Ok (of_int 50).
Proof. by_evaluation. Qed.

Example scenario_D_result :
  ∃ r, compute_ab_test scenario_D = Ok r
    ∧ group_a_users r = 100%nat ∧ group_b_users r = 100%nat
    ∧ group_a_conversions r = 20 ∧ group_b_conversions r = 30
    ∧ rate_a r = of_int 20 ∧ rate_b r = of_int 30 ∧ lift_pct r = of_int 50
    ∧ chi2 r = Fin (Q2Qc (216 # 100)) ∧ significant r = false.
Proof.
  eexists. split; [vm_compute; reflexivity |]. repeat split; by_evaluation.
Qed.

(** What the seed buys: left to the process-wide generator, two clusterings
    of the same two points in a row number the clusters differently. *)
Example KMeans_unseeded_runs_differ :
  let first_run := @KMeans_fit_predict ref_sklearn 2 None 1 two_points 1 in
  let second_run := @KMeans_fit_predict ref_sklearn 2 None 1 two_points first_run.2 in
  first_run.1 = Ok [0; 1]%nat ∧ second_run.1 = Ok [1; 0]%nat.
Proof. split; by_evaluation. Qed.

Example KMeans_seeded_runs_agree :
  let first_run := @KMeans_fit_predict ref_sklearn 2 (Some 42) 1 two_points 1 in
  let second_run := @KMeans_fit_predict ref_sklearn 2 (Some 42) 1 two_points first_run.2 in
  first_run.1 = second_run.1 ∧ first_run.2 = 1.
Proof. split; by_evaluation. Qed.


(* ================================================================= *)
(** * Further properties *)

(** ** Counting *)

Lemma nunique_le {A} `{EqDecision A} (l k : list A) :
  (∀ x, x ∈ l → x ∈ k) → (nunique l ≤ nunique k)%nat.
Proof.
  intros Hsub. unfold nunique. apply submseteq_length.
  apply NoDup_submseteq; [apply NoDup_remove_dups |].
  intros x. rewrite !elem_of_remove_dups. apply Hsub.
Qed.

Lemma nunique_le_length {A} `{EqDecision A} (l : list A) :
  (nunique l ≤ length l)%nat.
Proof.
  unfold nunique. apply submseteq_length.
  apply NoDup_submseteq; [apply NoDup_remove_dups |].
  intros x. by rewrite elem_of_remove_dups.
Qed.

Lemma nunique_users_of (df : DataFrame) :
  nunique (user_id <$> df) = length (users_of df).
Proof. reflexivity. Qed.

(** ** Rates *)

Lemma Qc_of_Z_pos (z : Z) : 0 < z → (0 < Qc_of_Z z)%Qc.
Proof. intros Hz. rewrite <- Z2Qc_inj_0. by rewrite <- Z2Qc_inj_lt. Qed.

Lemma Qc_of_Z_nonneg (z : Z) : 0 ≤ z → (0 ≤ Qc_of_Z z)%Qc.
Proof. intros Hz. rewrite <- Z2Qc_inj_0. by rewrite <- Z2Qc_inj_le. Qed.

Lemma rate_le (a a' b : Z) : 0 < b → a ≤ a' → (rate a b ≤ rate a' b)%Qc.
Proof.
  intros Hb Ha. unfold rate, Qcdiv.
  apply Qcmult_le_compat_r; [| by apply Qc_of_Z_nonneg].
  apply Qcmult_le_compat_r; [by rewrite <- Z2Qc_inj_le |].
  apply Qclt_le_weak, Qcinv_pos. by apply Qc_of_Z_pos.
Qed.

Lemma rate_zero (b : Z) : rate 0 b = 0%Qc.
Proof. unfold rate, Qcdiv. rewrite Z2Qc_inj_0. ring. Qed.

Lemma rate_full (b : Z) : b ≠ 0 → rate b b = Qc_of_Z 100.
Proof. intros Hb. unfold rate. field. by apply Qc_of_Z_ne_0. Qed.

Lemma rate_bounds (a b : Z) :
  0 ≤ a ≤ b → 0 < b → (0 ≤ rate a b ≤ Qc_of_Z 100)%Qc.
Proof.
  intros Ha Hb. split.
  - rewrite <- (rate_zero b). apply rate_le; lia.
  - rewrite <- (rate_full b) by lia. apply rate_le; lia.
Qed.

Lemma rate_lt (a a' b : Z) : 0 < b → a < a' → (rate a b < rate a' b)%Qc.
Proof.
  intros Hb Ha. unfold rate, Qcdiv.
  apply Qcmult_lt_compat_r; [by apply Qc_of_Z_pos |].
  apply Qcmult_lt_compat_r; [apply Qcinv_pos; by apply Qc_of_Z_pos |].
  by rewrite <- Z2Qc_inj_lt.
Qed.

(** ** Conversion rate, lines 70-76 *)

(** X1. On a frame with at least one row the conversion rate is returned,
    and it is the share of the distinct users that have a purchase event,
    in percent: a number between 0 and 100. *)
Theorem compute_conversion_rate_value (df : DataFrame) :
  df ≠ [] →
  compute_conversion_rate df
    = Ok (Fin (rate (Z.of_nat (reach_any_occurrence df "purchase"))
                    (Z.of_nat (length (users_of df)))))
  ∧ (0 ≤ rate (Z.of_nat (reach_any_occurrence df "purchase"))
              (Z.of_nat (length (users_of df))) ≤ Qc_of_Z 100)%Qc.
Proof.
  intros Hdf.
  assert (0 < length (users_of df))%nat as Hpos.
  { rewrite <- nunique_users_of. apply nunique_pos. by destruct df. }
  split.
  - unfold compute_conversion_rate.
    change (nunique (user_id <$> rows_of_type "purchase" df))
      with (step_reach df "purchase").
    rewrite step_reach_any_occurrence, nunique_users_of.
    unfold py_truediv. rewrite decide_False by lia. reflexivity.
  - apply rate_bounds; [| lia]. split; [lia |].
    unfold reach_any_occurrence, users_of. apply inj_le, length_filter.
Qed.

Lemma compute_conversion_rate_value_witness :
  compute_conversion_rate scenario_B
    = Ok (Fin (rate (Z.of_nat (reach_any_occurrence scenario_B "purchase"))
                    (Z.of_nat (length (users_of scenario_B))))).
Proof. apply (compute_conversion_rate_value scenario_B). discriminate. Defined.

(** ** Retention and churn, lines 79-100 *)

Lemma filter_length_mono {A} (P Q : A → Prop) `{∀ x, Decision (P x)}
    `{∀ x, Decision (Q x)} (l : list A) :
  (∀ x, x ∈ l → P x → Q x) → (length (filter P l) ≤ length (filter Q l))%nat.
Proof.
  induction l as [|x l IH]; intros HPQ; [done |].
  rewrite !filter_cons.
  assert (length (filter P l) ≤ length (filter Q l))%nat as IH'
    by (apply IH; intros y Hy; apply HPQ; by right).
  destruct (decide (P x)) as [HP|HP]; destruct (decide (Q x)) as [HQ|HQ];
    simpl; try lia.
  exfalso. apply HQ, HPQ; [left | done].
Qed.

Lemma filter_length_all {A} (P : A → Prop) `{∀ x, Decision (P x)} (l : list A) :
  (∀ x, x ∈ l → P x) → length (filter P l) = length l.
Proof.
  induction l as [|x l IH]; intros HP; [done |].
  rewrite filter_cons, decide_True by (apply HP; left).
  simpl. f_equal. apply IH. intros y Hy. apply HP. by right.
Qed.

Lemma compute_retention_rate_counts (df : DataFrame) (days : Z) :
  df ≠ [] →
  compute_retention_rate df days
  = Fin (rate (Z.of_nat (length (retained_users df days)))
              (Z.of_nat (length (users_of df)))).
Proof.
  intros Hdf. unfold compute_retention_rate.
  rewrite zip_fmap_diag, length_fmap, groupby_user_length.
  rewrite <- !list_fmap_compose, count_groups.
  rewrite rate_of_counts; [done |].
  apply nunique_pos. by destruct df.
Qed.

Lemma retained_iff (df : DataFrame) (days : Z) (u : Z) :
  u ∈ users_of df →
  retained df days u ↔ ∃ g, user_gap df u = Some g ∧ 0 ≤ g ∧ days ≤ g.
Proof.
  intros Hu.
  destruct (user_gap_spec df u Hu) as (lo & hi & Hlo & Hhi & Hb & Hgap).
  unfold retained. rewrite Hgap. simpl. rewrite bool_decide_eq_true.
  pose proof (Hb _ Hlo). split.
  - intros Hd. exists (hi - lo). split; [done | lia].
  - intros (g & [= <-] & _ & Hd). done.
Qed.

(** X2. On a frame with at least one row the retention rate is a number
    between 0 and 100 that does not grow with the horizon, and it is 100 for
    a horizon of zero days or less. *)
Theorem compute_retention_rate_antitone (df : DataFrame) (d1 d2 : Z) :
  df ≠ [] → d1 ≤ d2 →
  ∃ q1 q2, compute_retention_rate df d1 = Fin q1
    ∧ compute_retention_rate df d2 = Fin q2
    ∧ (0 ≤ q2)%Qc ∧ (q2 ≤ q1)%Qc ∧ (q1 ≤ Qc_of_Z 100)%Qc
    ∧ (d1 ≤ 0 → q1 = Qc_of_Z 100).
Proof.
  intros Hdf Hd.
  assert (0 < length (users_of df))%nat as Hpos.
  { rewrite <- nunique_users_of. apply nunique_pos. by destruct df. }
  assert (∀ d, length (retained_users df d) ≤ length (users_of df))%nat as Hle
    by (intros d; apply length_filter).
  eexists _, _. split; [by apply compute_retention_rate_counts |].
  split; [by apply compute_retention_rate_counts |].
  split; [| split; [| split]].
  - apply rate_bounds; [| lia]. specialize (Hle d2). lia.
  - apply rate_le; [lia |]. apply inj_le.
    unfold retained_users. apply filter_length_mono.
    intros u Hu. rewrite !retained_iff by done.
    intros (g & Hg & Hg0 & Hgd). exists g. repeat split; try done. lia.
  - apply rate_bounds; [| lia]. specialize (Hle d1). lia.
  - intros Hd1. unfold retained_users.
    rewrite filter_length_all; [apply rate_full; lia |].
    intros u Hu. apply retained_iff; [done |].
    destruct (user_gap_spec df u Hu) as (lo & hi & Hlo & Hhi & Hb & Hgap).
    pose proof (Hb _ Hlo). exists (hi - lo). split; [done | lia].
Qed.

Lemma compute_retention_rate_antitone_witness :
  ∃ q1 q2, compute_retention_rate cohort_example 0 = Fin q1
    ∧ compute_retention_rate cohort_example 30 = Fin q2
    ∧ (0 ≤ q2)%Qc ∧ (q2 ≤ q1)%Qc ∧ (q1 ≤ Qc_of_Z 100)%Qc
    ∧ (0 ≤ 0 → q1 = Qc_of_Z 100).
Proof.
  apply (compute_retention_rate_antitone cohort_example 0 30); [discriminate | lia].
Defined.

Lemma churned_iff (df : DataFrame) (n : Z) (ref : date) (u : Z) :
  reference_date df = Some ref → u ∈ users_of df →
  churned df n u ↔ ∃ last, user_last df u = Some last ∧ last ≤ ref ∧ n ≤ ref - last.
Proof.
  intros Href Hu. unfold churned. rewrite Href.
  destruct (series_max_is_Some _ (user_dates_nonempty df u Hu)) as [last Hlast].
  unfold user_last. rewrite Hlast. simpl. rewrite bool_decide_eq_true.
  assert (last ≤ ref) as Hle.
  { apply series_max_spec in Hlast as [(e & He & _ & <-)%elem_of_user_dates _].
    apply series_max_spec in Href as [_ Hmax].
    apply Hmax. by apply list_elem_of_fmap_2. }
  split.
  - intros Hn. by exists last.
  - intros (l & [= <-] & _ & Hn). done.
Qed.

(** X3. On a frame with at least one row the churn rate is a number between
    0 and 100 that does not grow with [inactive_days]; it is 100 when
    [inactive_days] is zero or less, and below 100 when it is positive,
    because the user of the latest event is never churned. *)
Theorem compute_churn_rate_antitone (df : DataFrame) (n1 n2 : Z) :
  df ≠ [] → n1 ≤ n2 →
  ∃ q1 q2, compute_churn_rate df n1 = Fin q1
    ∧ compute_churn_rate df n2 = Fin q2
    ∧ (0 ≤ q2)%Qc ∧ (q2 ≤ q1)%Qc ∧ (q1 ≤ Qc_of_Z 100)%Qc
    ∧ (n1 ≤ 0 → q1 = Qc_of_Z 100)
    ∧ (0 < n2 → (q2 < Qc_of_Z 100)%Qc).
Proof.
  intros Hdf Hn.
  assert (0 < length (users_of df))%nat as Hpos.
  { rewrite <- nunique_users_of. apply nunique_pos. by destruct df. }
  assert (∀ d, length (churned_users df d) ≤ length (users_of df))%nat as Hle
    by (intros d; apply length_filter).
  destruct (series_max_is_Some (event_date <$> df)) as [ref Href];
    [by destruct df |].
  eexists _, _. split; [by apply compute_churn_rate_counts |].
  split; [by apply compute_churn_rate_counts |].
  rewrite nunique_users_of.
  split; [| split; [| split; [| split]]].
  - apply rate_bounds; [| lia]. specialize (Hle n2). lia.
  - apply rate_le; [lia |]. apply inj_le.
    unfold churned_users. apply filter_length_mono.
    intros u Hu. rewrite !(churned_iff df _ ref) by done.
    intros (l & Hl & Hlr & Hln). exists l. repeat split; try done. lia.
  - apply rate_bounds; [| lia]. specialize (Hle n1). lia.
  - intros Hn1. unfold churned_users.
    rewrite filter_length_all; [apply rate_full; lia |].
    intros u Hu. apply (churned_iff df _ ref); [done | done |].
    destruct (series_max_is_Some _ (user_dates_nonempty df u Hu)) as [last Hlast].
    exists last. split; [done |].
    assert (last ≤ ref); [| lia].
    apply series_max_spec in Hlast as [(e & He & _ & <-)%elem_of_user_dates _].
    apply series_max_spec in Href as [_ Hmax].
    apply Hmax. by apply list_elem_of_fmap_2.
  - intros Hn2.
    assert (length (churned_users df n2) < length (users_of df))%nat as Hlt.
    { pose proof (series_max_spec _ _ Href)
        as [(e & -> & He)%list_elem_of_fmap Hmax].
      unfold churned_users. apply (length_filter_lt _ _ (user_id e)).
      - apply elem_of_users_of. by exists e.
      - rewrite (churned_iff df _ (event_date e));
          [| done | apply elem_of_users_of; by exists e].
        intros (l & Hl & Hlr & Hln).
        unfold user_last in Hl.
        rewrite (series_max_unique _ (event_date e)) in Hl.
        + injection Hl as <-. lia.
        + apply elem_of_user_dates. by exists e.
        + intros d (e' & He' & _ & <-)%elem_of_user_dates.
          apply Hmax. by apply list_elem_of_fmap_2. }
    pose proof (rate_lt _ _ (Z.of_nat (length (users_of df)))
                  ltac:(lia) (inj_lt _ _ Hlt)) as Hrate.
    rewrite rate_full in Hrate by lia. exact Hrate.
Qed.

Lemma compute_churn_rate_antitone_witness :
  ∃ q1 q2, compute_churn_rate cohort_example 0 = Fin q1
    ∧ compute_churn_rate cohort_example 40 = Fin q2
    ∧ (0 ≤ q2)%Qc ∧ (q2 ≤ q1)%Qc ∧ (q1 ≤ Qc_of_Z 100)%Qc
    ∧ (0 ≤ 0 → q1 = Qc_of_Z 100)
    ∧ (0 < 40 → (q2 < Qc_of_Z 100)%Qc).
Proof.
  apply (compute_churn_rate_antitone cohort_example 0 40); [discriminate | lia].
Defined.

(** ** The KPI summary, lines 103-123 *)

Lemma compute_conversion_rate_Ok (df : DataFrame) :
  df ≠ [] → ∃ q, compute_conversion_rate df = Ok q.
Proof.
  intros Hdf. unfold compute_conversion_rate, py_truediv.
  rewrite decide_False; [by eexists |].
  pose proof (nunique_pos (user_id <$> df)) as Hpos.
  specialize (Hpos ltac:(by destruct df)). lia.
Qed.

Lemma get_kpi_summary_Raise_iff (df : DataFrame) :
  get_kpi_summary df = Raise ZeroDivisionError ↔ df = [].
Proof.
  split; [| by intros ->].
  intros Hraise. destruct df as [|e df]; [done |].
  destruct (compute_conversion_rate_Ok (e :: df) ltac:(done)) as [q Hq].
  unfold get_kpi_summary in Hraise. by rewrite Hq in Hraise.
Qed.

(** X4. [get_kpi_summary] fails exactly on the empty frame, and then with
    [ZeroDivisionError] from the conversion rate; taken alone, the retention
    rate, the churn rate and the ARPU of the empty frame are [NaN], without
    an exception. *)
Theorem get_kpi_summary_fails_iff_empty (df : DataFrame) :
  (get_kpi_summary df = Raise ZeroDivisionError ↔ df = [])
  ∧ (∀ e, get_kpi_summary df = Raise e → e = ZeroDivisionError)
  ∧ (df ≠ [] → ∃ k, get_kpi_summary df = Ok k
       ∧ kpi_total_users k = length (users_of df)
       ∧ kpi_total_events k = length df
       ∧ (1 ≤ kpi_total_users k ≤ kpi_total_events k)%nat)
  ∧ (∀ days, compute_retention_rate [] days = NaN)
  ∧ (∀ days, compute_churn_rate [] days = NaN)
  ∧ compute_arpu [] = NaN.
Proof.
  pose proof (compute_conversion_rate_Ok df) as Hok.
  split; [| split; [| split; [| split; [| split]]]]; try reflexivity.
  - apply get_kpi_summary_Raise_iff.
  - intros e. destruct df as [|e0 df]; [by intros [= <-] |].
    destruct (Hok ltac:(done)) as [q Hq].
    unfold get_kpi_summary. by rewrite Hq.
  - intros Hdf. destruct (Hok Hdf) as [q Hq].
    unfold get_kpi_summary. rewrite Hq. eexists. split; [reflexivity |].
    cbn [kpi_total_users kpi_total_events].
    split; [reflexivity |]. split; [reflexivity |].
    pose proof (nunique_pos (user_id <$> df) ltac:(by destruct df)).
    pose proof (nunique_le_length (user_id <$> df)) as Hle.
    rewrite length_fmap in Hle. lia.
Qed.

(** ** Daily and monthly active users, lines 22-45 *)

Lemma nunique_users_where (P : event → Prop) `{∀ e, Decision (P e)}
    (df : DataFrame) :
  nunique (user_id <$> filter P df) = length (users_where P df).
Proof.
  unfold users_where, users_of. apply nunique_NoDup_ext.
  - apply list.NoDup_filter, NoDup_remove_dups.
  - intros u. rewrite list_elem_of_filter, elem_of_remove_dups.
    rewrite !list_elem_of_fmap, list.Exists_exists. split.
    + intros (e & -> & [HP He]%list_elem_of_filter).
      split; exists e; done.
    + intros [(e & He & Hu & HP) _]. exists e. split; [done |].
      by apply list_elem_of_filter.
Qed.

Lemma users_where_le (P Q : event → Prop) `{∀ e, Decision (P e)}
    `{∀ e, Decision (Q e)} (df : DataFrame) :
  (∀ e, e ∈ df → P e → Q e) →
  (length (users_where P df) ≤ length (users_where Q df))%nat.
Proof.
  intros HPQ. unfold users_where. apply filter_length_mono.
  intros u _. rewrite !list.Exists_exists.
  intros (e & He & Hu & HP). exists e. auto.
Qed.

Lemma sorted_unique_strict (l : list Z) : StronglySorted Z.lt (sorted_unique l).
Proof.
  pose proof (NoDup_sorted_unique l) as Hnd.
  assert (StronglySorted Z.le (sorted_unique l)) as Hs
    by apply (StronglySorted_merge_sort Z.le).
  induction Hs as [|x k Hs IH Hall]; [constructor |].
  apply list.NoDup_cons in Hnd as [Hx Hnd].
  constructor; [by apply IH |].
  rewrite list.Forall_forall in *. intros y Hy.
  specialize (Hall y Hy). assert (x ≠ y) by (by intros ->). lia.
Qed.

(** X5. [compute_dau] lists each event date of the frame exactly once, in
    strictly ascending order, with the number of distinct users that have an
    event on that date: at least 1 and at most the number of users. *)
Theorem compute_dau_listing (df : DataFrame) :
  StronglySorted Z.lt (fst <$> compute_dau df)
  ∧ (∀ d, d ∈ fst <$> compute_dau df ↔ d ∈ event_date <$> df)
  ∧ (∀ d n, (d, n) ∈ compute_dau df →
       n = length (users_where (λ e, event_date e = d) df)
       ∧ (1 ≤ n ≤ length (users_of df))%nat).
Proof.
  assert (fst <$> compute_dau df = sorted_unique (event_date <$> df)) as Hkeys.
  { unfold compute_dau. rewrite <- list_fmap_compose.
    rewrite (list_fmap_ext _ id) by done. apply list_fmap_id. }
  unfold date in *.
  split; [rewrite Hkeys; apply sorted_unique_strict |].
  split; [intros d; rewrite Hkeys; apply elem_of_sorted_unique |].
  intros d n (d' & [= -> ->] & Hd)%list_elem_of_fmap.
  rewrite elem_of_sorted_unique in Hd.
  rewrite nunique_users_where. split; [reflexivity |]. split.
  - apply list_elem_of_fmap in Hd as (e & -> & He).
    rewrite <- nunique_users_where. apply nunique_pos.
    intros Hnil.
    assert (user_id e ∈ user_id <$> filter (λ e0, event_date e0 = event_date e) df)
      as Hin by (apply list_elem_of_fmap_2, list_elem_of_filter; done).
    rewrite Hnil in Hin. by apply elem_of_nil in Hin.
  - unfold users_where. apply length_filter.
Qed.

(** X6. The users active on a day are active in the month of that day: each
    entry of [compute_dau] is at most the entry of [compute_mau] for the
    month of its date, which exists and is at most the number of users. *)
Theorem compute_dau_le_mau (df : DataFrame) (d : date) (n : nat) :
  (d, n) ∈ compute_dau df →
  ∃ k, (to_period_M d, k) ∈ compute_mau df
    ∧ (n ≤ k ≤ length (users_of df))%nat.
Proof.
  intros (d' & [= -> ->] & Hd)%list_elem_of_fmap.
  rewrite elem_of_sorted_unique in Hd.
  apply list_elem_of_fmap in Hd as (e & -> & He).
  eexists. split.
  - unfold compute_mau. apply (list_elem_of_fmap_2' _ _ (event_month e)).
    + apply elem_of_sorted_unique. by apply list_elem_of_fmap_2.
    + reflexivity.
  - rewrite !nunique_users_where. split.
    + apply users_where_le. intros e' _ Hd. unfold event_month. by rewrite Hd.
    + unfold users_where. apply length_filter.
Qed.

Lemma compute_dau_le_mau_witness :
  ∃ k, (to_period_M (days_from_civil 2023 1 5), k) ∈ compute_mau cohort_example
    ∧ (1 ≤ k ≤ length (users_of cohort_example))%nat.
Proof.
  apply (compute_dau_le_mau cohort_example (days_from_civil 2023 1 5) 1).
  by_evaluation.
Defined.

(** ** Revenue trend, lines 48-67 *)





(** ** Percentages *)

Lemma Qcle_of_Z_l (lo : Z) (q : Qc) :
  (Qc_of_Z lo ≤ q)%Qc ↔ lo * Z.pos (Qden q) ≤ Qnum q.
Proof. unfold Qcle, Qle. simpl. rewrite Z.mul_1_r. reflexivity. Qed.

Lemma Qcle_of_Z_r (hi : Z) (q : Qc) :
  (q ≤ Qc_of_Z hi)%Qc ↔ Qnum q ≤ hi * Z.pos (Qden q).
Proof. unfold Qcle, Qle. simpl. rewrite Z.mul_1_r. reflexivity. Qed.

(** Rounding to the nearest integer stays between integer bounds. *)
Lemma rint_bounds (lo hi : Z) (q : Qc) :
  (Qc_of_Z lo ≤ q)%Qc → (q ≤ Qc_of_Z hi)%Qc → lo ≤ rint q ≤ hi.
Proof.
  rewrite Qcle_of_Z_l, Qcle_of_Z_r. intros Hlo Hhi. unfold rint.
  set (n := Qnum q) in *. set (d := Z.pos (Qden q)) in *.
  assert (0 < d) as Hd by (unfold d; lia).
  pose proof (Z.div_mod n d ltac:(lia)) as Hdm.
  pose proof (Z.mod_pos_bound n d Hd) as Hmod.
  assert (lo ≤ n `div` d) by (apply Z.div_le_lower_bound; lia).
  assert (n `div` d ≤ hi) by (apply Z.div_le_upper_bound; lia).
  destruct (2 * (n `mod` d) ?= d) eqn:Hcmp.
  - apply Z.compare_eq in Hcmp.
    destruct (Z.even (n `div` d)); [lia |]. nia.
  - lia.
  - apply Z.compare_gt_iff in Hcmp. nia.
Qed.

Lemma fround1_bounds (lo hi : Z) (q : Qc) :
  (Qc_of_Z lo ≤ q)%Qc → (q ≤ Qc_of_Z hi)%Qc →
  ∃ q', fround1 (Fin q) = Fin q' ∧ (Qc_of_Z lo ≤ q')%Qc ∧ (q' ≤ Qc_of_Z hi)%Qc.
Proof.
  intros Hlo Hhi. eexists. split; [reflexivity |].
  assert (0 < Qc_of_Z 10)%Qc as H10 by (by apply Qc_of_Z_pos).
  destruct (rint_bounds (lo * 10) (hi * 10) (q * Qc_of_Z 10)) as [Hl Hh].
  - rewrite Z2Qc_inj_mul. by apply Qcmult_le_compat_r; [| apply Qclt_le_weak].
  - rewrite Z2Qc_inj_mul. by apply Qcmult_le_compat_r; [| apply Qclt_le_weak].
  - split.
    + apply (Qcmult_le_mono_pos_r _ _ (Qc_of_Z 10)); [done |].
      replace (Qc_of_Z (rint (q * Qc_of_Z 10)) / Qc_of_Z 10 * Qc_of_Z 10)%Qc
        with (Qc_of_Z (rint (q * Qc_of_Z 10)))
        by (field; by apply Qc_of_Z_ne_0).
      rewrite <- Z2Qc_inj_mul. by rewrite <- Z2Qc_inj_le.
    + apply (Qcmult_le_mono_pos_r _ _ (Qc_of_Z 10)); [done |].
      replace (Qc_of_Z (rint (q * Qc_of_Z 10)) / Qc_of_Z 10 * Qc_of_Z 10)%Qc
        with (Qc_of_Z (rint (q * Qc_of_Z 10)))
        by (field; by apply Qc_of_Z_ne_0).
      rewrite <- Z2Qc_inj_mul. by rewrite <- Z2Qc_inj_le.
Qed.

(** A share of a positive count, in percent and rounded, is a number between
    0 and 100. *)
Lemma pct_bounds (a b : nat) :
  (a ≤ b)%nat → (0 < b)%nat →
  ∃ q, pct (of_nat a) (of_nat b) = Fin q ∧ (0 ≤ q)%Qc ∧ (q ≤ Qc_of_Z 100)%Qc.
Proof.
  intros Hab Hb. unfold pct, of_nat. rewrite fdiv_of_int by lia.
  change (fmul (Fin ?x) (of_int 100)) with (Fin (x * Qc_of_Z 100)).
  destruct (rate_bounds (Z.of_nat a) (Z.of_nat b)) as [Hlo Hhi]; [lia | lia |].
  rewrite <- Z2Qc_inj_0 in Hlo.
  destruct (fround1_bounds 0 100 _ Hlo Hhi) as (q & Hq & Hq0 & Hq100).
  exists q. rewrite Z2Qc_inj_0 in Hq0. done.
Qed.

Lemma fsub_100_bounds (q : Qc) :
  (0 ≤ q)%Qc → (q ≤ Qc_of_Z 100)%Qc →
  ∃ q', fsub (of_int 100) (Fin q) = Fin q' ∧ (0 ≤ q')%Qc ∧ (q' ≤ Qc_of_Z 100)%Qc.
Proof.
  intros H0 H100. eexists. split; [reflexivity |]. split.
  - apply (Qcplus_le_mono_r _ _ q).
    replace (Qc_of_Z 100 + - q + q)%Qc with (Qc_of_Z 100) by ring.
    by replace (0 + q)%Qc with q by ring.
  - apply (Qcplus_le_mono_r _ _ q).
    replace (Qc_of_Z 100 + - q + q)%Qc with (Qc_of_Z 100 + 0)%Qc by ring.
    by apply Qcplus_le_mono_l.
Qed.

(** ** The funnel table, lines 130-153 *)

Lemma step_reach_le_users (df : DataFrame) (s : string) :
  (step_reach df s ≤ length (users_of df))%nat.
Proof.
  rewrite step_reach_any_occurrence. unfold reach_any_occurrence, users_of.
  apply length_filter.
Qed.

Lemma step_reach_signup (df : DataFrame) :
  every_user_signs_up df → step_reach df "signup" = length (users_of df).
Proof.
  intros Hsign. rewrite step_reach_any_occurrence. unfold reach_any_occurrence.
  fold (users_of df). rewrite filter_length_all; [done |].
  intros u [e [He Hu]]%elem_of_users_of.
  destruct (Hsign e He) as (s & Hs & Hsu & Hst).
  unfold has_event. rewrite list.Exists_exists. exists s. split; [done |].
  split; [congruence | done].
Qed.

(** The rows of the table, written with the counts of the loop. *)
Lemma compute_funnel_rows (df : DataFrame) :
  let n := step_reach df in
  let row := λ s prev,
    {| step := s; users := n s;
       conversion_from_prev := pct (of_nat (n s)) (of_nat (n prev));
       conversion_from_top := pct (of_nat (n s)) (of_nat (n "signup"));
       dropoff_pct := fsub (of_int 100) (pct (of_nat (n s)) (of_nat (n prev))) |} in
  compute_funnel df = Ok
    [ {| step := "signup"; users := n "signup";
         conversion_from_prev := of_int 100;
         conversion_from_top := pct (of_nat (n "signup")) (of_nat (n "signup"));
         dropoff_pct := of_int 0 |};
      row "login" "signup"; row "view_product" "login";
      row "add_to_cart" "view_product"; row "purchase" "add_to_cart" ].
Proof.
  intros n row. unfold compute_funnel, funnel_frame, FUNNEL_STEPS. simpl.
  unfold row, pct. rewrite !fround1_100_minus. done.
Qed.

Lemma pct_zero_zero : pct (of_nat 0) (of_nat 0) = NaN.
Proof. reflexivity. Qed.

Lemma pct_pos_zero (a : nat) : (0 < a)%nat → pct (of_nat a) (of_nat 0) = PosInf.
Proof.
  intros Ha. unfold pct, of_nat, of_int, fdiv.
  rewrite !Qc_sgn_of_Z. simpl Z.sgn.
  rewrite decide_True by done. rewrite decide_False by lia.
  unfold inf_of_sign. rewrite decide_True by lia. reflexivity.
Qed.

Lemma pct_above (a b : nat) :
  (0 < b)%nat → (b ≤ a)%nat →
  ∃ q, pct (of_nat a) (of_nat b) = Fin q ∧ (Qc_of_Z 100 ≤ q)%Qc.
Proof.
  intros Hb Hab. unfold pct, of_nat. rewrite fdiv_of_int by lia.
  change (fmul (Fin ?x) (of_int 100)) with (Fin (x * Qc_of_Z 100)).
  fold (rate (Z.of_nat a) (Z.of_nat b)).
  assert (Qc_of_Z 100 ≤ rate (Z.of_nat a) (Z.of_nat b))%Qc as Hlo.
  { rewrite <- (rate_full (Z.of_nat b)) by lia. apply rate_le; lia. }
  assert (rate (Z.of_nat a) (Z.of_nat b) ≤ Qc_of_Z (100 * Z.of_nat a))%Qc as Hhi.
  { unfold rate. rewrite Z2Qc_inj_mul, (Qcmult_comm (Qc_of_Z 100)).
    apply Qcmult_le_compat_r; [| by apply Qc_of_Z_nonneg].
    apply (Qcmult_le_mono_pos_r _ _ (Qc_of_Z (Z.of_nat b)));
      [apply Qc_of_Z_pos; lia |].
    replace (Qc_of_Z (Z.of_nat a) / Qc_of_Z (Z.of_nat b) * Qc_of_Z (Z.of_nat b))%Qc
      with (Qc_of_Z (Z.of_nat a)) by (field; apply Qc_of_Z_ne_0; lia).
    rewrite <- Z2Qc_inj_mul, <- Z2Qc_inj_le. nia. }
  destruct (fround1_bounds 100 _ _ Hlo Hhi) as (q & Hq & Hq100 & _).
  by exists q.
Qed.

(** The drop-off of a step after the first, by the reach [b] of the step
    before and the reach [a] of the step itself. *)
Lemma dropoff_cases (a b : nat) :
  let c := pct (of_nat a) (of_nat b) in
  let d := fsub (of_int 100) c in
  ((0 < b)%nat → (a ≤ b)%nat →
     ∃ q, d = Fin q ∧ (0 ≤ q)%Qc ∧ (q ≤ Qc_of_Z 100)%Qc ∧ c = Fin (Qc_of_Z 100 - q)%Qc)
  ∧ ((0 < b)%nat → (b ≤ a)%nat → ∃ q, d = Fin q ∧ (q ≤ 0)%Qc)
  ∧ (b = 0%nat → (0 < a)%nat → d = NegInf)
  ∧ (b = 0%nat → a = 0%nat → d = NaN).
Proof.
  intros c d. subst c d. repeat split.
  - intros Hb Hab. destruct (pct_bounds a b Hab Hb) as (q & -> & H0 & H100).
    destruct (fsub_100_bounds q H0 H100) as (q' & Hq' & H0' & H100').
    exists q'. repeat split; try done. f_equal.
    apply Fin_inj in Hq'. rewrite <- Hq'. ring.
  - intros Hb Hab. destruct (pct_above a b Hb Hab) as (q & -> & H100).
    eexists. split; [reflexivity |].
    apply (Qcplus_le_mono_r _ _ q).
    replace (Qc_of_Z 100 + - q + q)%Qc with (Qc_of_Z 100) by ring.
    by replace (0 + q)%Qc with q by ring.
  - intros -> Ha. by rewrite pct_pos_zero.
  - by intros -> ->.
Qed.

(** X8. When every user of a non-empty frame has a signup event, the funnel
    table has the five steps in order, its first row counts every distinct
    user and shows 100 percent of the top, and in every row the number of
    users is at most the number of distinct users and
    [conversion_from_top] is a number between 0 and 100. *)
Theorem compute_funnel_shares (df : DataFrame) :
  every_user_signs_up df → df ≠ [] →
  ∃ t, compute_funnel df = Ok t
    ∧ step <$> t = FUNNEL_STEPS
    ∧ (∃ r0, t !! 0%nat = Some r0 ∧ users r0 = length (users_of df)
         ∧ conversion_from_top r0 = of_int 100)
    ∧ ∀ r, r ∈ t →
        (users r ≤ length (users_of df))%nat
        ∧ ∃ q, conversion_from_top r = Fin q ∧ (0 ≤ q)%Qc ∧ (q ≤ Qc_of_Z 100)%Qc.
Proof.
  intros Hsign Hdf.
  assert (0 < length (users_of df))%nat as Hpos.
  { rewrite <- nunique_users_of. apply nunique_pos. by destruct df. }
  pose proof (step_reach_signup df Hsign) as Htop.
  eexists. split; [apply compute_funnel_rows |]. cbv zeta.
  split; [reflexivity |]. split.
  - eexists. split; [reflexivity |]. split; [done |]. simpl.
    rewrite Htop. by apply pct_full.
  - intros r Hr.
    assert (∃ s, users r = step_reach df s
              ∧ conversion_from_top r
                = pct (of_nat (step_reach df s)) (of_nat (step_reach df "signup")))
      as (s & -> & ->).
    { rewrite !elem_of_cons, elem_of_nil in Hr.
      destruct Hr as [-> | [-> | [-> | [-> | [-> | []]]]]]; eexists; by split. }
    split; [apply step_reach_le_users |].
    apply pct_bounds; rewrite Htop; [apply step_reach_le_users | done].
Qed.

Lemma compute_funnel_shares_witness :
  ∃ t, compute_funnel scenario_B = Ok t ∧ step <$> t = FUNNEL_STEPS.
Proof.
  destruct (compute_funnel_shares scenario_B) as (t & Ht & Hsteps & _).
  - apply every_user_signs_up_Forall. by_evaluation.
  - discriminate.
  - by exists t.
Defined.

(** Two consecutive rows of the table. *)
Lemma compute_funnel_consecutive (df : DataFrame) (t : list funnel_row)
    (i : nat) (rp r : funnel_row) :
  compute_funnel df = Ok t → t !! i = Some rp → t !! S i = Some r →
  dropoff_pct r = fsub (of_int 100) (pct (of_nat (users r)) (of_nat (users rp)))
  ∧ conversion_from_prev r = pct (of_nat (users r)) (of_nat (users rp))
  ∧ ∃ a b, FUNNEL_STEPS !! i = Some a ∧ FUNNEL_STEPS !! S i = Some b
      ∧ users rp = step_reach df a ∧ users r = step_reach df b.
Proof.
  rewrite compute_funnel_rows. cbv zeta. intros [= <-] Hrp Hr.
  destruct i as [|[|[|[|i]]]]; simpl in Hrp, Hr; try done;
    injection Hrp as <-; injection Hr as <-;
    (split; [done |]); (split; [done |]); eexists; eexists; done.
Qed.

(** With a signup in the frame, the bottleneck of its table is defined. *)
Lemma bottleneck_defined (df : DataFrame) :
  (0 < step_reach df "signup")%nat →
  ∃ t i r, compute_funnel df = Ok t
    ∧ bottleneck t = Ok (Some (i, step r, dropoff_pct r))
    ∧ (1 ≤ i ≤ 4)%nat ∧ t !! i = Some r ∧ dropoff_pct r ≠ NaN.
Proof.
  intros Hpos.
  destruct (compute_funnel_dropoff_finite df Hpos) as (t & Ht & Hlen & r1 & Hr1 & Hfin).
  assert (length t = 5%nat) as Hlen5.
  { rewrite compute_funnel_rows in Ht. cbv zeta in Ht. by injection Ht as <-. }
  exists t. unfold bottleneck. rewrite decide_True by done.
  destruct (idxmax_spec 1 (dropoff_pct <$> drop 1 t))
    as (k & v & -> & Hk & Hv & _).
  { exists 0%nat, (dropoff_pct r1). rewrite list_lookup_fmap, lookup_drop.
    simpl. by rewrite Hr1. }
  rewrite list_lookup_fmap, lookup_drop in Hk.
  destruct (t !! (1 + k)%nat) as [ri|] eqn:Hri; [| done].
  injection Hk as <-. unfold rbind. rewrite Hri.
  exists (1 + k)%nat, ri. repeat split; try done; try lia.
  apply lookup_lt_Some in Hri. lia.
Qed.


(** X10. The bottleneck of the table computed from a frame.  When some user
    has a signup event the bottleneck exists: it is one of the four steps
    after the first, and the drop-off shown for it is not a missing value.
    When the frame has no event of any of the five funnel types (an empty
    frame among them) every drop-off after the first row is missing and the
    selection raises. *)
Theorem bottleneck_of_compute_funnel (df : DataFrame) :
  ∃ t, compute_funnel df = Ok t
    ∧ ((0 < step_reach df "signup")%nat →
         ∃ i r, bottleneck t = Ok (Some (i, step r, dropoff_pct r))
           ∧ (1 ≤ i ≤ 4)%nat ∧ t !! i = Some r ∧ dropoff_pct r ≠ NaN)
    ∧ ((∀ s, s ∈ FUNNEL_STEPS → step_reach df s = 0%nat) →
         (∀ i r, (1 ≤ i)%nat → t !! i = Some r → dropoff_pct r = NaN)
         ∧ bottleneck t = Raise ValueError).
Proof.
  eexists. split; [apply compute_funnel_rows |]. cbv zeta. split.
  - intros Hpos.
    destruct (bottleneck_defined df Hpos) as (t & i & r & Ht & Hb & Hi & Hr & Hnum).
    rewrite compute_funnel_rows in Ht. cbv zeta in Ht. injection Ht as Ht.
    rewrite Ht. by exists i, r.
  - intros Hzero.
    rewrite !Hzero by by_evaluation.
    split; [| reflexivity].
    intros i r Hi Hr.
    destruct i as [|[|[|[|[|i]]]]]; simpl in Hr; try done; try lia;
      by injection Hr as <-.
Qed.

(** ** The cohort matrix, lines 158-217 *)

Lemma elem_of_cohort_active (df : DataFrame) (m p u : Z) :
  u ∈ cohort_active df m p ↔
  0 ≤ p ∧ ∃ e, e ∈ df ∧ user_id e = u ∧ signup_month e = m ∧ event_month e = m + p.
Proof.
  unfold cohort_active. rewrite list_elem_of_fmap. split.
  - intros (a & -> & [Hk [Hp Ha]%list_elem_of_filter]%list_elem_of_filter).
    apply elem_of_user_activity in Ha as (e & He & Hu & Hs & Hev).
    unfold cohort_key, period in *. injection Hk as Hm Hper.
    split; [lia |]. exists e. repeat split; try done; lia.
  - intros (Hp & e & He & Hu & Hs & Hev).
    destruct (user_activity_of_event df e He) as (a & Ha & Hau & Has & Hae).
    exists a. split; [congruence |].
    assert (period a = p) as Hpa by (unfold period; lia).
    apply list_elem_of_filter. split.
    + unfold cohort_key. rewrite Hpa. congruence.
    + apply list_elem_of_filter. split; [lia | done].
Qed.

Lemma cohort_key_present (df : DataFrame) (m p : Z) :
  (m, p) ∈ cohort_key <$> filter (λ a, 0 ≤ period a) (user_activity df)
  ↔ cohort_active df m p ≠ [].
Proof.
  unfold cohort_active. split.
  - intros (a & Hk & Ha)%list_elem_of_fmap Hnil.
    apply fmap_nil_inv in Hnil.
    assert (a ∈ filter (λ a, cohort_key a = (m, p))
                       (filter (λ a, 0 ≤ period a) (user_activity df))) as Hin
      by (by apply list_elem_of_filter).
    rewrite Hnil in Hin. by apply elem_of_nil in Hin.
  - intros Hne.
    destruct (filter (λ a, cohort_key a = (m, p))
                     (filter (λ a, 0 ≤ period a) (user_activity df)))
      as [|a l] eqn:Hf; [done |].
    assert (a ∈ a :: l) as Hin by left. rewrite <- Hf in Hin.
    apply list_elem_of_filter in Hin as [Hk Ha].
    apply list_elem_of_fmap. by exists a.
Qed.

Lemma cohort_size_present (df : DataFrame) (m : Z) :
  m ∈ signup_month <$> rows_of_type "signup" df ↔ cohort_signups df m ≠ [].
Proof.
  unfold cohort_signups. split.
  - intros (e & -> & He)%list_elem_of_fmap Hnil.
    apply fmap_nil_inv in Hnil.
    assert (e ∈ filter (λ e0, signup_month e0 = signup_month e)
                       (rows_of_type "signup" df)) as Hin
      by (by apply list_elem_of_filter).
    rewrite Hnil in Hin. by apply elem_of_nil in Hin.
  - intros Hne.
    destruct (filter (λ e, signup_month e = m) (rows_of_type "signup" df))
      as [|e l] eqn:Hf; [done |].
    assert (e ∈ e :: l) as Hin by left. rewrite <- Hf in Hin.
    apply list_elem_of_filter in Hin as [Hm He].
    apply list_elem_of_fmap. by exists e.
Qed.

(** The rows of the merged frame for one cohort month and one period. *)
Lemma elem_of_cohort_merged_cell (df : DataFrame) (m p : Z) (x : float64) :
  x ∈ c_retention <$>
        filter (λ r, c_signup_month r = m ∧ c_period r = p) (cohort_merged df)
  ↔ cohort_active df m p ≠ [] ∧ cohort_signups df m ≠ []
    ∧ x = pct (of_nat (nunique (cohort_active df m p)))
              (of_nat (nunique (cohort_signups df m))).
Proof.
  rewrite list_elem_of_fmap. split.
  - intros (r & -> & [[Hm Hp] Hr]%list_elem_of_filter).
    apply elem_of_cohort_merged in Hr as (Hd & Hs & ->).
    rewrite Hm, Hp in Hd. rewrite Hm in Hs.
    apply elem_of_cohort_data in Hd as [Hk ->].
    apply elem_of_cohort_sizes in Hs as [Hsz ->].
    by rewrite <- cohort_key_present, <- cohort_size_present.
  - intros (Ha & Hs & ->).
    exists {| c_signup_month := m; c_period := p;
              c_active_users := nunique (cohort_active df m p);
              c_cohort_size := nunique (cohort_signups df m);
              c_retention := pct (of_nat (nunique (cohort_active df m p)))
                                 (of_nat (nunique (cohort_signups df m))) |}.
    split; [done |]. apply list_elem_of_filter. split; [done |].
    apply elem_of_cohort_merged. simpl. split; [| split; [| done]].
    + apply elem_of_cohort_data. by rewrite cohort_key_present.
    + apply elem_of_cohort_sizes. by rewrite cohort_size_present.
Qed.

Lemma fsum_constant_Fin (l : list float64) (q : Qc) :
  (∀ x, x ∈ l → x = Fin q) → fsum l = Fin (q * Qc_of_Z (Z.of_nat (length l)))%Qc.
Proof.
  induction l as [|x l IH]; intros Hall.
  - change (Fin (Qc_of_Z 0) = Fin (q * Qc_of_Z 0)%Qc). f_equal.
    rewrite Z2Qc_inj_0. ring.
  - unfold fsum in *. cbn [foldr length].
    rewrite IH by (intros y Hy; apply Hall; by right).
    rewrite (Hall x) by left. unfold fadd. f_equal.
    rewrite Nat2Z.inj_succ, <- Z.add_1_r, Z2Qc_inj_add, Z2Qc_inj_1. ring.
Qed.

Lemma fmean_constant_Fin (l : list float64) (q : Qc) :
  l ≠ [] → (∀ x, x ∈ l → x = Fin q) → fmean l = Fin q.
Proof.
  intros Hne Hall. destruct l as [|x l]; [done |].
  unfold fmean. rewrite (fsum_constant_Fin _ q) by done.
  unfold of_nat, of_int, fdiv. rewrite Qc_sgn_of_Z.
  rewrite decide_False by (simpl; lia).
  f_equal. field. apply Qc_of_Z_ne_0. simpl. lia.
Qed.

Lemma pct_is_Fin (a b : nat) :
  (0 < b)%nat → ∃ q, pct (of_nat a) (of_nat b) = Fin q.
Proof.
  intros Hb. unfold pct, of_nat. rewrite fdiv_of_int by lia.
  eexists. reflexivity.
Qed.

Lemma cohort_merged_keys (df : DataFrame) (r : cohort_row) :
  r ∈ cohort_merged df →
  cohort_active df (c_signup_month r) (c_period r) ≠ []
  ∧ cohort_signups df (c_signup_month r) ≠ [].
Proof.
  intros Hr.
  assert (c_retention r ∈ c_retention <$>
            filter (λ r', c_signup_month r' = c_signup_month r
                          ∧ c_period r' = c_period r) (cohort_merged df)) as Hin.
  { apply list_elem_of_fmap_2, list_elem_of_filter. done. }
  apply elem_of_cohort_merged_cell in Hin as (Ha & Hs & _). done.
Qed.

Lemma cohort_merged_row (df : DataFrame) (m p : Z) :
  cohort_active df m p ≠ [] → cohort_signups df m ≠ [] →
  ∃ r, r ∈ cohort_merged df ∧ c_signup_month r = m ∧ c_period r = p.
Proof.
  intros Ha Hs.
  pose proof (proj2 (elem_of_cohort_merged_cell df m p _)
                (conj Ha (conj Hs eq_refl))) as Hin.
  apply list_elem_of_fmap in Hin as (r & _ & Hr).
  apply list_elem_of_filter in Hr as [[Hm Hp] Hr]. by exists r.
Qed.

Lemma elem_of_cohort_index (df : DataFrame) (m : Z) :
  m ∈ m_index (compute_cohort_retention df)
  ↔ cohort_signups df m ≠ [] ∧ ∃ p, cohort_active df m p ≠ [].
Proof.
  unfold compute_cohort_retention. cbn [m_index].
  rewrite elem_of_sorted_unique, list_elem_of_fmap. split.
  - intros (r & -> & Hr). destruct (cohort_merged_keys df r Hr) as [Ha Hs].
    split; [done |]. by exists (c_period r).
  - intros (Hs & p & Ha).
    destruct (cohort_merged_row df m p Ha Hs) as (r & Hr & Hm & _).
    by exists r.
Qed.


Lemma cohort_cell_lookup (df : DataFrame) (m p : Z) :
  m ∈ m_index (compute_cohort_retention df) →
  p ∈ m_columns (compute_cohort_retention df) →
  cell (compute_cohort_retention df) m p
  = Some (fmean (c_retention <$>
            filter (λ r, c_signup_month r = m ∧ c_period r = p) (cohort_merged df))).
Proof.
  intros Hidx Hcol.
  destruct (index_of_elem _ _ Hidx) as (i & Hi & Hli).
  destruct (index_of_elem _ _ Hcol) as (j & Hj & Hlj).
  unfold cell. rewrite Hi, Hj. cbn [mbind option_bind].
  unfold compute_cohort_retention in *. cbn [m_index m_columns m_values] in *.
  rewrite list_lookup_fmap, Hli. cbn [fmap option_fmap option_map mbind option_bind].
  rewrite list_lookup_fmap, Hlj. reflexivity.
Qed.

Lemma cohort_cell_value (df : DataFrame) (m p : Z) :
  m ∈ m_index (compute_cohort_retention df) →
  p ∈ m_columns (compute_cohort_retention df) →
  cell (compute_cohort_retention df) m p
  = Some (if decide (cohort_active df m p = []) then NaN
          else pct (of_nat (nunique (cohort_active df m p)))
                   (of_nat (nunique (cohort_signups df m)))).
Proof.
  intros Hidx Hcol. rewrite cohort_cell_lookup by done. f_equal.
  apply elem_of_cohort_index in Hidx as [Hs _].
  destruct (decide (cohort_active df m p = [])) as [Hnil | Hact].
  - destruct (c_retention <$> _) as [|x l] eqn:Hl; [done |].
    assert (x ∈ x :: l) as Hx by left. rewrite <- Hl in Hx.
    by apply elem_of_cohort_merged_cell in Hx as [Ha _].
  - destruct (pct_is_Fin (nunique (cohort_active df m p))
                (nunique (cohort_signups df m))) as [q Hq];
      [by apply nunique_pos |].
    rewrite Hq. apply fmean_constant_Fin.
    + intros Hnil.
      assert (Fin q ∈ c_retention <$>
                filter (λ r, c_signup_month r = m ∧ c_period r = p) (cohort_merged df))
        as Hin by (apply elem_of_cohort_merged_cell; by rewrite Hq).
      rewrite Hnil in Hin. by apply elem_of_nil in Hin.
    + intros x (_ & _ & ->)%elem_of_cohort_merged_cell. done.
Qed.


Lemma cohort_active_le_signups (df : DataFrame) (m p : Z) :
  every_user_signs_up df → signup_date_is_first df →
  (nunique (cohort_active df m p) ≤ nunique (cohort_signups df m))%nat.
Proof.
  intros Hsign Hfirst. apply nunique_le. intros u.
  rewrite elem_of_cohort_active, elem_of_cohort_signups.
  intros (_ & e & He & Hu & Hm & _).
  destruct (Hsign e He) as (s & Hs_in & Hsu & Hst).
  exists s. repeat split; try done; [congruence |].
  unfold signup_month in *.
  by rewrite (same_user_same_signup_date df s e).
Qed.

Lemma cell_Some_labels (M : cohort_matrix) (m p : Z) (x : float64) :
  cell M m p = Some x → m ∈ m_index M ∧ p ∈ m_columns M.
Proof.
  unfold cell, index_of. intros Hc.
  destruct (list_find (λ y, y = m) (m_index M)) as [[i y]|] eqn:Hi; [| done].
  destruct (list_find (λ y, y = p) (m_columns M)) as [[j z]|] eqn:Hj; [| done].
  apply list_find_Some in Hi as (Hi & -> & _).
  apply list_find_Some in Hj as (Hj & -> & _).
  split; by eapply list_elem_of_lookup_2.
Qed.

(** X12. When every user has a signup event and the signup date of each row
    is the least event date of its user, every cell of the cohort matrix is
    either missing or a number between 0 and 100: no cohort shows more
    active users than it has members. *)
Theorem compute_cohort_retention_range (df : DataFrame) (m p : Z) (x : float64) :
  every_user_signs_up df → signup_date_is_first df →
  cell (compute_cohort_retention df) m p = Some x →
  x = NaN ∨ ∃ q, x = Fin q ∧ (0 ≤ q)%Qc ∧ (q ≤ Qc_of_Z 100)%Qc.
Proof.
  intros Hsign Hfirst Hcell.
  destruct (cell_Some_labels _ _ _ _ Hcell) as [Hidx Hcol].
  rewrite cohort_cell_value in Hcell by done. injection Hcell as <-.
  apply elem_of_cohort_index in Hidx as [Hs _].
  destruct (decide (cohort_active df m p = [])); [by left | right].
  apply pct_bounds; [by apply cohort_active_le_signups | by apply nunique_pos].
Qed.

Lemma compute_cohort_retention_range_witness :
  of_int 50 = NaN ∨ ∃ q, of_int 50 = Fin q ∧ (0 ≤ q)%Qc ∧ (q ≤ Qc_of_Z 100)%Qc.
Proof.
  apply (compute_cohort_retention_range cohort_example 636 1).
  - apply every_user_signs_up_Forall. by_evaluation.
  - apply signup_date_is_first_Forall. by_evaluation.
  - by_evaluation.
Defined.

(** ** The segmentation, lines 222-257 *)

(** The columns of a row that come from the aggregation. *)
Lemma compute_rfm_segments_inv `{Sklearn} (df : DataFrame) (n_clusters : Z)
    (g : rng) (rows : list rfm_row) :
  (compute_rfm_segments df n_clusters g).1 = Ok rows →
  1 ≤ n_clusters ≤ Z.of_nat (length (users_of df))
  ∧ ∃ labels, length labels = length (rfm_features df)
      ∧ rows = zip_with (λ r s, {| r_user := r.1;
                                   recency := r.2.1.1;
                                   frequency := r.2.1.2;
                                   monetary := r.2.2;
                                   segment := s;
                                   segment_label :=
                                     dict_get (seg_labels n_clusters
                                       (zip labels ((λ r, r.2.2) <$> rfm_features df))) s |})
                        (rfm_features df) labels.
Proof.
  intros Hrun. unfold compute_rfm_segments in Hrun.
  destruct (StandardScaler_fit_transform _) as [X|e] eqn:HX; [| done].
  unfold KMeans_fit_predict in Hrun.
  repeat case_decide; try done. simpl in Hrun. injection Hrun as Hrows.
  assert (length X = length (rfm_features df)) as HlenX.
  { unfold StandardScaler_fit_transform in HX.
    destruct (feature_point ∘ snd <$> rfm_features df) eqn:HF; [done |].
    injection HX as <-. by rewrite zscore_length, <- HF, length_fmap. }
  split.
  - rewrite <- nunique_users_of, <- rfm_features_length, <- HlenX. lia.
  - eexists. split; [| symmetry; exact Hrows].
    by rewrite lloyd_length.
Qed.




Lemma zip_with_fmap_l {A B C D} (f : A → B → C) (h : C → D) (k : A → D)
    (l : list A) (l' : list B) :
  (∀ a b, h (f a b) = k a) → length l' = length l →
  h <$> zip_with f l l' = k <$> l.
Proof.
  intros Hf. revert l'. induction l as [|a l IH]; intros [|b l'] Hlen; try done.
  simpl. rewrite Hf. f_equal. apply IH. simpl in Hlen. lia.
Qed.










(** *** The order of the labels *)

Lemma insert_desc_sorted (x : nat * Qc) (l : list (nat * Qc)) :
  StronglySorted (λ a b, (b.2 ≤ a.2)%Qc) l →
  StronglySorted (λ a b, (b.2 ≤ a.2)%Qc) (insert_desc x l).
Proof.
  induction 1 as [|y l Hl IH Hy]; simpl.
  - repeat constructor.
  - case_decide as Hxy.
    + constructor; [done |].
      apply list.Forall_forall. intros z Hz.
      rewrite insert_desc_perm in Hz. apply elem_of_cons in Hz as [-> | Hz].
      * by apply Qclt_le_weak.
      * rewrite list.Forall_forall in Hy. by apply Hy.
    + apply Qcnot_lt_le in Hxy.
      constructor; [by constructor |].
      constructor; [done |].
      eapply list.Forall_impl; [exact Hy |]. intros z Hz. simpl in *.
      by eapply Qcle_trans.
Qed.

Lemma sort_desc_sorted (l : list (nat * Qc)) :
  StronglySorted (λ a b, (b.2 ≤ a.2)%Qc) (sort_desc l).
Proof.
  induction l as [|x l IH]; [constructor |].
  unfold sort_desc in *. simpl. by apply insert_desc_sorted.
Qed.

Lemma StronglySorted_lookup_le {A} (R : A → A → Prop) (l : list A) (i j : nat) (x y : A) :
  StronglySorted R l → (i < j)%nat → l !! i = Some x → l !! j = Some y → R x y.
Proof.
  intros Hs. revert i j. induction Hs as [|z l Hl IH Hz]; intros i j Hij Hi Hj;
    [done |].
  destruct j as [|j]; [lia |]. simpl in Hj. destruct i as [|i]; simpl in Hi.
  - injection Hi as ->. rewrite list.Forall_forall in Hz. apply Hz.
    by eapply list_elem_of_lookup_2.
  - apply (IH i j); [lia | done | done].
Qed.

Lemma pairs_segment_mean (rows : list rfm_row) (s : nat) :
  Qc_mean (snd <$> filter (λ p, p.1 = s) ((λ r, (segment r, monetary r)) <$> rows))
  = segment_mean rows s.
Proof.
  unfold segment_mean. f_equal.
  induction rows as [|r rows IH]; [done |].
  rewrite fmap_cons, !filter_cons. cbn [fst].
  destruct (decide (segment r = s)); [| exact IH].
  rewrite !fmap_cons. cbn [snd]. by rewrite IH.
Qed.

(** The clusters come out in descending order of their mean monetary
    value. *)
Lemma ranked_segments_order (rows : list rfm_row) (i j : nat) (s s' : nat) :
  let ranked := ranked_segments ((λ r, (segment r, monetary r)) <$> rows) in
  ranked !! i = Some s → ranked !! j = Some s' → (i ≤ j)%nat →
  (segment_mean rows s' ≤ segment_mean rows s)%Qc.
Proof.
  intros ranked Hi Hj Hij. subst ranked. unfold ranked_segments in Hi, Hj.
  set (pairs := (λ r, (segment r, monetary r)) <$> rows) in *.
  set (ms := (λ s, (s, Qc_mean (snd <$> filter (λ p, p.1 = s) pairs)))
               <$> sorted_unique_nat (fst <$> pairs)) in *.
  rewrite list_lookup_fmap in Hi, Hj.
  destruct (sort_desc ms !! i) as [[si mi]|] eqn:Hsi; [| done].
  destruct (sort_desc ms !! j) as [[sj mj]|] eqn:Hsj; [| done].
  simpl in Hi, Hj. injection Hi as ->. injection Hj as ->.
  assert (∀ k x, sort_desc ms !! k = Some x → x.2 = segment_mean rows x.1) as Hmean.
  { intros k x Hk. apply list_elem_of_lookup_2 in Hk.
    rewrite sort_desc_perm in Hk. unfold ms in Hk.
    apply list_elem_of_fmap in Hk as (t & -> & _). simpl.
    apply pairs_segment_mean. }
  pose proof (Hmean i (s, mi) Hsi) as Hmi.
  pose proof (Hmean j (s', mj) Hsj) as Hmj. simpl in Hmi, Hmj.
  rewrite <- Hmi, <- Hmj.
  destruct (decide (i = j)) as [-> | Hne].
  - rewrite Hsi in Hsj. injection Hsj as _ ->. apply Qcle_refl.
  - apply (StronglySorted_lookup_le _ _ i j (s, mi) (s', mj) (sort_desc_sorted ms));
      [lia | done | done].
Qed.

(** The label of a row is the name at the rank of its cluster. *)
Lemma compute_rfm_segments_rank `{Sklearn} (df : DataFrame) (n_clusters : Z)
    (g : rng) (rows : list rfm_row) :
  (compute_rfm_segments df n_clusters g).1 = Ok rows →
  ∀ r, r ∈ rows →
    ∃ i, ranked_segments ((λ r, (segment r, monetary r)) <$> rows) !! i
           = Some (segment r)
      ∧ segment_label r = take (Z.to_nat n_clusters) SEGMENT_NAMES !! i.
Proof.
  intros Hrun r Hr.
  apply compute_rfm_segments_inv in Hrun as (Hrange & labels & Hlen & Hrows).
  assert ((λ r, (segment r, monetary r)) <$> rows
          = zip labels ((λ r, r.2.2) <$> rfm_features df)) as Hzip.
  { rewrite Hrows. by apply rfm_rows_segments. }
  rewrite Hzip.
  assert (segment r ∈ ranked_segments (zip labels ((λ r, r.2.2) <$> rfm_features df)))
    as Hin.
  { apply elem_of_ranked_segments. rewrite <- Hzip, <- list_fmap_compose.
    by apply (list_elem_of_fmap_2 (fst ∘ (λ r, (segment r, monetary r)))). }
  apply list_elem_of_lookup in Hin as [i Hi]. exists i. split; [done |].
  rewrite Hrows in Hr.
  apply list_elem_of_lookup in Hr as [j Hj].
  apply lookup_zip_with_Some in Hj as (a & s & -> & _ & _).
  cbn [segment_label segment] in *.
  unfold seg_labels, py_prefix. rewrite decide_True by lia.
  apply dict_get_zip; [apply NoDup_ranked_segments | done].
Qed.

Lemma SEGMENT_NAMES_prefix (n i : nat) (a : string) :
  take n SEGMENT_NAMES !! i = Some a → SEGMENT_NAMES !! i = Some a ∧ (i < n)%nat.
Proof.
  intros Hi. apply lookup_take_Some in Hi. done.
Qed.

(** X15. The labels of a successful segmentation follow the mean monetary
    value of the clusters.  A label is one of the four names; two rows with
    the same label are in the same cluster; a row whose label comes earlier
    in [Champions, Loyal, At-Risk, Low-Value] is in a cluster whose mean
    monetary value is at least that of the other row's cluster; and a row
    without label is in a cluster whose mean is at most that of every
    labelled row's cluster.  So the rows labelled [Champions] are those of
    the cluster with the greatest mean. *)
Theorem compute_rfm_segments_label_order `{Sklearn} (df : DataFrame)
    (n_clusters : Z) (g : rng) (rows : list rfm_row) :
  (compute_rfm_segments df n_clusters g).1 = Ok rows →
  ∀ r a, r ∈ rows → segment_label r = Some a →
    ∃ i, SEGMENT_NAMES !! i = Some a ∧ Z.of_nat i < n_clusters
      ∧ ∀ r', r' ∈ rows →
          (segment_label r' = Some a → segment r' = segment r)
          ∧ (∀ b j, segment_label r' = Some b → SEGMENT_NAMES !! j = Some b →
               (i ≤ j)%nat →
               (segment_mean rows (segment r') ≤ segment_mean rows (segment r))%Qc)
          ∧ (segment_label r' = None →
               (segment_mean rows (segment r') ≤ segment_mean rows (segment r))%Qc).
Proof.
  intros Hrun r a Hr Ha.
  pose proof (compute_rfm_segments_inv _ _ _ _ Hrun) as [Hrange _].
  destruct (compute_rfm_segments_rank df n_clusters g rows Hrun r Hr) as (i & Hi & Hli).
  rewrite Ha in Hli. symmetry in Hli.
  apply SEGMENT_NAMES_prefix in Hli as [Hname Hlt].
  exists i. split; [done |]. split; [lia |].
  intros r' Hr'.
  destruct (compute_rfm_segments_rank df n_clusters g rows Hrun r' Hr')
    as (i' & Hi' & Hli').
  assert (NoDup SEGMENT_NAMES) as Hnd by (by apply (bool_decide_unpack _)).
  split; [| split].
  - intros Ha'. rewrite Ha' in Hli'. symmetry in Hli'.
    apply SEGMENT_NAMES_prefix in Hli' as [Hname' _].
    assert (i' = i) as -> by (by eapply NoDup_lookup).
    congruence.
  - intros b j Hb Hj Hij. rewrite Hb in Hli'. symmetry in Hli'.
    apply SEGMENT_NAMES_prefix in Hli' as [Hname' _].
    assert (i' = j) as -> by (by eapply NoDup_lookup).
    by apply (ranked_segments_order rows i j).
  - intros Hnone. rewrite Hnone in Hli'. symmetry in Hli'.
    apply lookup_ge_None in Hli'.
    apply (ranked_segments_order rows i i'); [done | done |].
    assert (i < length (take (Z.to_nat n_clusters) SEGMENT_NAMES))%nat; [| lia].
    rewrite length_take. apply lookup_lt_Some in Hname. lia.
Qed.

Lemma compute_rfm_segments_label_order_witness :
  ∃ rows r, (@compute_rfm_segments ref_sklearn six_users 5 0).1 = Ok rows
    ∧ r ∈ rows ∧ r_user r = 1 ∧ segment_label r = Some "Champions"
    ∧ ∃ i, SEGMENT_NAMES !! i = Some "Champions" ∧ Z.of_nat i < 5.
Proof.
  eexists. eexists. split; [vm_compute; reflexivity |].
  split; [left |]. split; [reflexivity |]. split; [reflexivity |].
  match goal with
  | |- context [Some ?a] =>
      destruct (@compute_rfm_segments_label_order ref_sklearn six_users 5 0 _
                  ltac:(vm_compute; reflexivity) _ a ltac:(left) ltac:(reflexivity))
        as (i & Hi & Hlt & _)
  end.
  by exists i.
Defined.

(** ** The A/B test, lines 262-306 *)

(** The chi-square routine fails when a margin of the table is zero. *)
Lemma chi2_contingency_zero_margin `{Scipy} (a b c d : Z) :
  0 ≤ a → 0 ≤ b → 0 ≤ c → 0 ≤ d → 0 < a + b + c + d →
  a + b = 0 ∨ c + d = 0 ∨ a + c = 0 ∨ b + d = 0 →
  chi2_contingency a b c d = Raise ValueError.
Proof.
  intros Ha Hb Hc Hd Htot Hzero. unfold chi2_contingency.
  rewrite bool_decide_eq_false_2 by lia.
  assert (∀ x, x = 0 ∨ feqb (fdiv (of_int x) (of_int (a + b + c + d))) (of_int 0) = false)
    as Hcase.
  { intros x. destruct (decide (x = 0)); [by left | right].
    apply expected_nonzero; lia. }
  assert (∃ e, e ∈ [ (a + b) * (a + c); (a + b) * (b + d);
                     (c + d) * (a + c); (c + d) * (b + d) ] ∧ e = 0)
    as (e & He & ->).
  { destruct Hzero as [Hz | [Hz | [Hz | Hz]]].
    - exists ((a + b) * (a + c)). split; [left | nia].
    - exists ((c + d) * (a + c)). split; [do 2 right; left | nia].
    - exists ((a + b) * (a + c)). split; [left | nia].
    - exists ((a + b) * (b + d)). split; [right; left | nia]. }
  assert (existsb (λ e, feqb e (of_int 0))
            [ fdiv (of_int ((a + b) * (a + c))) (of_int (a + b + c + d));
              fdiv (of_int ((a + b) * (b + d))) (of_int (a + b + c + d));
              fdiv (of_int ((c + d) * (a + c))) (of_int (a + b + c + d));
              fdiv (of_int ((c + d) * (b + d))) (of_int (a + b + c + d)) ] = true)
    as ->; [| done].
  apply existsb_exists. exists (fdiv (of_int 0) (of_int (a + b + c + d))).
  split; [| apply expected_zero; lia].
  rewrite !elem_of_cons, elem_of_nil in He.
  destruct He as [He | [He | [He | [He | []]]]]; rewrite He; simpl; auto.
Qed.

Lemma compute_ab_test_unfold `{Scipy} (df : DataFrame) :
  let na := Z.of_nat (ab_size df "A") in
  let nb := Z.of_nat (ab_size df "B") in
  let ca := ab_conversions df "A" in
  let cb := ab_conversions df "B" in
  compute_ab_test df
  = (t ←r chi2_contingency ca (na - ca) cb (nb - cb);
     Ok {| group_a_users := ab_size df "A";
           group_b_users := ab_size df "B";
           group_a_conversions := ca;
           group_b_conversions := cb;
           rate_a := fmul (np_truediv ca na) (of_int 100);
           rate_b := fmul (np_truediv cb nb) (of_int 100);
           lift_pct := fmul (fdiv (fsub (np_truediv cb nb) (np_truediv ca na))
                                  (np_truediv ca na)) (of_int 100);
           chi2 := t.1.1;
           p_value := t.1.2;
           significant := fltb t.1.2 (Fin (Q2Qc (5 # 100))) |}).
Proof. reflexivity. Qed.

Lemma rate_of_truediv (a b : Z) :
  b ≠ 0 → fmul (np_truediv a b) (of_int 100) = Fin (rate a b).
Proof. intros Hb. unfold np_truediv. by rewrite fdiv_of_int. Qed.

(** X16. On a frame with at least one user in group A or B, the A/B test
    returns a result exactly when both groups have a user, somebody
    converted and somebody did not; in every other case it raises the
    [ValueError] of the chi-square routine.  A returned result reports the
    sizes and conversions of the two groups, and its two rates are the
    conversions over the size in percent, numbers between 0 and 100. *)
Theorem compute_ab_test_succeeds_iff `{Scipy} (df : DataFrame) :
  let na := Z.of_nat (ab_size df "A") in
  let nb := Z.of_nat (ab_size df "B") in
  let ca := ab_conversions df "A" in
  let cb := ab_conversions df "B" in
  0 < na + nb →
  ((∃ r, compute_ab_test df = Ok r)
     ↔ 0 < na ∧ 0 < nb ∧ 0 < ca + cb < na + nb)
  ∧ (compute_ab_test df = Raise ValueError
     ↔ ¬ (0 < na ∧ 0 < nb ∧ 0 < ca + cb < na + nb))
  ∧ ∀ r, compute_ab_test df = Ok r →
      group_a_users r = ab_size df "A" ∧ group_b_users r = ab_size df "B"
      ∧ group_a_conversions r = ca ∧ group_b_conversions r = cb
      ∧ rate_a r = Fin (rate ca na) ∧ rate_b r = Fin (rate cb nb)
      ∧ (0 ≤ rate ca na)%Qc ∧ (rate ca na ≤ Qc_of_Z 100)%Qc
      ∧ (0 ≤ rate cb nb)%Qc ∧ (rate cb nb ≤ Qc_of_Z 100)%Qc.
Proof.
  intros na nb ca cb Htot.
  pose proof (ab_conversions_bounds df "A") as Hca.
  pose proof (ab_conversions_bounds df "B") as Hcb.
  fold na ca in Hca. fold nb cb in Hcb.
  rewrite compute_ab_test_unfold. cbv zeta. fold na nb ca cb.
  destruct (decide (0 < na ∧ 0 < nb ∧ 0 < ca + cb < na + nb)) as [Hok | Hbad].
  - destruct (chi2_contingency_ok ca (na - ca) cb (nb - cb)) as [t Ht]; try lia.
    rewrite Ht. cbn [rbind]. split; [| split].
    + split; [done | by eexists].
    + split; [done | tauto].
    + intros r [= <-]. cbn.
      rewrite !rate_of_truediv by lia.
      destruct (rate_bounds ca na) as [? ?]; [lia | lia |].
      destruct (rate_bounds cb nb) as [? ?]; [lia | lia |].
      done.
  - rewrite (chi2_contingency_zero_margin ca (na - ca) cb (nb - cb)) by lia.
    cbn [rbind]. split; [| split].
    + split; [by intros [r ?] | tauto].
    + done.
    + by intros r ?.
Qed.

Lemma compute_ab_test_succeeds_iff_witness :
  (∃ r, compute_ab_test ab_zero_control = Ok r)
  ↔ 0 < Z.of_nat (ab_size ab_zero_control "A")
    ∧ 0 < Z.of_nat (ab_size ab_zero_control "B")
    ∧ 0 < ab_conversions ab_zero_control "A" + ab_conversions ab_zero_control "B"
        < Z.of_nat (ab_size ab_zero_control "A")
          + Z.of_nat (ab_size ab_zero_control "B").
Proof.
  apply (@compute_ab_test_succeeds_iff ref_scipy ab_zero_control).
  vm_compute. reflexivity.
Defined.

(** *** The groups of the test and the users of the frame *)

Lemma length_NoDup_image {A B} (f : A → B) (l : list A) (k : list B) :
  NoDup l → (∀ x y, x ∈ l → y ∈ l → f x = f y → x = y) →
  NoDup k → (∀ b, b ∈ f <$> l ↔ b ∈ k) →
  length l = length k.
Proof.
  intros Hl Hinj Hk Hiff. rewrite <- (length_fmap f).
  apply Permutation_length, NoDup_Permutation; [| done | done].
  by apply NoDup_fmap_2_strong.
Qed.

Lemma elem_of_ab_frame (df : DataFrame) (u : Z) (g : string) (c : Z) :
  (u, g, c) ∈ ab_frame df ↔
  (∃ e, e ∈ df ∧ user_id e = u ∧ experiment_group e = g)
  ∧ c = (if bool_decide (Exists (λ e, user_id e = u ∧ experiment_group e = g
                                      ∧ event_type e = "purchase") df)
         then 1 else 0).
Proof.
  assert (∀ k : Z * string,
    bool_decide ("purchase" ∈ event_type <$>
                   filter (λ e, (user_id e, experiment_group e) = k) df)
    = bool_decide (Exists (λ e, user_id e = k.1 ∧ experiment_group e = k.2
                                ∧ event_type e = "purchase") df)) as Hflag.
  { intros [u' g']. apply bool_decide_ext.
    rewrite list_elem_of_fmap, list.Exists_exists. split.
    - intros (e & Ht & [[= Hu Hg] He]%list_elem_of_filter). by exists e.
    - intros (e & He & Hu & Hg & Ht). exists e. split; [done |].
      apply list_elem_of_filter. split; [| done]. simpl in *. congruence. }
  unfold ab_frame. rewrite list_elem_of_fmap. split.
  - intros ([u' g'] & [= -> -> ->] & Hk). rewrite Hflag.
    rewrite elem_of_remove_dups, list_elem_of_fmap in Hk.
    destruct Hk as (e & [= -> ->] & He). split; [by exists e | done].
  - intros [(e & He & Hu & Hg) ->]. exists (u, g). rewrite Hflag. split; [done |].
    rewrite elem_of_remove_dups. apply list_elem_of_fmap. exists e.
    split; [congruence | done].
Qed.

Lemma NoDup_ab_frame (df : DataFrame) : NoDup (ab_frame df).
Proof.
  unfold ab_frame. apply NoDup_fmap_2_strong; [| apply NoDup_remove_dups].
  intros x y _ _ Heq. by injection Heq.
Qed.

Lemma ab_size_users (df : DataFrame) (g : string) :
  ab_size df g = length (users_where (λ e, experiment_group e = g) df).
Proof.
  unfold ab_size, ab_group.
  apply (length_NoDup_image (λ r, r.1.1)).
  - apply list.NoDup_filter, NoDup_ab_frame.
  - intros [[u1 g1] c1] [[u2 g2] c2] [Hg1 H1]%list_elem_of_filter
      [Hg2 H2]%list_elem_of_filter Hu. simpl in *. subst.
    apply elem_of_ab_frame in H1 as [_ ->].
    apply elem_of_ab_frame in H2 as [_ ->]. done.
  - unfold users_where, users_of. apply list.NoDup_filter, NoDup_remove_dups.
  - intros u. unfold users_where.
    rewrite list_elem_of_fmap, list_elem_of_filter, elem_of_users_of,
      list.Exists_exists. split.
    + intros ([[u' g'] c] & -> & [Hg Hr]%list_elem_of_filter). simpl in *. subst.
      apply elem_of_ab_frame in Hr as [(e & He & Hu & Hg) _].
      split; exists e; done.
    + intros [(e & He & Hu & Hg) _]. eexists (u, g, _). split; [done |].
      apply list_elem_of_filter. split; [done |].
      apply elem_of_ab_frame. split; [by exists e | done].
Qed.

Lemma Z_sum_count (l : list Z) :
  (∀ x, x ∈ l → x = 0 ∨ x = 1) →
  Z_sum l = Z.of_nat (length (filter (λ x, x = 1) l)).
Proof.
  induction l as [|x l IH]; intros Hall; [done |].
  rewrite filter_cons. cbn [Z_sum foldr].
  specialize (IH (λ y Hy, Hall y ltac:(by right))). unfold Z_sum in IH.
  destruct (Hall x ltac:(left)) as [-> | ->]; simpl; lia.
Qed.

Lemma ab_conversions_users (df : DataFrame) (g : string) :
  ab_conversions df g
  = Z.of_nat (length (users_where
      (λ e, experiment_group e = g ∧ event_type e = "purchase") df)).
Proof.
  unfold ab_conversions, ab_group. rewrite Z_sum_count.
  2: { intros x (r & -> & [_ Hr]%list_elem_of_filter)%list_elem_of_fmap.
       destruct r as [[u g'] c]. apply elem_of_ab_frame in Hr as [_ ->].
       simpl. case_bool_decide; auto. }
  f_equal.
  transitivity (length (filter (λ r : Z * string * Z, r.2 = 1)
                          (filter (λ r, r.1.2 = g) (ab_frame df)))).
  { generalize (filter (λ r : Z * string * Z, r.1.2 = g) (ab_frame df)).
    intros l. induction l as [|r l IH]; [done |].
    rewrite fmap_cons, !filter_cons. destruct (decide (r.2 = 1)); simpl; by rewrite IH. }
  apply (length_NoDup_image (λ r, r.1.1)).
  - apply list.NoDup_filter, list.NoDup_filter, NoDup_ab_frame.
  - intros [[u1 g1] c1] [[u2 g2] c2]
      [Hc1 [Hg1 H1]%list_elem_of_filter]%list_elem_of_filter
      [Hc2 [Hg2 H2]%list_elem_of_filter]%list_elem_of_filter Hu.
    simpl in *. by subst.
  - unfold users_where, users_of. apply list.NoDup_filter, NoDup_remove_dups.
  - intros u. unfold users_where.
    rewrite list_elem_of_fmap, list_elem_of_filter, elem_of_users_of,
      list.Exists_exists. split.
    + intros ([[u' g'] c] & -> & [Hc [Hg Hr]%list_elem_of_filter]%list_elem_of_filter).
      simpl in *. subst.
      apply elem_of_ab_frame in Hr as [_ Hflag].
      case_bool_decide as Hex; [| done].
      apply list.Exists_exists in Hex as (e & He & Hu & Hg & Ht).
      split; exists e; done.
    + intros [(e & He & Hu & Hg & Ht) _]. exists (u, g, 1). split; [done |].
      apply list_elem_of_filter. split; [done |].
      apply list_elem_of_filter. split; [done |].
      apply elem_of_ab_frame. split; [by exists e |].
      rewrite bool_decide_eq_true_2; [done |].
      apply list.Exists_exists. by exists e.
Qed.

Lemma filter_split_length {A} (P Q R : A → Prop) `{∀ x, Decision (P x)}
    `{∀ x, Decision (Q x)} `{∀ x, Decision (R x)} (l : list A) :
  (∀ x, x ∈ l → R x ↔ P x ∨ Q x) → (∀ x, x ∈ l → ¬ (P x ∧ Q x)) →
  (length (filter P l) + length (filter Q l))%nat = length (filter R l).
Proof.
  induction l as [|x l IH]; intros Hiff Hex; [done |].
  rewrite !filter_cons.
  specialize (IH (λ y Hy, Hiff y ltac:(by right)) (λ y Hy, Hex y ltac:(by right))).
  specialize (Hiff x ltac:(left)). specialize (Hex x ltac:(left)).
  destruct (decide (P x)), (decide (Q x)), (decide (R x)); simpl; try lia; tauto.
Qed.

(** X17. The groups of the A/B test against the users of the frame.  The
    size of a group is the number of distinct users with a row in that
    group, and its conversions are the number of distinct users with a
    purchase row in that group.  When every row is in group A or B and no
    user has rows in both, the two sizes add up to the number of distinct
    users and the two conversion counts add up to the number of users with
    a purchase, the last row of the funnel. *)
Theorem compute_ab_test_groups `{Scipy} (df : DataFrame) (r : ab_result) :
  compute_ab_test df = Ok r →
  group_a_users r = length (users_where (λ e, experiment_group e = "A") df)
  ∧ group_b_users r = length (users_where (λ e, experiment_group e = "B") df)
  ∧ group_a_conversions r
    = Z.of_nat (length (users_where
        (λ e, experiment_group e = "A" ∧ event_type e = "purchase") df))
  ∧ group_b_conversions r
    = Z.of_nat (length (users_where
        (λ e, experiment_group e = "B" ∧ event_type e = "purchase") df))
  ∧ ((∀ e, e ∈ df → experiment_group e = "A" ∨ experiment_group e = "B") →
     (∀ e1 e2, e1 ∈ df → e2 ∈ df → user_id e1 = user_id e2 →
        experiment_group e1 = experiment_group e2) →
     (group_a_users r + group_b_users r)%nat = length (users_of df)
     ∧ group_a_conversions r + group_b_conversions r
       = Z.of_nat (step_reach df "purchase")).
Proof.
  rewrite compute_ab_test_unfold. cbv zeta.
  destruct (chi2_contingency _ _ _ _) as [t|e]; [| done].
  intros [= <-]. cbn [group_a_users group_b_users group_a_conversions
                      group_b_conversions].
  rewrite !ab_size_users, !ab_conversions_users.
  repeat (split; [reflexivity |]).
  intros Hab Hone. split.
  - transitivity (length (filter (λ _ : Z, True) (users_of df)));
      [| by apply filter_length_all].
    unfold users_where. apply filter_split_length.
    + intros u Hu. split; [| done]. intros _.
      apply elem_of_users_of in Hu as (e & He & Hu).
      destruct (Hab e He) as [Hg | Hg]; [left | right];
        apply list.Exists_exists; by exists e.
    + intros u _ [(e1 & He1 & Hu1 & Hg1)%list.Exists_exists
                  (e2 & He2 & Hu2 & Hg2)%list.Exists_exists].
      specialize (Hone e1 e2 He1 He2 ltac:(congruence)). congruence.
  - rewrite step_reach_any_occurrence. unfold reach_any_occurrence.
    fold (users_of df). rewrite <- Nat2Z.inj_add. f_equal.
    unfold users_where. apply filter_split_length.
    + intros u Hu. unfold has_event. rewrite !list.Exists_exists. split.
      * intros (e & He & Hue & Ht).
        destruct (Hab e He) as [Hg | Hg]; [left | right]; by exists e.
      * intros [(e & He & Hue & Hg & Ht) | (e & He & Hue & Hg & Ht)]; by exists e.
    + intros u _ [(e1 & He1 & Hu1 & Hg1 & _)%list.Exists_exists
                  (e2 & He2 & Hu2 & Hg2 & _)%list.Exists_exists].
      specialize (Hone e1 e2 He1 He2 ltac:(congruence)). congruence.
Qed.

Lemma compute_ab_test_groups_witness :
  ∃ r, compute_ab_test scenario_B = Ok r
    ∧ group_a_users r
      = length (users_where (λ e, experiment_group e = "A") scenario_B).
Proof.
  eexists. split; [reflexivity |].
  apply (@compute_ab_test_groups ref_scipy scenario_B). reflexivity.
Defined.

(** ** The filters of the dashboard, dashboard.py lines 295-350 *)

Lemma elem_of_sorted_strings (l : list string) (x : string) :
  x ∈ sorted_strings l ↔ x ∈ l.
Proof. unfold sorted_strings. by rewrite merge_sort_Permutation. Qed.

Lemma elem_of_apply_filters (raw_df : DataFrame) (start_date end_date : date)
    (channels_sel devices_sel : list string) (e : event) :
  e ∈ apply_filters raw_df start_date end_date channels_sel devices_sel
  ↔ e ∈ raw_df ∧ start_date ≤ event_date e ≤ end_date
    ∧ acquisition_channel e ∈ channels_sel ∧ device_type e ∈ devices_sel.
Proof. unfold apply_filters. rewrite list_elem_of_filter. tauto. Qed.

Lemma filter_all {A} (P : A → Prop) `{∀ x, Decision (P x)} (l : list A) :
  (∀ x, x ∈ l → P x) → filter P l = l.
Proof.
  induction l as [|x l IH]; intros Hall; [done |].
  rewrite filter_cons, decide_True by (apply Hall; left).
  f_equal. apply IH. intros y Hy. apply Hall. by right.
Qed.

Lemma filter_none {A} (P : A → Prop) `{∀ x, Decision (P x)} (l : list A) :
  filter P l = [] ↔ ∀ x, x ∈ l → ¬ P x.
Proof.
  split.
  - intros Hnil x Hx HP.
    assert (x ∈ filter P l) as Hin by (by apply list_elem_of_filter).
    rewrite Hnil in Hin. by apply elem_of_nil in Hin.
  - intros Hall. destruct (filter P l) as [|x k] eqn:Hf; [done |].
    assert (x ∈ filter P l) as Hin by (rewrite Hf; left).
    apply list_elem_of_filter in Hin as [HP Hx]. by destruct (Hall x Hx).
Qed.

(** X18. With the selections the sidebar starts from (the whole date range
    of the data, every channel and every device present) the filters keep
    every row, in order, whatever the date widget holds when it does not
    hold two dates; so the KPI cards are those of the unfiltered data. *)
Theorem filtered_frame_defaults (raw_df : DataFrame) (lo hi : date)
    (date_range : list date) :
  default_date_range raw_df = Some (lo, hi) →
  date_range = [lo; hi] ∨ length date_range ≠ 2%nat →
  filtered_frame raw_df date_range lo hi
    (channels_available raw_df) (devices_available raw_df) = raw_df
  ∧ kpi_cards raw_df date_range lo hi
      (channels_available raw_df) (devices_available raw_df)
    = get_kpi_summary raw_df.
Proof.
  intros Hrange Hwidget.
  assert (selected_range date_range lo hi = (lo, hi)) as Hsel.
  { destruct Hwidget as [-> | Hlen]; [done |].
    by destruct date_range as [|a [|b [|c l]]]. }
  assert (filtered_frame raw_df date_range lo hi
            (channels_available raw_df) (devices_available raw_df) = raw_df) as Hid.
  { unfold filtered_frame. rewrite Hsel. cbn [fst snd].
    unfold default_date_range in Hrange.
    destruct (series_min (event_date <$> raw_df)) as [lo'|] eqn:Hmin; [| done].
    destruct (series_max (event_date <$> raw_df)) as [hi'|] eqn:Hmax; [| done].
    injection Hrange as -> ->.
    apply series_min_spec in Hmin as [_ Hmin].
    apply series_max_spec in Hmax as [_ Hmax].
    apply filter_all. intros e He. repeat split.
    - apply Hmin. by apply list_elem_of_fmap_2.
    - apply Hmax. by apply list_elem_of_fmap_2.
    - unfold channels_available.
      rewrite elem_of_sorted_strings, elem_of_remove_dups.
      by apply list_elem_of_fmap_2.
    - unfold devices_available.
      rewrite elem_of_sorted_strings, elem_of_remove_dups.
      by apply list_elem_of_fmap_2. }
  split; [done |]. unfold kpi_cards. by rewrite Hid.
Qed.

Lemma filtered_frame_defaults_witness :
  filtered_frame cohort_example [] 19362 19425
    (channels_available cohort_example) (devices_available cohort_example)
  = cohort_example.
Proof.
  apply (filtered_frame_defaults cohort_example 19362 19425 []).
  - reflexivity.
  - right. simpl. lia.
Defined.

(** X19. The KPI cards at the top of the page raise [ZeroDivisionError]
    exactly when no row of the data passes the filters; this is the case
    when no channel is selected, when no device is selected, and when the
    end of the date range is before its start.  When some row passes, the
    cards are computed. *)
Theorem kpi_cards_fail_iff_nothing_selected (raw_df : DataFrame)
    (start_date end_date min_date max_date : date)
    (channels_sel devices_sel : list string) :
  let cards := kpi_cards raw_df [start_date; end_date] min_date max_date
                 channels_sel devices_sel in
  (cards = Raise ZeroDivisionError
     ↔ ∀ e, e ∈ raw_df →
         ¬ (start_date ≤ event_date e ≤ end_date
            ∧ acquisition_channel e ∈ channels_sel
            ∧ device_type e ∈ devices_sel))
  ∧ (channels_sel = [] ∨ devices_sel = [] ∨ end_date < start_date →
     cards = Raise ZeroDivisionError)
  ∧ ((∃ k, cards = Ok k)
     ↔ ∃ e, e ∈ raw_df ∧ start_date ≤ event_date e ≤ end_date
         ∧ acquisition_channel e ∈ channels_sel
         ∧ device_type e ∈ devices_sel).
Proof.
  intros cards. subst cards. unfold kpi_cards, filtered_frame. cbn [selected_range fst snd].
  assert (get_kpi_summary
            (apply_filters raw_df start_date end_date channels_sel devices_sel)
          = Raise ZeroDivisionError
          ↔ ∀ e, e ∈ raw_df →
              ¬ (start_date ≤ event_date e ≤ end_date
                 ∧ acquisition_channel e ∈ channels_sel
                 ∧ device_type e ∈ devices_sel)) as Hiff.
  { rewrite get_kpi_summary_Raise_iff. unfold apply_filters.
    etransitivity; [apply filter_none |].
    split; intros Hall e He; specialize (Hall e He); simpl in *; tauto. }
  split; [done |]. split.
  - intros Hsel. apply Hiff. intros e He (Hd & Hc & Hv).
    destruct Hsel as [-> | [-> | Hlt]];
      [by apply elem_of_nil in Hc | by apply elem_of_nil in Hv | lia].
  - split.
    + intros [k Hk].
      destruct (apply_filters raw_df start_date end_date channels_sel devices_sel)
        as [|e l] eqn:Hf; [done |].
      assert (e ∈ apply_filters raw_df start_date end_date channels_sel devices_sel)
        as Hin by (rewrite Hf; left).
      apply elem_of_apply_filters in Hin. exists e. tauto.
    + intros (e & He & Hd & Hc & Hv).
      assert (e ∈ apply_filters raw_df start_date end_date channels_sel devices_sel)
        as Hin by (apply elem_of_apply_filters; tauto).
      destruct (compute_conversion_rate_Ok
                  (apply_filters raw_df start_date end_date channels_sel devices_sel))
        as [q Hq].
      { intros Hnil. rewrite Hnil in Hin. by apply elem_of_nil in Hin. }
      unfold get_kpi_summary. rewrite Hq. by eexists.
Qed.

Lemma series_min_unique (l : list Z) (m : Z) :
  m ∈ l → (∀ x, x ∈ l → m ≤ x) → series_min l = Some m.
Proof.
  intros Hm Hmin.
  destruct (series_min_is_Some l) as [m' Hm'].
  { intros ->. by apply elem_of_nil in Hm. }
  rewrite Hm'. f_equal.
  apply series_min_spec in Hm' as [Hin Hle].
  specialize (Hmin m' Hin). specialize (Hle m Hm). lia.
Qed.

(** X20. Filtering keeps the invariants of the data model when the start of
    the date range is not after any event and the channel and the device of
    a user are the same on all its rows: in the filtered frame the signup
    date of a row is still the least event date of its user, and, when each
    signup row is dated at its signup date, every user still has a signup
    row. *)
Theorem apply_filters_keeps_invariants (raw_df : DataFrame)
    (start_date end_date : date) (channels_sel devices_sel : list string) :
  (∀ e1 e2, e1 ∈ raw_df → e2 ∈ raw_df → user_id e1 = user_id e2 →
     acquisition_channel e1 = acquisition_channel e2
     ∧ device_type e1 = device_type e2) →
  (∀ e, e ∈ raw_df → start_date ≤ event_date e) →
  signup_date_is_first raw_df →
  let df := apply_filters raw_df start_date end_date channels_sel devices_sel in
  signup_date_is_first df
  ∧ (every_user_signs_up raw_df →
     (∀ s, s ∈ raw_df → event_type s = "signup" → event_date s = signup_date s) →
     every_user_signs_up df).
Proof.
  intros Hattr Hstart Hfirst df.
  assert (∀ e e', e ∈ df → e' ∈ raw_df → user_id e' = user_id e →
            event_date e' ≤ event_date e → e' ∈ df) as Hkeep.
  { intros e e' He He' Hu Hd. unfold df in *.
    apply elem_of_apply_filters in He as (He & Hrange & Hc & Hv).
    apply elem_of_apply_filters. split; [done |].
    destruct (Hattr e' e He' He Hu) as [-> ->].
    split; [| done]. specialize (Hstart e' He'). lia. }
  assert (∀ e, e ∈ df → e ∈ raw_df) as Hsub.
  { intros e He. unfold df in He. by apply elem_of_apply_filters in He as [? _]. }
  assert (∀ e, e ∈ raw_df → signup_date e ≤ event_date e) as Hle.
  { intros e He. pose proof (Hfirst e He) as Hmin.
    apply series_min_spec in Hmin as [_ Hmin]. apply Hmin.
    apply elem_of_user_dates. by exists e. }
  split.
  - intros e He.
    destruct (first_event_exists raw_df e Hfirst (Hsub e He))
      as (e' & He' & Hu & Hd & _).
    apply series_min_unique.
    + apply elem_of_user_dates. exists e'. split; [| done].
      apply (Hkeep e e' He He' Hu). rewrite Hd. by apply Hle, Hsub.
    + intros d (e2 & He2 & Hu2 & <-)%elem_of_user_dates.
      pose proof (Hfirst e (Hsub e He)) as Hmin.
      apply series_min_spec in Hmin as [_ Hmin]. apply Hmin.
      apply elem_of_user_dates. exists e2. split; [by apply Hsub | done].
  - intros Hsign Hdated e He.
    destruct (Hsign e (Hsub e He)) as (s & Hs & Hu & Ht).
    exists s. split; [| done].
    apply (Hkeep e s He Hs Hu). rewrite (Hdated s Hs Ht).
    rewrite (same_user_same_signup_date raw_df s e Hfirst Hs (Hsub e He) Hu).
    by apply Hle, Hsub.
Qed.

Lemma apply_filters_keeps_invariants_witness :
  signup_date_is_first (apply_filters cohort_example 19362 19400 ["organic"] ["desktop"]).
Proof.
  apply (apply_filters_keeps_invariants cohort_example 19362 19400
           ["organic"] ["desktop"]).
  - intros e1 e2 H1 H2 _.
    assert (∀ e, e ∈ cohort_example →
              acquisition_channel e = "organic" ∧ device_type e = "desktop") as Hall.
    { apply list.Forall_forall. by_evaluation. }
    destruct (Hall e1 H1) as [-> ->]. by destruct (Hall e2 H2) as [-> ->].
  - apply list.Forall_forall. by_evaluation.
  - apply signup_date_is_first_Forall. by_evaluation.
Defined.

(** ** The data generator, data_generator.py *)

Lemma dict_lookup_Ok (d : list (string * Qc)) (k : string) :
  k ∈ fst <$> d → ∃ v, dict_lookup d k = Ok v.
Proof.
  intros (kv & -> & Hkv)%list_elem_of_fmap. unfold dict_lookup.
  destruct (list_find_elem_of (λ kv', kv'.1 = kv.1) d kv Hkv eq_refl) as [r ->].
  by eexists.
Qed.

Lemma dict_lookup_Raise (d : list (string * Qc)) (k : string) :
  k ∉ fst <$> d → dict_lookup d k = Raise KeyError.
Proof.
  intros Hk. unfold dict_lookup.
  destruct (list_find _ d) as [[i kv]|] eqn:Hfind; [| done].
  apply list_find_Some in Hfind as (Hi & Hkv & _).
  destruct Hk. rewrite <- Hkv. apply list_elem_of_fmap_2.
  by eapply list_elem_of_lookup_2.
Qed.

Lemma funnel_loop_Ok `{NumpyRandom} (u : user_row) (bm am : Qc)
    (funnel : list string) (d : date) (g : rstate) :
  (∀ s, s ∈ funnel → s ∈ fst <$> FUNNEL_PROBS) →
  ∃ r, funnel_loop u bm am funnel d g = Ok r.
Proof.
  revert d g. induction funnel as [|s rest IH]; intros d g Hkeys; [by eexists |].
  cbn [funnel_loop].
  destruct (dict_lookup_Ok FUNNEL_PROBS s (Hkeys s ltac:(left))) as [p ->].
  cbn [rbind].
  destruct (decide (_ < _)%Qc); [| by eexists].
  destruct (decide (END_DATE < _)); [by eexists |].
  match goal with
  | |- context [funnel_loop u bm am rest ?d' ?g'] =>
      destruct (IH d' g' (λ s' Hs', Hkeys s' ltac:(by right))) as [r ->]
  end.
  by eexists.
Qed.

(** The records of one run of the loop: their types are a prefix of the
    steps, their dates go up from the starting date and stay within the
    simulated period, and each carries the attributes of the user. *)
Lemma funnel_loop_spec `{NumpyRandom} (u : user_row) (bm am : Qc)
    (funnel : list string) (d : date) (g g' : rstate) (recs : list record) :
  "signup" ∉ funnel →
  funnel_loop u bm am funnel d g = Ok (recs, g') →
  rec_event_type <$> recs = take (length recs) funnel
  ∧ Forall (record_of_user u) recs
  ∧ Forall (λ r, d ≤ rec_event_date r ≤ END_DATE
                ∧ rec_event_date r ≤ d + 3 * Z.of_nat (length funnel)) recs
  ∧ StronglySorted Z.le (rec_event_date <$> recs).
Proof.
  revert d g g' recs. induction funnel as [|s rest IH]; intros d g g' recs Hns Hrun.
  { injection Hrun as <- <-. repeat split; constructor. }
  cbn [funnel_loop] in Hrun.
  destruct (dict_lookup FUNNEL_PROBS s) as [p|e]; [| done]. cbn [rbind] in Hrun.
  destruct (decide (_ < _)%Qc);
    [| injection Hrun as <- <-; repeat split; constructor].
  pose proof (randint_range 0 4 (random g).2 ltac:(lia)) as Hk.
  set (k := randint 0 4 (random g).2) in *.
  destruct (decide (END_DATE < d + k.1)) as [Hend | Hend];
    [injection Hrun as <- <-; repeat split; constructor |].
  set (rev := if decide (s = "purchase") then lognormal (dec 39 10) (dec 8 10) k.2
              else (0%Qc, k.2)) in *.
  destruct (funnel_loop u bm am rest (d + k.1) rev.2) as [[recs' g'']|e] eqn:Hrest;
    [| done].
  cbn [rbind fst snd] in Hrun. injection Hrun as <- <-.
  destruct (IH _ _ _ _ ltac:(intros Hin; apply Hns; by right) Hrest)
    as (Htypes & Hattr & Hdates & Hsorted).
  split; [| split; [| split]].
  - cbn [fmap list_fmap length take]. f_equal. exact Htypes.
  - constructor; [| done]. unfold record_of_user, mk_record. cbn.
    repeat split; try done.
    + intros ->. unfold rev. rewrite decide_True by done. apply lognormal_pos.
    + intros Hnp. unfold rev. by rewrite decide_False.
  - constructor; [cbn [mk_record rec_event_date length]; lia |].
    eapply list.Forall_impl; [exact Hdates |]. intros r Hr.
    cbn [length] in *. lia.
  - cbn [fmap list_fmap]. constructor; [done |].
    apply list.Forall_forall. intros x (r & -> & Hr)%list_elem_of_fmap.
    rewrite list.Forall_forall in Hdates. specialize (Hdates r Hr). cbn. lia.
Qed.

Lemma user_records_Ok `{NumpyRandom} (u : user_row) (g : rstate) :
  u_acquisition_channel u ∈ CHANNELS → u_device_type u ∈ DEVICES →
  ∃ r, user_records u g = Ok r.
Proof.
  intros Hc Hd. unfold user_records.
  destruct (dict_lookup_Ok CHANNEL_MULT _ Hc) as [cm ->].
  destruct (dict_lookup_Ok DEVICE_MULT _ Hd) as [dm ->]. cbn [rbind].
  match goal with
  | |- context [funnel_loop u ?bm ?am ?f ?d ?g'] =>
      destruct (funnel_loop_Ok u bm am f d g') as [r ->]
  end.
  - intros s Hs. rewrite !elem_of_cons, elem_of_nil in Hs.
    destruct Hs as [-> | [-> | [-> | [-> | []]]]]; by_evaluation.
  - by eexists.
Qed.

Lemma user_records_Raise `{NumpyRandom} (u : user_row) (g : rstate) :
  ¬ (u_acquisition_channel u ∈ CHANNELS ∧ u_device_type u ∈ DEVICES) →
  user_records u g = Raise KeyError.
Proof.
  intros Hbad. unfold user_records.
  destruct (decide (u_acquisition_channel u ∈ CHANNELS)) as [Hc | Hc].
  - destruct (dict_lookup_Ok CHANNEL_MULT _ Hc) as [cm ->]. cbn [rbind].
    rewrite dict_lookup_Raise; [done |]. tauto.
  - by rewrite dict_lookup_Raise.
Qed.

Lemma user_records_spec `{NumpyRandom} (u : user_row) (g g' : rstate)
    (recs : list record) :
  user_records u g = Ok (recs, g') →
  ∃ rest, recs = mk_record u (u_signup_date u) "signup" 0%Qc :: rest
    ∧ rec_event_type <$> recs = take (length recs) FUNNEL_STEPS
    ∧ Forall (record_of_user u) recs
    ∧ Forall (λ r, u_signup_date u + 1 ≤ rec_event_date r ≤ END_DATE
                   ∧ rec_event_date r ≤ u_signup_date u + 14) rest
    ∧ StronglySorted Z.le (rec_event_date <$> recs).
Proof.
  unfold user_records. intros Hrun.
  destruct (dict_lookup CHANNEL_MULT _) as [cm|e]; [| done].
  destruct (dict_lookup DEVICE_MULT _) as [dm|e]; [| done].
  cbn [rbind] in Hrun.
  pose proof (randint_range 1 3 g ltac:(lia)) as Hk.
  set (k := randint 1 3 g) in *.
  destruct (funnel_loop _ _ _ _ _ _) as [[rest g'']|e] eqn:Hloop; [| done].
  cbn [rbind fst snd] in Hrun. injection Hrun as <- <-.
  apply funnel_loop_spec in Hloop as (Htypes & Hattr & Hdates & Hsorted);
    [| by_evaluation].
  exists rest. split; [done |]. split; [| split; [| split]].
  - cbn [fmap list_fmap length take FUNNEL_STEPS]. f_equal. exact Htypes.
  - constructor; [| done]. unfold record_of_user, mk_record. cbn.
    repeat split; done.
  - eapply list.Forall_impl; [exact Hdates |]. intros r Hr.
    cbn [length] in Hr. lia.
  - cbn [fmap list_fmap]. constructor; [done |].
    apply list.Forall_forall. intros x (r & -> & Hr)%list_elem_of_fmap.
    rewrite list.Forall_forall in Hdates. specialize (Hdates r Hr). cbn. lia.
Qed.

Lemma generate_events_Ok `{NumpyRandom} (users : list user_row) (g : rstate) :
  Forall known_attributes users → ∃ r, generate_events users g = Ok r.
Proof.
  intros Hall. revert g. induction Hall as [|u users [Hc Hd] Hall IH]; intros g;
    [by eexists |].
  cbn [generate_events].
  destruct (user_records_Ok u g Hc Hd) as [r ->]. cbn [rbind].
  destruct (IH r.2) as [rs ->]. by eexists.
Qed.

Lemma generate_events_Raise `{NumpyRandom} (users : list user_row) (g : rstate) :
  ¬ Forall known_attributes users → generate_events users g = Raise KeyError.
Proof.
  revert g. induction users as [|u users IH]; intros g Hbad.
  { destruct Hbad. constructor. }
  cbn [generate_events].
  destruct (decide (known_attributes u)) as [[Hc Hd] | Hu].
  - destruct (user_records_Ok u g Hc Hd) as [r ->]. cbn [rbind].
    rewrite IH; [done |]. intros Hall. apply Hbad. by constructor.
  - by rewrite user_records_Raise.
Qed.

(** The records come user by user, in the order of the users frame. *)
Lemma generate_events_chunks `{NumpyRandom} (users : list user_row) (g g' : rstate)
    (recs : list record) :
  generate_events users g = Ok (recs, g') →
  ∃ chunks, recs = mjoin chunks
    ∧ Forall2 (λ u c, ∃ g1 g2, user_records u g1 = Ok (c, g2)) users chunks.
Proof.
  revert g g' recs. induction users as [|u users IH]; intros g g' recs Hrun.
  { injection Hrun as <- <-. exists []. split; [done | constructor]. }
  cbn [generate_events] in Hrun.
  destruct (user_records u g) as [[c g1]|e] eqn:Hu; [| done]. cbn [rbind] in Hrun.
  destruct (generate_events users _) as [[rs g2]|e] eqn:Hrest; [| done].
  cbn [rbind fst snd] in Hrun. injection Hrun as <- <-.
  destruct (IH _ _ _ Hrest) as (chunks & -> & Hall).
  exists (c :: chunks). split; [done |]. constructor; [| done].
  by exists g, g1.
Qed.

Lemma generate_events_length `{NumpyRandom} (users : list user_row) (g g' : rstate)
    (recs : list record) :
  generate_events users g = Ok (recs, g') →
  (length users ≤ length recs ≤ 5 * length users)%nat.
Proof.
  intros Hrun.
  apply generate_events_chunks in Hrun as (chunks & -> & Hall).
  clear g g'. induction Hall as [|u c users chunks (g1 & g2 & Hu) Hall IH];
    [simpl; lia |].
  change (mjoin (c :: chunks)) with (c ++ mjoin chunks). rewrite length_app.
  apply user_records_spec in Hu as (rest & -> & Htypes & _).
  apply (f_equal length) in Htypes.
  rewrite length_fmap, length_take in Htypes.
  change (length FUNNEL_STEPS) with 5%nat in Htypes.
  cbn [length] in Htypes |- *. lia.
Qed.

(** X21. [generate_events] returns its records exactly when every row of
    the users frame has a channel and a device of the configuration;
    otherwise the multiplier lookup raises [KeyError], and no other error
    is raised.  The records of a run are between one and five per user. *)
Theorem generate_events_fails_iff `{NumpyRandom} (users : list user_row) (g : rstate) :
  ((∃ r, generate_events users g = Ok r) ↔ Forall known_attributes users)
  ∧ (generate_events users g = Raise KeyError
     ↔ ∃ u, u ∈ users ∧ ¬ known_attributes u)
  ∧ (∀ e, generate_events users g = Raise e → e = KeyError)
  ∧ (∀ recs g', generate_events users g = Ok (recs, g') →
       (length users ≤ length recs ≤ 5 * length users)%nat).
Proof.
  split; [| split; [| split]].
  - split; [| apply generate_events_Ok].
    intros [r Hr]. destruct (decide (Forall known_attributes users)) as [|Hbad];
      [done |].
    by rewrite generate_events_Raise in Hr.
  - split.
    + intros Hraise. apply list.Exists_exists, not_Forall_Exists; [apply _ |].
      intros Hall. destruct (generate_events_Ok users g Hall) as [r Hr]. congruence.
    + intros (u & Hu & Hbad). apply generate_events_Raise.
      rewrite list.Forall_forall. intros Hall. by apply Hbad, Hall.
  - intros e He. destruct (decide (Forall known_attributes users)) as [Hall | Hbad].
    + destruct (generate_events_Ok users g Hall) as [r Hr]. congruence.
    + rewrite generate_events_Raise in He by done. by injection He as <-.
  - intros recs g' Hrun. by eapply generate_events_length.
Qed.

(** With distinct user ids, the records of a user are the ones its turn of
    the loop appended. *)
Lemma filter_concat_chunk (users : list user_row) (chunks : list (list record))
    (i : nat) (u : user_row) (c : list record) :
  Forall2 (λ u c, Forall (λ r, rec_user_id r = u_user_id u) c) users chunks →
  NoDup (u_user_id <$> users) →
  users !! i = Some u → chunks !! i = Some c →
  filter (λ r, rec_user_id r = u_user_id u) (mjoin chunks) = c.
Proof.
  intros Hall. revert i. induction Hall as [|u0 c0 users chunks Hc0 Hall IH];
    intros i Hnd Hu Hc; [done |].
  cbn [fmap list_fmap] in Hnd. apply list.NoDup_cons in Hnd as [Hu0 Hnd].
  change (mjoin (c0 :: chunks)) with (c0 ++ mjoin chunks). rewrite list.filter_app.
  assert (∀ v, v ∈ users → filter (λ r, rec_user_id r = u_user_id v) c0 = []) as Hc0_other.
  { intros v Hv. apply filter_none. intros r Hr Hid.
    rewrite list.Forall_forall in Hc0. rewrite (Hc0 r Hr) in Hid.
    apply Hu0. rewrite Hid. by apply list_elem_of_fmap_2. }
  destruct i as [|i]; simpl in Hu, Hc.
  - injection Hu as ->. injection Hc as ->.
    rewrite (filter_all _ c) by (by apply list.Forall_forall).
    assert (filter (λ r, rec_user_id r = u_user_id u) (mjoin chunks) = []) as ->;
      [| by rewrite app_nil_r].
    apply filter_none. intros r Hr Hid.
    apply list_elem_of_join in Hr as (c' & Hr & Hc').
    apply list_elem_of_lookup in Hc' as [j Hj].
    destruct (Forall2_lookup_r _ _ _ _ _ Hall Hj) as (v & Hv & Hcv).
    rewrite list.Forall_forall in Hcv. rewrite (Hcv r Hr) in Hid.
    apply Hu0. rewrite <- Hid. apply list_elem_of_fmap_2.
    by eapply list_elem_of_lookup_2.
  - rewrite Hc0_other by (by eapply list_elem_of_lookup_2).
    by apply (IH i).
Qed.

Lemma generate_events_chunk_of `{NumpyRandom} (users : list user_row)
    (g g' : rstate) (recs : list record) (u : user_row) :
  NoDup (u_user_id <$> users) →
  generate_events users g = Ok (recs, g') → u ∈ users →
  ∃ g1 g2, user_records u g1
           = Ok (filter (λ r, rec_user_id r = u_user_id u) recs, g2).
Proof.
  intros Hnd Hrun Hu.
  apply generate_events_chunks in Hrun as (chunks & -> & Hall).
  apply list_elem_of_lookup in Hu as [i Hi].
  destruct (Forall2_lookup_l _ _ _ _ _ Hall Hi) as (c & Hc & g1 & g2 & Hrec).
  exists g1, g2. rewrite (filter_concat_chunk users chunks i u c); try done.
  eapply list.Forall2_impl; [exact Hall |].
  intros v cv (h1 & h2 & Hv). cbn beta in Hv.
  apply user_records_spec in Hv as (_ & _ & _ & Hattr & _).
  eapply list.Forall_impl; [exact Hattr |]. by intros r [? _].
Qed.

(** X22. The records [generate_events] produces for one user of a frame
    with distinct user ids, in the order of the output: first the signup
    record, dated at the signup date with revenue 0; then the steps a user
    went through, in the order of the funnel and without a gap, so the
    event types are a prefix of the five steps; each later record is dated
    1 to 14 days after the signup and not after the end of the simulated
    period, and the dates never decrease; every record carries the id, the
    device, the channel and the group of the user, with a positive revenue
    on a purchase and revenue 0 elsewhere. *)
Theorem generate_events_user_chain `{NumpyRandom} (users : list user_row)
    (g g' : rstate) (recs : list record) (u : user_row) :
  NoDup (u_user_id <$> users) →
  generate_events users g = Ok (recs, g') → u ∈ users →
  let mine := filter (λ r, rec_user_id r = u_user_id u) recs in
  ∃ rest, mine = mk_record u (u_signup_date u) "signup" 0%Qc :: rest
    ∧ rec_event_type <$> mine = take (length mine) FUNNEL_STEPS
    ∧ Forall (record_of_user u) mine
    ∧ Forall (λ r, u_signup_date u + 1 ≤ rec_event_date r ≤ END_DATE
                   ∧ rec_event_date r ≤ u_signup_date u + 14) rest
    ∧ StronglySorted Z.le (rec_event_date <$> mine).
Proof.
  intros Hnd Hrun Hu mine.
  destruct (generate_events_chunk_of users g g' recs u Hnd Hrun Hu)
    as (g1 & g2 & Hrec).
  by apply user_records_spec in Hrec.
Qed.

Lemma generate_events_owner `{NumpyRandom} (users : list user_row) (g g' : rstate)
    (recs : list record) (r : record) :
  generate_events users g = Ok (recs, g') → r ∈ recs →
  ∃ u c g1 g2, u ∈ users ∧ user_records u g1 = Ok (c, g2) ∧ r ∈ c
    ∧ ∀ r', r' ∈ c → r' ∈ recs.
Proof.
  intros Hrun Hr.
  apply generate_events_chunks in Hrun as (chunks & -> & Hall).
  apply list_elem_of_join in Hr as (c & Hr & Hc).
  pose proof Hc as Hc'. apply list_elem_of_lookup in Hc' as [j Hj].
  destruct (Forall2_lookup_r _ _ _ _ _ Hall Hj) as (u & Hu & g1 & g2 & Hrec).
  exists u, c, g1, g2. split; [by eapply list_elem_of_lookup_2 |].
  split; [done |]. split; [done |].
  intros r' Hr'. apply list_elem_of_join. by exists c.
Qed.

Lemma generate_events_covers `{NumpyRandom} (users : list user_row) (g g' : rstate)
    (recs : list record) (u : user_row) :
  generate_events users g = Ok (recs, g') → u ∈ users →
  ∃ c g1 g2, user_records u g1 = Ok (c, g2) ∧ ∀ r, r ∈ c → r ∈ recs.
Proof.
  intros Hrun Hu.
  apply generate_events_chunks in Hrun as (chunks & -> & Hall).
  apply list_elem_of_lookup in Hu as [i Hi].
  destruct (Forall2_lookup_l _ _ _ _ _ Hall Hi) as (c & Hc & g1 & g2 & Hrec).
  exists c, g1, g2. split; [done |].
  intros r Hr. apply list_elem_of_join. exists c. split; [done |].
  by eapply list_elem_of_lookup_2.
Qed.

Lemma load_events_inv `{NumpyRandom} (users : list user_row) (g g' : rstate)
    (df : DataFrame) :
  load_events users g = Ok (df, g') →
  ∃ recs, generate_events users g = Ok (recs, g') ∧ recs ≠ []
    ∧ df = with_signup_date recs <$> recs.
Proof.
  unfold load_events. intros Hrun.
  destruct (generate_events users g) as [[recs g1]|e]; [| done].
  cbn [rbind fst snd] in Hrun. unfold add_signup_date in Hrun.
  destruct recs as [|r recs]; [done |]. cbn [rbind] in Hrun.
  injection Hrun as <- <-. by eexists.
Qed.

Lemma with_signup_date_dates (recs l : list record) (uid : Z) :
  event_date <$> rows_of_user uid (with_signup_date recs <$> l)
  = rec_event_date <$> filter (λ r, rec_user_id r = uid) l.
Proof.
  unfold rows_of_user. induction l as [|r l IH]; [done |].
  rewrite fmap_cons, (filter_cons _ r l).
  rewrite (filter_cons _ (with_signup_date recs r)). cbn [user_id with_signup_date].
  destruct (decide (rec_user_id r = uid)); [| done].
  rewrite !fmap_cons. f_equal. exact IH.
Qed.

Lemma series_min_sorted (d : Z) (l : list Z) :
  StronglySorted Z.le (d :: l) → series_min (d :: l) = Some d.
Proof.
  intros Hs. apply series_min_unique; [left |].
  apply StronglySorted_inv in Hs as [_ Hall].
  rewrite list.Forall_forall in Hall.
  intros x [-> | Hx]%elem_of_cons; [lia | by apply Hall].
Qed.

(** The frame of [load_data] for a users frame: what each row is. *)
Lemma load_events_rows `{NumpyRandom} (users : list user_row) (g g' : rstate)
    (df : DataFrame) (e : event) :
  NoDup (u_user_id <$> users) →
  load_events users g = Ok (df, g') → e ∈ df →
  ∃ u r, u ∈ users ∧ record_of_user u r
    ∧ rec_event_type r ∈ FUNNEL_STEPS
    ∧ user_id e = u_user_id u
    ∧ event_date e = rec_event_date r
    ∧ event_type e = rec_event_type r
    ∧ revenue e = rec_revenue r
    ∧ device_type e = u_device_type u
    ∧ acquisition_channel e = u_acquisition_channel u
    ∧ experiment_group e = u_experiment_group u
    ∧ signup_date e = u_signup_date u
    ∧ (rec_event_type r = "signup" → rec_event_date r = u_signup_date u)
    ∧ (rec_event_type r ≠ "signup" →
         u_signup_date u + 1 ≤ rec_event_date r ≤ END_DATE
         ∧ rec_event_date r ≤ u_signup_date u + 14).
Proof.
  intros Hnd Hrun He.
  apply load_events_inv in Hrun as (recs & Hrun & Hne & ->).
  apply list_elem_of_fmap in He as (r & -> & Hr).
  destruct (generate_events_owner users g g' recs r Hrun Hr)
    as (u & c & g1 & g2 & Hu & Hrec & Hrc & Hsub).
  destruct (generate_events_chunk_of users g g' recs u Hnd Hrun Hu)
    as (h1 & h2 & Hmine).
  pose proof (user_records_spec _ _ _ _ Hrec)
    as (rest & -> & Htypes & Hattr & Hdates & Hsorted).
  pose proof (user_records_spec _ _ _ _ Hmine)
    as (rest' & Hmine_eq & _ & _ & _ & Hsorted').
  rewrite list.Forall_forall in Hattr. pose proof (Hattr r Hrc) as Hr_attr.
  destruct Hr_attr as (Hid & Hdev & Hch & Hgr & Hrev).
  exists u, r. split; [done |]. split; [by apply Hattr |].
  assert (rec_event_type r ∈ FUNNEL_STEPS) as Hstep.
  { apply (list_elem_of_fmap_2 rec_event_type) in Hrc.
    rewrite Htypes in Hrc. apply list_elem_of_lookup in Hrc as [i Hi].
    apply lookup_take_Some in Hi as [Hi _]. by eapply list_elem_of_lookup_2. }
  split; [done |]. cbn [user_id event_date event_type revenue device_type
                        acquisition_channel experiment_group signup_date
                        with_signup_date].
  repeat (split; [done |]). split.
  { rewrite Hid, Hmine_eq. rewrite Hmine_eq in Hsorted'.
    cbn [fmap list_fmap] in *. rewrite series_min_sorted by done. done. }
  apply elem_of_cons in Hrc as [-> | Hrc].
  - split; [done |]. intros Hns. by destruct Hns.
  - rewrite list.Forall_forall in Hdates. split; [| by intros _; apply Hdates].
    intros Ht. exfalso.
    apply list_elem_of_lookup in Hrc as [j Hj].
    assert ((rec_event_type <$> mk_record u (u_signup_date u) "signup" 0%Qc :: rest)
              !! S j = Some "signup") as Hlk.
    { rewrite list_lookup_fmap. change ((?x :: rest) !! S j) with (rest !! j).
      rewrite Hj. cbn. by rewrite Ht. }
    rewrite Htypes in Hlk. apply lookup_take_Some in Hlk as [Hlk _].
    by destruct j as [|[|[|[|j]]]].
Qed.

Lemma load_events_signs_up `{NumpyRandom} (users : list user_row) (g g' : rstate)
    (df : DataFrame) :
  load_events users g = Ok (df, g') → every_user_signs_up df.
Proof.
  intros (recs & Hrun & Hne & ->)%load_events_inv e He.
  apply list_elem_of_fmap in He as (r & -> & Hr).
  destruct (generate_events_owner users g g' recs r Hrun Hr)
    as (u & c & g1 & g2 & Hu & Hrec & Hrc & Hsub).
  apply user_records_spec in Hrec as (rest & -> & _ & Hattr & _).
  rewrite list.Forall_forall in Hattr.
  destruct (Hattr r Hrc) as (Hid & _).
  exists (with_signup_date recs (mk_record u (u_signup_date u) "signup" 0%Qc)).
  split; [apply list_elem_of_fmap_2, Hsub; left |].
  split; [by cbn; rewrite Hid | done].
Qed.

Lemma load_events_signup_first `{NumpyRandom} (users : list user_row) (g g' : rstate)
    (df : DataFrame) :
  load_events users g = Ok (df, g') → signup_date_is_first df.
Proof.
  intros (recs & Hrun & Hne & ->)%load_events_inv e He.
  apply list_elem_of_fmap in He as (r & -> & Hr).
  unfold user_dates. rewrite with_signup_date_dates.
  cbn [user_id signup_date with_signup_date].
  destruct (series_min_is_Some (rec_event_date <$>
              filter (λ r', rec_user_id r' = rec_user_id r) recs)) as [m Hm].
  - intros Hnil. apply fmap_nil_inv in Hnil.
    assert (r ∈ filter (λ r', rec_user_id r' = rec_user_id r) recs) as Hin
      by (by apply list_elem_of_filter).
    rewrite Hnil in Hin. by apply elem_of_nil in Hin.
  - by rewrite Hm.
Qed.

Lemma load_events_users `{NumpyRandom} (users : list user_row) (g g' : rstate)
    (df : DataFrame) (uid : Z) :
  load_events users g = Ok (df, g') →
  uid ∈ users_of df ↔ uid ∈ u_user_id <$> users.
Proof.
  intros (recs & Hrun & Hne & ->)%load_events_inv.
  rewrite elem_of_users_of, list_elem_of_fmap. split.
  - intros (e & (r & -> & Hr)%list_elem_of_fmap & <-).
    destruct (generate_events_owner users g g' recs r Hrun Hr)
      as (u & c & g1 & g2 & Hu & Hrec & Hrc & Hsub).
    apply user_records_spec in Hrec as (rest & -> & _ & Hattr & _).
    rewrite list.Forall_forall in Hattr. destruct (Hattr r Hrc) as (Hid & _).
    by exists u.
  - intros (u & -> & Hu).
    destruct (generate_events_covers users g g' recs u Hrun Hu)
      as (c & g1 & g2 & Hrec & Hsub).
    apply user_records_spec in Hrec as (rest & -> & _).
    exists (with_signup_date recs (mk_record u (u_signup_date u) "signup" 0%Qc)).
    split; [apply list_elem_of_fmap_2, Hsub; left | done].
Qed.

(** X23. The frame [load_data] builds from a users frame with distinct
    ids satisfies the invariants of the data model: every user has a signup
    row and the signup date of a row is the least event date of its user.
    Its distinct users are the users of the users frame; on every row the
    device, the channel, the group and the signup date are those of the
    user; a signup row is dated at the signup date, any other row 1 to 14
    days later and not after the end of the simulated period; the revenue
    is positive on a purchase row and 0 on any other. *)
Theorem load_events_invariants `{NumpyRandom} (users : list user_row)
    (g g' : rstate) (df : DataFrame) :
  NoDup (u_user_id <$> users) →
  load_events users g = Ok (df, g') →
  every_user_signs_up df
  ∧ signup_date_is_first df
  ∧ (∀ uid, uid ∈ users_of df ↔ uid ∈ u_user_id <$> users)
  ∧ length (users_of df) = length users
  ∧ ∀ e, e ∈ df →
      event_type e ∈ FUNNEL_STEPS
      ∧ (∃ u, u ∈ users ∧ user_id e = u_user_id u
           ∧ signup_date e = u_signup_date u
           ∧ device_type e = u_device_type u
           ∧ acquisition_channel e = u_acquisition_channel u
           ∧ experiment_group e = u_experiment_group u)
      ∧ (event_type e = "signup" → event_date e = signup_date e)
      ∧ (event_type e ≠ "signup" →
           signup_date e + 1 ≤ event_date e ≤ END_DATE
           ∧ event_date e ≤ signup_date e + 14)
      ∧ (event_type e = "purchase" → (0 < revenue e)%Qc)
      ∧ (event_type e ≠ "purchase" → revenue e = 0%Qc).
Proof.
  intros Hnd Hrun.
  split; [by eapply load_events_signs_up |].
  split; [by eapply load_events_signup_first |].
  split; [intros uid; by eapply load_events_users |].
  split.
  { rewrite <- (length_fmap u_user_id users).
    apply Permutation_length, NoDup_Permutation; [apply NoDup_remove_dups | done |].
    intros uid. by eapply load_events_users. }
  intros e He.
  destruct (load_events_rows users g g' df e Hnd Hrun He)
    as (u & r & Hu & Hattr & Hstep & Hid & Hdate & Htype & Hrev & Hdev & Hch
        & Hgr & Hsd & Hsignup & Hlater).
  destruct Hattr as (_ & _ & _ & _ & Hpos & Hzero).
  rewrite Htype, Hdate, Hrev, Hsd.
  split; [done |]. split; [by exists u |]. done.
Qed.

Lemma step_reach_mono (df : DataFrame) (a b : string) :
  (∀ u, has_event df b u → has_event df a u) →
  (step_reach df b ≤ step_reach df a)%nat.
Proof.
  intros Hchain. rewrite !step_reach_any_occurrence. unfold reach_any_occurrence.
  apply filter_length_mono. intros u _. apply Hchain.
Qed.

(** A generated user that reached a step reached the step before. *)
Lemma load_events_chain `{NumpyRandom} (users : list user_row) (g g' : rstate)
    (df : DataFrame) (i : nat) (a b : string) (uid : Z) :
  load_events users g = Ok (df, g') →
  FUNNEL_STEPS !! i = Some a → FUNNEL_STEPS !! S i = Some b →
  has_event df b uid → has_event df a uid.
Proof.
  intros (recs & Hrun & Hne & ->)%load_events_inv Ha Hb.
  unfold has_event. rewrite !list.Exists_exists.
  intros (e & (r & -> & Hr)%list_elem_of_fmap & Hid & Ht).
  cbn [user_id event_type with_signup_date] in Hid, Ht.
  destruct (generate_events_owner users g g' recs r Hrun Hr)
    as (u & c & g1 & g2 & Hu & Hrec & Hrc & Hsub).
  apply user_records_spec in Hrec as (rest & Hc & Htypes & Hattr & _).
  rewrite list.Forall_forall in Hattr.
  apply list_elem_of_lookup in Hrc as [j Hj].
  assert ((rec_event_type <$> c) !! j = Some b) as Hjb
    by (by rewrite list_lookup_fmap, Hj; cbn; rewrite Ht).
  rewrite Htypes in Hjb. apply lookup_take_Some in Hjb as [Hjb Hjn].
  assert (NoDup FUNNEL_STEPS) as Hnd by (by apply (bool_decide_unpack _)).
  assert (j = S i) as -> by (by eapply NoDup_lookup).
  destruct (lookup_lt_is_Some_2 c i ltac:(lia)) as [r' Hr'].
  assert (rec_event_type r' = a) as Hta.
  { assert ((rec_event_type <$> c) !! i = Some (rec_event_type r')) as Hi
      by (by rewrite list_lookup_fmap, Hr').
    rewrite Htypes in Hi. apply lookup_take_Some in Hi as [Hi _]. congruence. }
  apply list_elem_of_lookup_2 in Hr', Hj.
  exists (with_signup_date recs r'). split; [by apply list_elem_of_fmap_2, Hsub |].
  cbn [user_id event_type with_signup_date]. split; [| done].
  destruct (Hattr r' Hr') as (-> & _). destruct (Hattr r Hj) as (<- & _). done.
Qed.

(** X24. The funnel of generated data.  In the frame [load_data] builds
    from a users frame, the reach of a funnel step is at most the reach of
    the step before; so in the funnel table every drop-off after the first
    row is either missing (nobody reached the step before) or a number
    between 0 and 100, and the bottleneck is defined, with a drop-off
    between 0 and 100. *)
Theorem load_events_funnel `{NumpyRandom} (users : list user_row)
    (g g' : rstate) (df : DataFrame) :
  load_events users g = Ok (df, g') →
  (∀ i a b, FUNNEL_STEPS !! i = Some a → FUNNEL_STEPS !! S i = Some b →
     (step_reach df b ≤ step_reach df a)%nat)
  ∧ ∃ t, compute_funnel df = Ok t
      ∧ (∀ i r, (1 ≤ i)%nat → t !! i = Some r →
           dropoff_pct r = NaN
           ∨ ∃ q, dropoff_pct r = Fin q ∧ (0 ≤ q)%Qc ∧ (q ≤ Qc_of_Z 100)%Qc)
      ∧ ∃ i r q, bottleneck t = Ok (Some (i, step r, Fin q))
          ∧ (1 ≤ i ≤ 4)%nat ∧ t !! i = Some r ∧ dropoff_pct r = Fin q
          ∧ (0 ≤ q)%Qc ∧ (q ≤ Qc_of_Z 100)%Qc.
Proof.
  intros Hrun.
  assert (∀ i a b, FUNNEL_STEPS !! i = Some a → FUNNEL_STEPS !! S i = Some b →
            (step_reach df b ≤ step_reach df a)%nat) as Hmono.
  { intros i a b Ha Hb. apply step_reach_mono. intros u.
    by eapply load_events_chain. }
  split; [done |].
  assert (0 < step_reach df "signup")%nat as Hpos.
  { rewrite (step_reach_signup df) by (by eapply load_events_signs_up).
    apply load_events_inv in Hrun as (recs & _ & Hne & ->).
    rewrite <- nunique_users_of. apply nunique_pos.
    destruct recs; [done | discriminate]. }
  destruct (bottleneck_defined df Hpos) as (t & i & r & Ht & Hb & Hi & Hr & Hnum).
  assert (∀ j rj, (1 ≤ j)%nat → t !! j = Some rj →
            dropoff_pct rj = NaN
            ∨ ∃ q, dropoff_pct rj = Fin q ∧ (0 ≤ q)%Qc ∧ (q ≤ Qc_of_Z 100)%Qc)
    as Hrange.
  { intros j rj Hj Hrj. destruct j as [|j]; [lia |].
    destruct (lookup_lt_is_Some_2 t j) as [rp Hrp];
      [apply lookup_lt_Some in Hrj; lia |].
    destruct (compute_funnel_consecutive df t j rp rj Ht Hrp Hrj)
      as (-> & _ & a & b & Ha & Hbs & -> & ->).
    specialize (Hmono j a b Ha Hbs).
    destruct (dropoff_cases (step_reach df b) (step_reach df a))
      as (Hin & _ & _ & Hnan).
    destruct (decide (step_reach df a = 0%nat)) as [Hz | Hnz].
    - left. apply Hnan; [done | lia].
    - right. destruct Hin as (q & Hq & H0 & H100 & _); [lia | done |].
      by exists q. }
  exists t. split; [done |]. split; [done |].
  destruct (Hrange i r ltac:(lia) Hr) as [Hnan | (q & Hq & H0 & H100)]; [done |].
  exists i, r, q. rewrite <- Hq. done.
Qed.

Lemma generate_events_user_chain_witness :
  ∃ rest, filter (λ r, rec_user_id r = u_user_id sample_user) sample_records.1
          = mk_record sample_user (u_signup_date sample_user) "signup" 0%Qc :: rest.
Proof.
  destruct (@generate_events_user_chain ref_numpy sample_users.1 sample_users.2
              sample_records.2 sample_records.1 sample_user)
    as (rest & Hrest & _).
  - by_evaluation.
  - by_evaluation.
  - by_evaluation.
  - by exists rest.
Defined.

Lemma load_events_invariants_witness :
  every_user_signs_up sample_frame.1 ∧ signup_date_is_first sample_frame.1.
Proof.
  destruct (@load_events_invariants ref_numpy sample_users.1 sample_users.2
              sample_frame.2 sample_frame.1) as (Hsign & Hfirst & _).
  - by_evaluation.
  - by_evaluation.
  - by split.
Defined.

Lemma load_events_funnel_witness :
  ∃ t, compute_funnel sample_frame.1 = Ok t
    ∧ ∃ i r q, bottleneck t = Ok (Some (i, step r, Fin q)).
Proof.
  destruct (@load_events_funnel ref_numpy sample_users.1 sample_users.2
              sample_frame.2 sample_frame.1)
    as (_ & t & Ht & _ & i & r & q & Hb & _).
  - by_evaluation.
  - exists t. split; [done |]. by exists i, r, q.
Defined.

(** *** The users frame *)

Lemma draws_length {S A} (draw : S → A * S) (n : nat) (g : S) :
  length (draws draw n g).1 = n.
Proof.
  revert g. induction n as [|n IH]; intros g; [done |].
  cbn [draws fst length]. by rewrite IH.
Qed.

Lemma draws_Forall {S A} (P : A → Prop) (draw : S → A * S) (n : nat) (g : S) :
  (∀ g', P (draw g').1) → Forall P (draws draw n g).1.
Proof.
  intros HP. revert g. induction n as [|n IH]; intros g; [constructor |].
  cbn [draws fst]. constructor; [apply HP | apply IH].
Qed.

Lemma users_frame_ids `{NumpyRandom} (n : nat) (g : rstate) :
  u_user_id <$> (users_frame n g).1 = Z.of_nat <$> seq 1 n.
Proof.
  unfold users_frame. cbn [fst].
  set (ids := Z.of_nat <$> seq 1 n).
  set (dates := (λ d, START_DATE + d) <$> _).
  set (cs := (draws (choice CHANNELS (Some CHANNEL_W)) n _).1).
  set (vs := (draws (choice DEVICES (Some DEVICE_W)) n _).1).
  set (abs := (draws (choice ["A"; "B"] None) n _).1).
  assert (length ids = n) as Hids by (unfold ids; by rewrite length_fmap, length_seq).
  assert (length dates = n) as Hdates
    by (unfold dates; by rewrite length_fmap, draws_length).
  assert (length cs = n) as Hcs by apply draws_length.
  assert (length vs = n) as Hvs by apply draws_length.
  assert (length abs = n) as Habs by apply draws_length.
  clearbody ids dates cs vs abs. unfold date in *.
  rewrite (zip_with_fmap_l _ u_user_id (fst ∘ fst ∘ fst)); [| done |].
  - rewrite !list_fmap_compose.
    rewrite !fst_zip; [done | | |]; rewrite ?length_zip_with;
      rewrite ?Hids, ?Hdates, ?Hcs, ?Hvs, ?Nat.min_id; done.
  - rewrite !length_zip_with.
    by rewrite Hids, Hdates, Hcs, Hvs, Habs, !Nat.min_id.
Qed.

Lemma users_frame_length `{NumpyRandom} (n : nat) (g : rstate) :
  length (users_frame n g).1 = n.
Proof.
  rewrite <- (length_fmap u_user_id), users_frame_ids.
  by rewrite length_fmap, length_seq.
Qed.

Lemma users_frame_NoDup `{NumpyRandom} (n : nat) (g : rstate) :
  NoDup (u_user_id <$> (users_frame n g).1).
Proof.
  rewrite users_frame_ids. apply NoDup_fmap; [apply _ | apply NoDup_seq].
Qed.

Lemma users_frame_rows `{NumpyRandom} (n : nat) (g : rstate) (u : user_row) :
  u ∈ (users_frame n g).1 →
  1 ≤ u_user_id u ≤ Z.of_nat n
  ∧ START_DATE ≤ u_signup_date u < END_DATE
  ∧ known_attributes u
  ∧ (u_experiment_group u = "A" ∨ u_experiment_group u = "B").
Proof.
  unfold users_frame. cbn [fst]. intros Hu.
  apply list_elem_of_lookup in Hu as [i Hi].
  apply lookup_zip_with_Some in Hi as ([[[id d] c] v] & ab & -> & Hrow & Hab).
  apply lookup_zip_with_Some in Hrow as (? & ? & [= <- <-] & Hrow & Hv).
  apply lookup_zip_with_Some in Hrow as (? & ? & [= <- <-] & Hrow & Hc).
  apply lookup_zip_with_Some in Hrow as (? & ? & [= <- <-] & Hid & Hd).
  cbn.
  apply list_elem_of_lookup_2 in Hid, Hd, Hc, Hv, Hab.
  split; [| split; [| split]].
  - apply list_elem_of_fmap in Hid as (k & -> & Hk).
    apply elem_of_seq in Hk. lia.
  - apply list_elem_of_fmap in Hd as (k & -> & Hk).
    assert (0 ≤ k < DATE_RANGE); [| unfold DATE_RANGE in *; lia].
    revert k Hk. apply list.Forall_forall, draws_Forall.
    intros g'. apply randint_range. by vm_compute.
  - split.
    + revert c Hc. apply list.Forall_forall, draws_Forall.
      intros g'. by apply choice_elem.
    + revert v Hv. apply list.Forall_forall, draws_Forall.
      intros g'. by apply choice_elem.
  - assert (ab ∈ ["A"; "B"]) as Hin.
    { revert ab Hab. apply list.Forall_forall, draws_Forall.
      intros g'. by apply choice_elem. }
    rewrite !elem_of_cons, elem_of_nil in Hin. tauto.
Qed.

(** X25. The users frame of [generate_users] has [N_USERS] rows with the
    ids 1, 2, ..., [N_USERS] in this order, hence distinct; every signup
    date is from the first day of the simulated period up to the day before
    its last; every channel and every device is one of the configuration,
    and every group is A or B. *)
Theorem generate_users_frame `{NumpyRandom} (g : rstate) :
  length (generate_users g).1 = Z.to_nat N_USERS
  ∧ u_user_id <$> (generate_users g).1 = Z.of_nat <$> seq 1 (Z.to_nat N_USERS)
  ∧ NoDup (u_user_id <$> (generate_users g).1)
  ∧ ∀ u, u ∈ (generate_users g).1 →
      1 ≤ u_user_id u ≤ N_USERS
      ∧ START_DATE ≤ u_signup_date u < END_DATE
      ∧ u_acquisition_channel u ∈ CHANNELS
      ∧ u_device_type u ∈ DEVICES
      ∧ (u_experiment_group u = "A" ∨ u_experiment_group u = "B").
Proof.
  unfold generate_users.
  split; [apply users_frame_length |].
  split; [apply users_frame_ids |].
  split; [apply users_frame_NoDup |].
  intros u Hu. apply users_frame_rows in Hu as (Hid & Hd & [Hc Hv] & Hab).
  rewrite Z2Nat.id in Hid by (by vm_compute). done.
Qed.

Lemma NoDup_fmap_eq {A B} (f : A → B) (l : list A) (x y : A) :
  NoDup (f <$> l) → x ∈ l → y ∈ l → f x = f y → x = y.
Proof.
  intros Hnd [i Hi]%list_elem_of_lookup [j Hj]%list_elem_of_lookup Hf.
  assert (i = j) as ->; [| congruence].
  apply (NoDup_lookup (f <$> l) i j (f x)); [done | |].
  - by rewrite list_lookup_fmap, Hi.
  - by rewrite list_lookup_fmap, Hj, Hf.
Qed.

(** X26. [load_data] always returns a frame.  The frame has exactly
    [N_USERS] distinct users, with ids from 1 to [N_USERS], and between
    one and five rows per user; it satisfies both invariants of the data
    model; every event is dated within the simulated period and not before
    the signup date of its row; channel, device and group are of the
    configuration and, like the signup date, the same on all rows of a
    user; and the KPI summary of the frame is computed, counting [N_USERS]
    users. *)
Theorem load_data_frame `{NumpyRandom} (g : rstate) :
  ∃ df g', load_data g = Ok (df, g')
    ∧ length (users_of df) = Z.to_nat N_USERS
    ∧ (Z.to_nat N_USERS ≤ length df ≤ 5 * Z.to_nat N_USERS)%nat
    ∧ every_user_signs_up df
    ∧ signup_date_is_first df
    ∧ (∀ e, e ∈ df →
         1 ≤ user_id e ≤ N_USERS
         ∧ START_DATE ≤ signup_date e ∧ signup_date e ≤ event_date e
         ∧ event_date e ≤ END_DATE
         ∧ acquisition_channel e ∈ CHANNELS
         ∧ device_type e ∈ DEVICES
         ∧ (experiment_group e = "A" ∨ experiment_group e = "B"))
    ∧ (∀ e1 e2, e1 ∈ df → e2 ∈ df → user_id e1 = user_id e2 →
         signup_date e1 = signup_date e2
         ∧ acquisition_channel e1 = acquisition_channel e2
         ∧ device_type e1 = device_type e2
         ∧ experiment_group e1 = experiment_group e2)
    ∧ ∃ k, get_kpi_summary df = Ok k ∧ kpi_total_users k = Z.to_nat N_USERS.
Proof.
  unfold load_data, generate_users. cbv zeta.
  assert (Z.of_nat (Z.to_nat N_USERS) = N_USERS) as Hn by (by rewrite Z2Nat.id).
  assert (0 < Z.to_nat N_USERS)%nat as Hpos by (unfold N_USERS; lia).
  set (n := Z.to_nat N_USERS) in *.
  set (users := users_frame n g).
  pose proof (users_frame_length n g) as Hlen. fold users in Hlen.
  pose proof (users_frame_NoDup n g) as Hnd. fold users in Hnd.
  pose proof (users_frame_rows n g) as Hrows. fold users in Hrows.
  clearbody users. clearbody n.
  destruct (generate_events_Ok users.1 users.2) as [[recs g'] Hgen].
  { apply list.Forall_forall. intros u Hu. by apply Hrows in Hu as (_ & _ & ? & _). }
  pose proof (generate_events_length _ _ _ _ Hgen) as Hcount.
  assert (∃ df, load_events users.1 users.2 = Ok (df, g')
            ∧ df = with_signup_date recs <$> recs) as (df & Hrun & Hdf).
  { unfold load_events. rewrite Hgen. cbn [rbind fst snd].
    destruct recs as [|r recs]; [cbn [length] in Hcount; lia |]. by eexists. }
  assert (length (users_of df) = n) as Husers.
  { rewrite <- Hlen, <- (length_fmap u_user_id users.1).
    apply Permutation_length, NoDup_Permutation; [apply NoDup_remove_dups | done |].
    intros uid. by eapply load_events_users. }
  exists df, g'. split; [done |]. split; [done |].
  split; [by rewrite Hdf, length_fmap, <- Hlen |].
  split; [by eapply load_events_signs_up |].
  split; [by eapply load_events_signup_first |].
  split; [| split].
  - intros e He.
    destruct (load_events_rows users.1 users.2 g' df e Hnd Hrun He)
      as (u & r & Hu & Hattr & Hstep & Hid & Hdate & Htype & Hrev & Hdev & Hch
          & Hgr & Hsd & Hsignup & Hlater).
    destruct (Hrows u Hu) as (Huid & Hud & [Hc Hv] & Hab).
    rewrite Hn in Huid.
    rewrite Hid, Hsd, Hdate, Hch, Hdev, Hgr.
    repeat split; try done; try lia.
    + destruct (decide (rec_event_type r = "signup")) as [Ht | Ht];
        [rewrite (Hsignup Ht); lia | specialize (Hlater Ht); lia].
    + destruct (decide (rec_event_type r = "signup")) as [Ht | Ht];
        [rewrite (Hsignup Ht); lia | specialize (Hlater Ht); lia].
  - intros e1 e2 He1 He2 Hsame.
    destruct (load_events_rows users.1 users.2 g' df e1 Hnd Hrun He1)
      as (u1 & r1 & Hu1 & _ & _ & Hid1 & _ & _ & _ & Hdev1 & Hch1 & Hgr1 & Hsd1 & _).
    destruct (load_events_rows users.1 users.2 g' df e2 Hnd Hrun He2)
      as (u2 & r2 & Hu2 & _ & _ & Hid2 & _ & _ & _ & Hdev2 & Hch2 & Hgr2 & Hsd2 & _).
    assert (u1 = u2) as <-
      by (apply (NoDup_fmap_eq u_user_id users.1); [done | done | done | congruence]).
    rewrite Hdev1, Hch1, Hgr1, Hsd1, Hdev2, Hch2, Hgr2, Hsd2. done.
  - destruct (compute_conversion_rate_Ok df) as [q Hq].
    { intros ->. cbn [users_of fmap list_fmap remove_dups length] in Husers. lia. }
    unfold get_kpi_summary. rewrite Hq. eexists. split; [reflexivity |].
    cbn [kpi_total_users]. by rewrite nunique_users_of.
Qed.

(** *** Revenue of generated data *)






(** [_random_date] returns a date from [start] up to the day before
    [end] when [start] is before [end], and raises [ValueError] otherwise:
    the range of the draw is empty. *)
Lemma random_date_range `{NumpyRandom} (start end_ : date) (g : rstate) :
  (start < end_ →
     ∃ d g', _random_date start end_ g = Ok (d, g') ∧ start ≤ d < end_)
  ∧ (end_ ≤ start → _random_date start end_ g = Raise ValueError).
Proof.
  unfold _random_date. cbv zeta. split.
  - intros Hlt. rewrite decide_False by lia.
    pose proof (randint_range 0 (end_ - start) g ltac:(lia)) as Hr.
    eexists. eexists. split; [reflexivity |]. lia.
  - intros Hle. by rewrite decide_True by lia.
Qed.
